(** * MathVizAI front end: the PDF viewer component and its API client

    A shallow embedding of [src/services/api.js] and of the event handlers
    of [src/components/PdfViewer.jsx], with the properties of the viewer's
    preloading, polling, OCR and zoom logic stated and proved over it.

    JavaScript numbers are IEEE-754 binary64; they are modelled by the
    Standard Library's [spec_float] with the binary64 parameters, so that
    the arithmetic of the handlers ([prevScale + 0.2],
    [(newSet.size / numPages) * 100]) rounds as it does in a browser. *)

From Stdlib Require Import ZArith QArith Qpower Qround Lia Lqa Bool List
  Sorted Ascii String SpecFloat.
From stdpp Require Import base decidable option list gmap strings pretty.

Local Open Scope Z_scope.

(* ===================================================================== *)
(** * JavaScript numbers *)
(* ===================================================================== *)

Module JsNumber.

(** binary64: 53 bits of precision, exponents below 1024. *)
Definition prec : Z := 53.
Definition emax : Z := 1024.

Definition number : Type := spec_float.

(** The same number, bit for bit ([Object.is], not [===]). *)
Definition same_value (x y : number) : bool :=
  match x, y with
  | S754_zero s, S754_zero t => Bool.eqb s t
  | S754_infinity s, S754_infinity t => Bool.eqb s t
  | S754_nan, S754_nan => true
  | S754_finite s m e, S754_finite t n f =>
      Bool.eqb s t && Pos.eqb m n && Z.eqb e f
  | _, _ => false
  end.

(** An integer used as a number (a literal such as [100], a [Set]'s
    [size]): the nearest binary64, exact below 2^53. *)
Definition of_Z (z : Z) : number := binary_normalize prec emax z 0 false.

Definition add : number -> number -> number := SFadd prec emax.
Definition sub : number -> number -> number := SFsub prec emax.
Definition mul : number -> number -> number := SFmul prec emax.
Definition div : number -> number -> number := SFdiv prec emax.

Definition leb : number -> number -> bool := SFleb.
Definition ltb : number -> number -> bool := SFltb.

(** A decimal literal [p/q] of the source text denotes the binary64
    nearest to it, which is what a correctly rounded division of the two
    integers gives. *)
Definition lit_0_2 : number := Eval vm_compute in div (of_Z 2) (of_Z 10).
Definition lit_0_5 : number := Eval vm_compute in div (of_Z 5) (of_Z 10).
Definition lit_1_0 : number := Eval vm_compute in of_Z 1.
Definition lit_3_0 : number := Eval vm_compute in of_Z 3.
Definition lit_100 : number := Eval vm_compute in of_Z 100.

Definition is_neg_zero (x : number) : bool :=
  match x with S754_zero true => true | _ => false end.

(** [Math.min(a, b)]: NaN when either is NaN, and -0 below +0. *)
Definition Math_min (a b : number) : number :=
  match SFcompare a b with
  | None => S754_nan
  | Some Lt => a
  | Some Gt => b
  | Some Eq => if is_neg_zero b then b else a
  end.

(** [Math.max(a, b)]: NaN when either is NaN, and +0 above -0. *)
Definition Math_max (a b : number) : number :=
  match SFcompare a b with
  | None => S754_nan
  | Some Lt => b
  | Some Gt => a
  | Some Eq => if is_neg_zero a then b else a
  end.

(** [floor (x * scale + 1/2)] for the exact value of a finite [x] and a
    positive integer [scale]; 0 for the values that have none
    (NaN, the infinities). *)
Definition round_half_up_scaled (scale : Z) (x : number) : Z :=
  match x with
  | S754_finite s m e =>
      let v := if s then Z.neg m else Z.pos m in
      match e with
      | Z.neg p => (2 * scale * v + 2 ^ Z.pos p) / (2 * 2 ^ Z.pos p)
      | _ => scale * v * 2 ^ e
      end
  | _ => 0
  end.

(** [Math.round(x)]: the integer nearest to [x], a tie going to the
    larger one. *)
Definition Math_round (x : number) : Z := round_half_up_scaled 1 x.

(** [s * 10^(n - k)] for the [k] digits [s] nearest to [v], an integer of
    [n] digits, among those that read back as [x]; a tie goes to the even
    [s]. *)
Definition shortest_at (x : number) (v n k : Z) : option Z :=
  let p := 10 ^ (n - k) in
  let lo := v / p in
  let hi := lo + 1 in
  match same_value (of_Z (lo * p)) x, same_value (of_Z (hi * p)) x with
  | true, true =>
      Some (if v - lo * p <? hi * p - v then lo
            else if hi * p - v <? v - lo * p then hi
            else if Z.even lo then lo else hi)
  | true, false => Some lo
  | false, true => Some hi
  | false, false => None
  end.

(** The digits [s], [k] of them, with the exponent of an integer of [n]
    digits: [d.ddde+NN]. Digits [10^k] stand for a one with one more
    digit. *)
Definition exponent_text (s k n : Z) : string :=
  if s =? 10 ^ k then "1e+" +:+ pretty n
  else
    match pretty s with
    | String c EmptyString => String c "e+" +:+ pretty (n - 1)
    | String c r => String c "." +:+ r +:+ "e+" +:+ pretty (n - 1)
    | EmptyString => EmptyString
    end.

Fixpoint shortest_text (fuel : nat) (x : number) (v n k : Z) : string :=
  match fuel with
  | O => exponent_text v n n
  | S fuel' =>
      match shortest_at x v n k with
      | Some s => exponent_text s k n
      | None => shortest_text fuel' x v n (k + 1)
      end
  end.

(** [String(x)] for a number [x] of 10^21 or more, which is an integer
    [v]: the fewest digits that read back as [x], in exponent notation.
    Seventeen digits always do. *)
Definition large_text (x : number) : string :=
  match x with
  | S754_finite false m e =>
      let v := Z.pos m * 2 ^ e in
      shortest_text 17 x v (Z.of_nat (String.length (pretty v))) 1
  | _ => EmptyString
  end.

(** [x.toFixed(1)]: NaN and the infinities print as [String(x)] does; a
    negative number prints a minus sign, also when it rounds to zero, and
    -0 prints none; [|x|] below 10^21 is rounded to one decimal, a tie
    going up; from 10^21 on it prints as [String(|x|)] does. *)
Definition toFixed1 (x : number) : string :=
  match x with
  | S754_nan => "NaN"
  | S754_infinity s => if s then "-Infinity" else "Infinity"
  | S754_zero _ => "0.0"
  | S754_finite s m e =>
      let a := S754_finite false m e in
      let digits :=
        if leb (of_Z (10 ^ 21)) a then large_text a
        else
          let n := round_half_up_scaled 10 a in
          pretty (n / 10) +:+ "." +:+ pretty (n mod 10) in
      (if s then "-" else "") +:+ digits
  end.

End JsNumber.

(* ===================================================================== *)
(** * Zoom: [zoomIn] and [zoomOut] of PdfViewer.jsx *)
(* ===================================================================== *)

Module Zoom.
Import JsNumber.

(** [setScale(prevScale => Math.min(prevScale + 0.2, 3.0))] *)
Definition zoomIn (prevScale : number) : number :=
  Math_min (add prevScale lit_0_2) lit_3_0.

(** [setScale(prevScale => Math.max(prevScale - 0.2, 0.5))] *)
Definition zoomOut (prevScale : number) : number :=
  Math_max (sub prevScale lit_0_2) lit_0_5.

Inductive zoom_op : Type := ZoomIn | ZoomOut.

Definition zoom (op : zoom_op) (s : number) : number :=
  match op with
  | ZoomIn => zoomIn s
  | ZoomOut => zoomOut s
  end.

(** The scale after a sequence of clicks, oldest first. *)
Definition zoom_all (ops : list zoom_op) (s : number) : number :=
  fold_left (fun acc op => zoom op acc) ops s.

(** [useState(1.0)] *)
Definition initial_scale : number := lit_1_0.

Definition in_zoom_range (s : number) : bool :=
  leb lit_0_5 s && leb s lit_3_0.

Definition mem (x : number) (l : list number) : bool :=
  existsb (same_value x) l.

Definition push_new (x : number) (acc : list number * list number)
  : list number * list number :=
  if mem x (snd acc) then acc else (fst acc ++ [x], snd acc ++ [x]).

(** The scales the two buttons can produce from a start: a worklist
    exploration, [fuel] bounding the number of scales taken off the
    worklist. *)
Fixpoint explore (fuel : nat) (todo seen : list number) : list number :=
  match fuel with
  | O => seen
  | S fuel' =>
      match todo with
      | [] => seen
      | s :: todo' =>
          let '(todo'', seen') :=
            push_new (zoomOut s) (push_new (zoomIn s) (todo', seen)) in
          explore fuel' todo'' seen'
      end
  end.

Definition scale_orbit : list number :=
  Eval vm_compute in explore 200 [initial_scale] [initial_scale].

Definition closed_under_zoom (l : list number) : bool :=
  forallb (fun s => mem (zoomIn s) l && mem (zoomOut s) l) l.

End Zoom.

(* ===================================================================== *)
(** * JSON values and the outcome of a call *)
(* ===================================================================== *)

Module Json.

(** What [response.json()] can produce. *)
#[local] Set Warnings "-register-all".
Inductive json : Type :=
| JNull
| JBool (b : bool)
| JNum (x : JsNumber.number)
| JStr (s : string)
| JArr (items : list json)
| JObj (fields : list (string * json)).

Inductive js_error : Type :=
| TypeError (message : string)
| SyntaxError (message : string)
| Error (message : string).

(** How a call (or an awaited promise) ends: with a value or with a thrown
    error. *)
Inductive completion (A : Type) : Type :=
| Return (a : A)
| Throw (e : js_error).
Arguments Return {A} a.
Arguments Throw {A} e.

Definition bind {A B : Type} (c : completion A) (k : A -> completion B)
  : completion B :=
  match c with
  | Return a => k a
  | Throw e => Throw e
  end.

Definition throws {A : Type} (c : completion A) : Prop :=
  exists e, c = Throw e.

Fixpoint assoc (k : string) (fields : list (string * json)) : option json :=
  match fields with
  | [] => None
  | (k', v) :: rest => if String.eqb k k' then Some v else assoc k rest
  end.

(** [value.key] for a key that is not a built-in of strings or arrays:
    a TypeError on [null], the field of an object, [undefined] ([None])
    otherwise. *)
Definition get (value : json) (key : string) : completion (option json) :=
  match value with
  | JNull =>
      Throw (TypeError
               ("Cannot read properties of null (reading '" +:+ key +:+ "')"))
  | JObj fields => Return (assoc key fields)
  | _ => Return None
  end.

(** A string is truthy unless it is empty; so [s || d]. *)
Definition or_default (s : option string) (d : string) : string :=
  match s with
  | Some (String c r) => String c r
  | _ => d
  end.

End Json.

(* ===================================================================== *)
(** * The API client: src/services/api.js *)
(* ===================================================================== *)

Module Api.
Import Json.

Definition API_BASE_URL : string := "http://localhost:5000/api".

Record request : Type := {
  url : string;
  method : string;
  content_type : option string;
  payload : option json
}.

(** A settled [fetch]: [ok] and [status] of the response, and what
    [response.json()] settles with when it is awaited (a SyntaxError when
    the body is not JSON). *)
Record response : Type := {
  ok : bool;
  status : nat;
  body : completion json
}.

(** The network, as the client sees it: a request is rejected (a network
    failure) or answered. *)
Definition network : Type := request -> completion response.

Record options : Type := { quality : option string }.

Definition generateVideo_request (selectedText : string) (opts : options)
  : request :=
  {| url := API_BASE_URL +:+ "/generate-video";
     method := "POST";
     content_type := Some "application/json";
     payload := Some (JObj [("text", JStr selectedText);
                            ("quality",
                             JStr (or_default (quality opts)
                                              "medium_quality"))]) |}.

(** [generateVideo: async (selectedText, options = {}) => ...]: POST the
    text, throw on a response that is not ok, return the parsed body. The
    [catch] logs and rethrows. *)
Definition generateVideo (fetch : network) (selectedText : string)
    (opts : options) : completion json :=
  bind (fetch (generateVideo_request selectedText opts))
    (fun response =>
       if negb (ok response)
       then Throw (Error ("HTTP error! status: " +:+ pretty (status response)))
       else bind (body response) (fun data => Return data)).

Definition statusUrl (taskId : string) : string :=
  API_BASE_URL +:+ "/video-status/" +:+ taskId.

Definition checkStatus_request (taskId : string) : request :=
  {| url := statusUrl taskId; method := "GET";
     content_type := None; payload := None |}.

(** [checkStatus: async (taskId) => ...]: GET the task's status. *)
Definition checkStatus (fetch : network) (taskId : string)
  : completion json :=
  bind (fetch (checkStatus_request taskId))
    (fun response =>
       if negb (ok response)
       then Throw (Error ("HTTP error! status: " +:+ pretty (status response)
                          +:+ " for URL: " +:+ statusUrl taskId))
       else bind (body response) (fun data => Return data)).

(** The fields that [extractContent] reads from the parsed body to log
    them: [data.success], [data.latex], [data.confidence],
    [data.message]. *)
Definition log_parsed_response (data : json) : completion unit :=
  bind (get data "success") (fun _ =>
  bind (get data "latex") (fun _ =>
  bind (get data "confidence") (fun _ =>
  bind (get data "message") (fun _ => Return tt)))).

Definition extractContent_request (imageData : option string)
    (preprocessingLevel : string) : request :=
  {| url := API_BASE_URL +:+ "/extract-latex";
     method := "POST";
     content_type := Some "application/json";
     payload :=
       Some (JObj [("image_data",
                    match imageData with
                    | Some d => JStr d
                    | None => JNull
                    end);
                   ("preprocessing_level", JStr preprocessingLevel)]) |}.

(** [extractContent: async (imageData, preprocessingLevel = 'moderate')]:
    POST the image, throw on a response that is not ok, log what the parsed
    body holds and return it. The first log reads [imageData] through
    [?.] and [!!imageData &&] only, so it cannot throw for a string or a
    missing image. *)
Definition extractContent (fetch : network) (imageData : option string)
    (preprocessingLevel : string) : completion json :=
  bind (fetch (extractContent_request imageData preprocessingLevel))
    (fun response =>
       if negb (ok response)
       then Throw (Error ("HTTP error! status: " +:+ pretty (status response)))
       else bind (body response) (fun data =>
            bind (log_parsed_response data) (fun _ => Return data))).

(** The request failed: the fetch was rejected, the response was not ok, or
    its body did not parse. *)
Definition request_failed (r : completion response) : Prop :=
  match r with
  | Throw _ => True
  | Return response =>
      ok response = false \/ throws (body response)
  end.

(** The body a request that did not fail delivers. *)
Definition delivered (r : completion response) (data : json) : Prop :=
  exists response,
    r = Return response /\ ok response = true /\ body response = Return data.

(** A backend that answers every request with 200 and the body [null]. *)
Definition null_answer : network :=
  fun _ => Return {| ok := true; status := 200; body := Return JNull |}.

End Api.

(* ===================================================================== *)
(** * JavaScript strings

    A [string] holds the text of a JavaScript string as the bytes of its
    UTF-8 form, so that ASCII text takes one byte per character. What
    JavaScript counts in UTF-16 code units, [length] and [substring], is
    counted in code units here. *)
(* ===================================================================== *)

Module JsString.

(** The white space of one byte that [trim] removes: tab, line feed,
    vertical tab, form feed, carriage return and space. *)
Definition is_space (c : ascii) : bool :=
  let n := nat_of_ascii c in
  ((9 <=? n)%nat && (n <=? 13)%nat) || (n =? 32)%nat.

(** The white space of two bytes: the no-break space U+00A0, [C2 A0]. *)
Definition is_space2 (a b : ascii) : bool :=
  ((nat_of_ascii a =? 194) && (nat_of_ascii b =? 160))%nat.

(** The white space of three bytes: U+1680, [E1 9A 80]; U+2000 to U+200A,
    the line and paragraph separators U+2028 and U+2029, and U+202F,
    [E2 80] before [80] to [8A], [A8], [A9] and [AF]; U+205F, [E2 81 9F];
    U+3000, [E3 80 80]; and the byte order mark U+FEFF, [EF BB BF]. *)
Definition is_space3 (a b c : ascii) : bool :=
  let x := nat_of_ascii a in
  let y := nat_of_ascii b in
  let z := nat_of_ascii c in
  ((x =? 225) && (y =? 154) && (z =? 128)
   || (x =? 226) && (y =? 128)
      && ((128 <=? z) && (z <=? 138) || (z =? 168) || (z =? 169) || (z =? 175))
   || (x =? 226) && (y =? 129) && (z =? 159)
   || (x =? 227) && (y =? 128) && (z =? 128)
   || (x =? 239) && (y =? 187) && (z =? 191))%nat.

(** The string without the white space it begins with, [two] and [three]
    telling the white space of two and of three bytes. *)
Fixpoint skip_spaces (two : ascii -> ascii -> bool)
    (three : ascii -> ascii -> ascii -> bool) (s : string) : string :=
  match s with
  | String a r =>
      if is_space a then skip_spaces two three r
      else
        match r with
        | String b r' =>
            if two a b then skip_spaces two three r'
            else
              match r' with
              | String c r'' =>
                  if three a b c then skip_spaces two three r'' else s
              | EmptyString => s
              end
        | EmptyString => s
        end
  | EmptyString => EmptyString
  end.

(** [s.trimStart()] *)
Definition trimStart (s : string) : string :=
  skip_spaces is_space2 is_space3 s.

(** [s.trimEnd()]: the same from the end, where the bytes of a character
    come last byte first. *)
Definition trimEnd (s : string) : string :=
  String.rev
    (skip_spaces (fun b a => is_space2 a b) (fun c b a => is_space3 a b c)
       (String.rev s)).

(** [s.trim()] *)
Definition trim (s : string) : string := trimEnd (trimStart s).

(** [s.endsWith(suffix)] *)
Definition endsWith (s suffix : string) : bool :=
  String.prefix (String.rev suffix) (String.rev s).

(** The UTF-16 code units of the character that the byte [c] begins: one
    for a character of up to three bytes, two for a character of four
    bytes, and none for a byte that continues a character. *)
Definition code_units (c : ascii) : nat :=
  let n := nat_of_ascii c in
  if (n <? 128)%nat then 1%nat
  else if (n <? 192)%nat then 0%nat
  else if (n <? 240)%nat then 1%nat
  else 2%nat.

(** [s.length], in code units. *)
Fixpoint utf16_length (s : string) : nat :=
  match s with
  | EmptyString => 0%nat
  | String c r => (code_units c + utf16_length r)%nat
  end.

(** The byte at [i], 0 past the end. *)
Definition byte_at (i : nat) (s : string) : nat :=
  match String.get i s with
  | Some c => nat_of_ascii c
  | None => 0%nat
  end.

(** The first code unit of the character of four bytes that [s] begins
    with, its high surrogate [D800 + w], where [w] is the code point less
    [10000] without its low ten bits. A surrogate on its own is written as
    the three bytes [ED], [A0 + w / 64], [80 + w mod 64]. *)
Definition high_surrogate (s : string) : string :=
  let w := ((byte_at 0 s mod 8) * 256 + (byte_at 1 s mod 64) * 4
            + (byte_at 2 s mod 64) / 16 - 64)%nat in
  String (ascii_of_nat 237)
    (String (ascii_of_nat (160 + w / 64))
       (String (ascii_of_nat (128 + w mod 64)) EmptyString)).

(** [s.substring(0, n)]: the characters of the first [n] code units, each
    with the bytes that continue it. Where the cut falls between the two
    code units of a character, the first of them is left on its own. *)
Fixpoint substring0 (n : nat) (s : string) : string :=
  match s with
  | EmptyString => EmptyString
  | String c r =>
      let k := code_units c in
      if (k =? 0)%nat then String c (substring0 n r)
      else if (k <=? n)%nat then String c (substring0 (n - k) r)
      else if (n =? 0)%nat then EmptyString
      else high_surrogate s
  end.

(** The text after the last [sep], the whole string when there is none:
    [s.split(sep).pop()]. *)
Fixpoint last_segment_from (sep : ascii) (s acc : string) : string :=
  match s with
  | EmptyString => String.rev acc
  | String c r =>
      if Ascii.eqb c sep then last_segment_from sep r EmptyString
      else last_segment_from sep r (String c acc)
  end.

Definition split_pop (sep : ascii) (s : string) : string :=
  last_segment_from sep s EmptyString.

Definition hex_digit (n : nat) : ascii :=
  ascii_of_nat (if (n <? 10)%nat then 48 + n else 55 + n).

(** The characters [encodeURIComponent] leaves as they are. *)
Definition is_unreserved (c : ascii) : bool :=
  let n := nat_of_ascii c in
  ((48 <=? n) && (n <=? 57))%nat || ((65 <=? n) && (n <=? 90))%nat
  || ((97 <=? n) && (n <=? 122))%nat
  || existsb (Ascii.eqb c) (list_ascii_of_string "-_.!~*'()").

(** [encodeURIComponent(s)] *)
Fixpoint encodeURIComponent (s : string) : string :=
  match s with
  | EmptyString => EmptyString
  | String c r =>
      if is_unreserved c then String c (encodeURIComponent r)
      else
        let n := nat_of_ascii c in
        String "%" (String (hex_digit (n / 16)) (String (hex_digit (n mod 16))
          (encodeURIComponent r)))
  end.

(** A string where JavaScript tests it: the empty string is falsy, and so
    is a missing ([undefined] or [null]) one. *)
Definition truthy (s : option string) : bool :=
  match s with
  | Some (String _ _) => true
  | _ => false
  end.

(** The double quote, as a string. *)
Definition dquote : string := String (ascii_of_nat 34) EmptyString.

(** A string inside a template literal or after [+]. *)
Definition to_text (s : option string) : string :=
  match s with
  | Some t => t
  | None => "undefined"
  end.

End JsString.

(* ===================================================================== *)
(** * The viewer component: src/components/PdfViewer.jsx *)
(* ===================================================================== *)

Module Viewer.
Import JsNumber Json JsString.

Record Rect : Type := { x : number; y : number; width : number; height : number }.

(** What the OCR overlay hands to [handleOcrSelection]. *)
Record SelectionData : Type := {
  imageData : option string;
  coordinates : Rect;
  selectionRect : option Rect
}.

Record File : Type := { name : string; type : string }.

Record LoadingStats : Type := {
  startTime : option Z;
  pagesLoaded : nat;
  totalPages : nat
}.

Module PageCacheEntry.
Record t : Type := { loaded : bool; timestamp : Z; renderTime : Z }.
End PageCacheEntry.

Module ErrorInfo.
Record t : Type := {
  message : string;
  suggestions : list string;
  timestamp : option string;
  context : option string
}.
End ErrorInfo.

(** An entry of the backend's [formulas] array: a LaTeX string, or an
    object with [latex], [confidence] and [type]. *)
Inductive formula : Type :=
| FormulaString (latex : string)
| FormulaObject (latex : option string) (confidence type : option json).

Module OcrResult.
Record t : Type := {
  id : string;
  latexContent : option string;
  position : number * number;
  viewportPosition : number * number;
  coordinates : Rect;
  selectionRect : option Rect;
  confidence : option json;
  type : option json
}.
End OcrResult.

Module LatestOcrResult.
Record t : Type := {
  latex : formula;
  timestamp : string;
  confidence : option json;
  rawResult : option json
}.
End LatestOcrResult.

(** The bodies the backend answers with, as the viewer reads them. *)
Module GenerateResponse.
Record t : Type := { task_id : option string }.
End GenerateResponse.

Module StatusResponse.
Record t : Type := {
  status : option string;
  progress : option number;
  message : option string;
  video_url : option string;
  video_path : option string
}.
End StatusResponse.

Module ExplanationData.
Record t : Type := { explanation : option string; topic : option string }.
End ExplanationData.

Module OcrResponse.
Record t : Type := {
  success : bool;
  error : option string;
  formulas : option (list formula);
  latex : option string;
  confidence : option json;
  raw_result : option json
}.
End OcrResponse.

(** The component's state: one field per [useState] hook of PdfViewer.jsx
    (the pointer geometry of the text selection and of the dragged panel
    is left out: no handler below reads it). *)
Record ViewerState : Type := {
  numPages : option nat;
  scale : number;
  file : option File;
  selectedText : string;
  isLoadingPdf : bool;
  loadingProgress : Z;
  loadedPages : gset nat;
  pageCache : gmap nat PageCacheEntry.t;
  loadingMessage : string;
  isGenerating : bool;
  generationProgress : number;
  generationMessage : string;
  currentTaskId : option string;
  showVideoPlayer : bool;
  currentVideoUrl : string;
  currentVideoTitle : string;
  showExplanationViewer : bool;
  currentExplanation : option string;
  currentExplanationTitle : option string;
  backendStatus : string;
  ocrMode : bool;
  ocrResults : list OcrResult.t;
  ocrLoading : bool;
  ocrBackendStatus : string;
  showOcrPanel : bool;
  ocrPanelMinimized : bool;
  latestOcrResult : option LatestOcrResult.t;
  showVideosGallery : bool;
  videosList : list json;
  loadingVideos : bool;
  lastSelectionData : option SelectionData;
  loadingStats : LoadingStats;
  error : option ErrorInfo.t;
  warningMessage : string;
  memoryWarning : bool
}.

(** The arguments of the [useState] calls. *)
Definition initialState : ViewerState := {|
  numPages := None;
  scale := lit_1_0;
  file := None;
  selectedText := "";
  isLoadingPdf := false;
  loadingProgress := 0;
  loadedPages := ∅;
  pageCache := ∅;
  loadingMessage := "";
  isGenerating := false;
  generationProgress := of_Z 0;
  generationMessage := "";
  currentTaskId := None;
  showVideoPlayer := false;
  currentVideoUrl := "";
  currentVideoTitle := "";
  showExplanationViewer := false;
  currentExplanation := Some "";
  currentExplanationTitle := Some "";
  backendStatus := "checking";
  ocrMode := false;
  ocrResults := [];
  ocrLoading := false;
  ocrBackendStatus := "checking";
  showOcrPanel := false;
  ocrPanelMinimized := false;
  latestOcrResult := None;
  showVideosGallery := false;
  videosList := [];
  loadingVideos := false;
  lastSelectionData := None;
  loadingStats := {| startTime := None; pagesLoaded := 0; totalPages := 0 |};
  error := None;
  warningMessage := "";
  memoryWarning := false
|}.

Definition eta (s : ViewerState) : ViewerState :=
  Build_ViewerState (numPages s) (scale s) (file s) (selectedText s)
    (isLoadingPdf s) (loadingProgress s) (loadedPages s) (pageCache s)
    (loadingMessage s) (isGenerating s) (generationProgress s)
    (generationMessage s) (currentTaskId s) (showVideoPlayer s)
    (currentVideoUrl s) (currentVideoTitle s) (showExplanationViewer s)
    (currentExplanation s) (currentExplanationTitle s) (backendStatus s)
    (ocrMode s) (ocrResults s) (ocrLoading s) (ocrBackendStatus s)
    (showOcrPanel s) (ocrPanelMinimized s) (latestOcrResult s)
    (showVideosGallery s) (videosList s) (loadingVideos s)
    (lastSelectionData s) (loadingStats s) (error s) (warningMessage s)
    (memoryWarning s).

(** [setX v]: the state with field [X] replaced by [v], read off [eta]. *)
Ltac setter proj :=
  let v := fresh "v" in
  let s := fresh "s" in
  intros v s;
  let e := eval cbv delta [eta] beta in (eta s) in
  match eval pattern (proj s) in e with
  | ?f _ => let r := eval cbv beta in (f v) in exact r
  end.

Definition setNumPages : option nat -> ViewerState -> ViewerState :=
  ltac:(setter numPages).
Definition setScale : number -> ViewerState -> ViewerState :=
  ltac:(setter scale).
Definition setFile : option File -> ViewerState -> ViewerState :=
  ltac:(setter file).
Definition setSelectedText : string -> ViewerState -> ViewerState :=
  ltac:(setter selectedText).
Definition setIsLoadingPdf : bool -> ViewerState -> ViewerState :=
  ltac:(setter isLoadingPdf).
Definition setLoadingProgress : Z -> ViewerState -> ViewerState :=
  ltac:(setter loadingProgress).
Definition setLoadedPages : gset nat -> ViewerState -> ViewerState :=
  ltac:(setter loadedPages).
Definition setPageCache : gmap nat PageCacheEntry.t -> ViewerState -> ViewerState :=
  ltac:(setter pageCache).
Definition setLoadingMessage : string -> ViewerState -> ViewerState :=
  ltac:(setter loadingMessage).
Definition setIsGenerating : bool -> ViewerState -> ViewerState :=
  ltac:(setter isGenerating).
Definition setGenerationProgress : number -> ViewerState -> ViewerState :=
  ltac:(setter generationProgress).
Definition setGenerationMessage : string -> ViewerState -> ViewerState :=
  ltac:(setter generationMessage).
Definition setCurrentTaskId : option string -> ViewerState -> ViewerState :=
  ltac:(setter currentTaskId).
Definition setShowVideoPlayer : bool -> ViewerState -> ViewerState :=
  ltac:(setter showVideoPlayer).
Definition setCurrentVideoUrl : string -> ViewerState -> ViewerState :=
  ltac:(setter currentVideoUrl).
Definition setCurrentVideoTitle : string -> ViewerState -> ViewerState :=
  ltac:(setter currentVideoTitle).
Definition setShowExplanationViewer : bool -> ViewerState -> ViewerState :=
  ltac:(setter showExplanationViewer).
Definition setCurrentExplanation : option string -> ViewerState -> ViewerState :=
  ltac:(setter currentExplanation).
Definition setCurrentExplanationTitle : option string -> ViewerState -> ViewerState :=
  ltac:(setter currentExplanationTitle).
Definition setBackendStatus : string -> ViewerState -> ViewerState :=
  ltac:(setter backendStatus).
Definition setOcrMode : bool -> ViewerState -> ViewerState :=
  ltac:(setter ocrMode).
Definition setOcrResults : list OcrResult.t -> ViewerState -> ViewerState :=
  ltac:(setter ocrResults).
Definition setOcrLoading : bool -> ViewerState -> ViewerState :=
  ltac:(setter ocrLoading).
Definition setOcrBackendStatus : string -> ViewerState -> ViewerState :=
  ltac:(setter ocrBackendStatus).
Definition setShowOcrPanel : bool -> ViewerState -> ViewerState :=
  ltac:(setter showOcrPanel).
Definition setOcrPanelMinimized : bool -> ViewerState -> ViewerState :=
  ltac:(setter ocrPanelMinimized).
Definition setLatestOcrResult : option LatestOcrResult.t -> ViewerState -> ViewerState :=
  ltac:(setter latestOcrResult).
Definition setShowVideosGallery : bool -> ViewerState -> ViewerState :=
  ltac:(setter showVideosGallery).
Definition setVideosList : list json -> ViewerState -> ViewerState :=
  ltac:(setter videosList).
Definition setLoadingVideos : bool -> ViewerState -> ViewerState :=
  ltac:(setter loadingVideos).
Definition setLastSelectionData : option SelectionData -> ViewerState -> ViewerState :=
  ltac:(setter lastSelectionData).
Definition setLoadingStats : LoadingStats -> ViewerState -> ViewerState :=
  ltac:(setter loadingStats).
Definition setError : option ErrorInfo.t -> ViewerState -> ViewerState :=
  ltac:(setter error).
Definition setWarningMessage : string -> ViewerState -> ViewerState :=
  ltac:(setter warningMessage).
Definition setMemoryWarning : bool -> ViewerState -> ViewerState :=
  ltac:(setter memoryWarning).

(** Statements of a handler, run in order. *)
Definition run_all {S : Type} (steps : list (S -> S)) (s : S) : S :=
  fold_left (fun acc step => step acc) steps s.

(** ** The component's surroundings *)

(** What a [setTimeout] callback of the component does when it fires. *)
Inductive timer_action : Type :=
| CompletePreload (loadTime : Z)
| ClearLoadingMessage
| PreloadTimeout (run totalPages currentLoaded : nat)
| PollAgain (selectedText : string) (taskId : option string)
| ShowLatexVideo (video_path : string).

Record Timer : Type := { timer_id : nat; delay : N; callback : timer_action }.

(** The calls the component makes to the API client and to [fetch]. *)
Inductive api_call : Type :=
| CheckStatusCall (taskId : option string)
| GenerateVideoCall (text : string) (quality : option string)
| GenerateFromLatexCall (latex : formula)
| ExtractContentCall (imageData : string) (preprocessingLevel : string)
| ListVideosCall
| FetchCall (url : string).

(** The component in its page: the state, the refs ([pageLoadPromises],
    [pageLoadStartTime]), the pending timers, the calls made so far, and
    the parts of the browser a handler can reach. [storage] stands for
    what outlives the page: localStorage, sessionStorage, cookies,
    IndexedDB and files. *)
Record World : Type := {
  view : ViewerState;
  pageLoadPromises : gset nat;
  pageLoadStartTime : option Z;
  preloadRun : nat;
  settledRuns : gset nat;
  timers : list Timer;
  next_timer : nat;
  calls : list api_call;
  alerts : list string;
  opened : list string;
  clipboard : option string;
  storage : gmap string string
}.

Definition with_view (f : ViewerState -> ViewerState) (w : World) : World :=
  {| view := f (view w);
     pageLoadPromises := pageLoadPromises w;
     pageLoadStartTime := pageLoadStartTime w;
     preloadRun := preloadRun w; settledRuns := settledRuns w;
     timers := timers w; next_timer := next_timer w; calls := calls w;
     alerts := alerts w; opened := opened w; clipboard := clipboard w;
     storage := storage w |}.

(** The refs of a preloading run. *)
Definition with_preload (promises : gset nat) (start : option Z) (run : nat)
    (settled : gset nat) (w : World) : World :=
  {| view := view w;
     pageLoadPromises := promises; pageLoadStartTime := start;
     preloadRun := run; settledRuns := settled;
     timers := timers w; next_timer := next_timer w; calls := calls w;
     alerts := alerts w; opened := opened w; clipboard := clipboard w;
     storage := storage w |}.

Definition with_timers (ts : list Timer) (next : nat) (w : World) : World :=
  {| view := view w;
     pageLoadPromises := pageLoadPromises w;
     pageLoadStartTime := pageLoadStartTime w;
     preloadRun := preloadRun w; settledRuns := settledRuns w;
     timers := ts; next_timer := next; calls := calls w;
     alerts := alerts w; opened := opened w; clipboard := clipboard w;
     storage := storage w |}.

(** [setTimeout(callback, delay)] *)
Definition setTimeout (a : timer_action) (ms : N) (w : World) : World :=
  with_timers
    (timers w ++ [{| timer_id := next_timer w; delay := ms; callback := a |}])
    (S (next_timer w)) w.

(** A call to the API client (or to [fetch]) is started. *)
Definition call (c : api_call) (w : World) : World :=
  {| view := view w;
     pageLoadPromises := pageLoadPromises w;
     pageLoadStartTime := pageLoadStartTime w;
     preloadRun := preloadRun w; settledRuns := settledRuns w;
     timers := timers w; next_timer := next_timer w;
     calls := calls w ++ [c];
     alerts := alerts w; opened := opened w; clipboard := clipboard w;
     storage := storage w |}.

(** [alert(text)] *)
Definition alert (text : string) (w : World) : World :=
  {| view := view w;
     pageLoadPromises := pageLoadPromises w;
     pageLoadStartTime := pageLoadStartTime w;
     preloadRun := preloadRun w; settledRuns := settledRuns w;
     timers := timers w; next_timer := next_timer w; calls := calls w;
     alerts := alerts w ++ [text];
     opened := opened w; clipboard := clipboard w; storage := storage w |}.

(** [window.open(url, '_blank')] *)
Definition window_open (target : string) (w : World) : World :=
  {| view := view w;
     pageLoadPromises := pageLoadPromises w;
     pageLoadStartTime := pageLoadStartTime w;
     preloadRun := preloadRun w; settledRuns := settledRuns w;
     timers := timers w; next_timer := next_timer w; calls := calls w;
     alerts := alerts w; opened := opened w ++ [target];
     clipboard := clipboard w; storage := storage w |}.

(** [navigator.clipboard.writeText(text)] *)
Definition clipboard_writeText (text : string) (w : World) : World :=
  {| view := view w;
     pageLoadPromises := pageLoadPromises w;
     pageLoadStartTime := pageLoadStartTime w;
     preloadRun := preloadRun w; settledRuns := settledRuns w;
     timers := timers w; next_timer := next_timer w; calls := calls w;
     alerts := alerts w; opened := opened w;
     clipboard := Some text; storage := storage w |}.

(** A page that was just opened: the initial state, nothing pending, and
    whatever the browser had stored. *)
Definition mount (stored : gmap string string) : World :=
  {| view := initialState;
     pageLoadPromises := ∅; pageLoadStartTime := None;
     preloadRun := 0; settledRuns := ∅;
     timers := []; next_timer := 0; calls := [];
     alerts := []; opened := []; clipboard := None;
     storage := stored |}.

(** ** Loading a document and preloading its pages *)

(** [handleFileChange]: choosing a PDF resets the loading state; anything
    else is ignored. *)
Definition handleFileChange (selectedFile : option File) (w : World) : World :=
  match selectedFile with
  | Some f =>
      if String.eqb (type f) "application/pdf"
      then with_view
             (run_all [setIsLoadingPdf true; setLoadingProgress 0;
                       setLoadedPages ∅; setPageCache ∅;
                       setLoadingMessage "Loading PDF document...";
                       setFile (Some f)]) w
      else w
  | None => w
  end.

(** [performance.memory], in the browsers that have it. *)
Record MemoryInfo : Type := {
  usedJSHeapSize : number;
  jsHeapSizeLimit : number
}.

Definition checkMemoryUsage (memory : option MemoryInfo) (s : ViewerState)
  : ViewerState :=
  match memory with
  | Some memInfo =>
      let usedMB :=
        Math_round (div (div (usedJSHeapSize memInfo) (of_Z 1024)) (of_Z 1024)) in
      let limitMB :=
        Math_round (div (div (jsHeapSizeLimit memInfo) (of_Z 1024)) (of_Z 1024)) in
      let usage := mul (div (of_Z usedMB) (of_Z limitMB)) lit_100 in
      if ltb (of_Z 80) usage then
        run_all [setMemoryWarning true;
                 setWarningMessage
                   ("High memory usage: " +:+ toFixed1 usage +:+
                    "%. Consider reducing PDF size or page count.")] s
      else if ltb (of_Z 60) usage then
        setWarningMessage
          ("Memory usage: " +:+ toFixed1 usage +:+
           "%. Performance may be affected with large PDFs.") s
      else s
  | None => s
  end.

(** The pages [1 .. n]. *)
Definition pages_upto (n : nat) : gset nat := list_to_set (seq 1 n).

(** [preloadAllPages(totalPages)] up to its [await]: the refs and the
    loading state are reset, one promise per page is registered, and the
    45 s timeout is armed. [loadedPages.size] is read when the function is
    entered, as its closure does. With no page to wait for,
    [Promise.all([])] settles the race at once. *)
Definition preloadAllPages (total : nat) (now : Z) (w : World) : World :=
  let currentLoaded := size (loadedPages (view w)) in
  let run := S (preloadRun w) in
  run_all
    [with_view
       (run_all [setIsLoadingPdf true; setLoadingProgress 0;
                 setLoadingMessage "Initializing page rendering...";
                 setLoadingStats {| startTime := Some now; pagesLoaded := 0;
                                    totalPages := total |};
                 setLoadedPages ∅; setPageCache ∅;
                 setLoadingMessage
                   ("Rendering " +:+ pretty total +:+ " pages...")]);
     with_preload (pages_upto total) (Some now) run
       (match total with
        | O => {[run]} ∪ settledRuns w
        | S _ => settledRuns w
        end);
     setTimeout (PreloadTimeout run total currentLoaded) 45000%N] w.

(** [onDocumentLoadSuccess({ numPages })] *)
Definition onDocumentLoadSuccess (n : nat) (now : Z)
    (memory : option MemoryInfo) (w : World) : World :=
  run_all
    [with_view
       (run_all
          [setNumPages (Some n); setError None; checkMemoryUsage memory;
           (if (100 <? n)%nat
            then setWarningMessage
                   ("Large PDF detected (" +:+ pretty n +:+
                    " pages). Loading may take time and use significant memory.")
            else id);
           (if (500 <? n)%nat
            then setWarningMessage
                   ("Very large PDF (" +:+ pretty n +:+
                    " pages). Consider using " +:+ dquote +:+ "Skip & View Now"
                    +:+ dquote +:+ " for better performance.")
            else id)]);
     preloadAllPages n now] w.

(** [pageLoadStartTime.current || Date.now()] *)
Definition start_or (start : option Z) (now : Z) : Z :=
  match start with
  | Some t => if t =? 0 then now else t
  | None => now
  end.

(** [Math.round((newSet.size / numPages) * 100)] *)
Definition progress_percent (loaded total : nat) : Z :=
  Math_round (mul (div (of_Z (Z.of_nat loaded)) (of_Z (Z.of_nat total)))
                  lit_100).

(** The page's promise, when the ref map still holds its [resolve], is
    resolved and forgotten; the run's [Promise.all] settles with the last
    of them. *)
Definition resolve_page (pageNumber : nat) (w : World) : World :=
  if bool_decide (pageNumber ∈ pageLoadPromises w) then
    let rest := pageLoadPromises w ∖ {[pageNumber]} in
    with_preload rest (pageLoadStartTime w) (preloadRun w)
      (if bool_decide (rest = ∅) then {[preloadRun w]} ∪ settledRuns w
       else settledRuns w) w
  else w.

(** [handlePageLoadSuccess(pageNumber)], at time [now]. *)
Definition handlePageLoadSuccess (pageNumber : nat) (now : Z) (w : World)
  : World :=
  let s := view w in
  let newSet := {[pageNumber]} ∪ loadedPages s in
  let start := start_or (pageLoadStartTime w) now in
  let w1 :=
    match isLoadingPdf s, numPages s with
    | true, Some (S n') =>
        let n := S n' in
        let progress := progress_percent (size newSet) n in
        let w' :=
          with_view
            (run_all
               [setLoadingProgress progress;
                setLoadingMessage
                  ("Rendering pages... " +:+ pretty (size newSet) +:+ "/" +:+
                   pretty n +:+ " (" +:+ pretty progress +:+ "%)");
                setLoadingStats
                  {| startTime := startTime (loadingStats s);
                     pagesLoaded := size newSet;
                     totalPages := totalPages (loadingStats s) |}]) w in
        if (size newSet =? n)%nat
        then setTimeout (CompletePreload (now - start)) 200%N w'
        else w'
    | _, _ => w
    end in
  resolve_page pageNumber
    (with_view
       (run_all
          [setLoadedPages newSet;
           setPageCache
             (<[pageNumber := {| PageCacheEntry.loaded := true;
                                 PageCacheEntry.timestamp := now;
                                 PageCacheEntry.renderTime := now - start |}]>
                (pageCache s))]) w1).

(** The [Page] component's callbacks for page [pageNum]. *)
Definition Page_onLoadSuccess (pageNum : nat) (now : Z) : World -> World :=
  handlePageLoadSuccess pageNum now.

(** [onLoadError={(error) => { console.error(...);
    handlePageLoadSuccess(pageNum); }}] *)
Definition Page_onLoadError (pageNum : nat) (error : js_error) (now : Z)
  : World -> World :=
  handlePageLoadSuccess pageNum now.

(** The "Skip & View Now" button. *)
Definition skipPreloading (w : World) : World :=
  run_all
    [with_view
       (run_all [setIsLoadingPdf false;
                 setLoadingMessage
                   "Preloading skipped. Pages will load as needed."]);
     setTimeout ClearLoadingMessage 2000%N] w.

(** The "Cancel" button of the loading overlay. *)
Definition cancelLoading (w : World) : World :=
  with_view
    (run_all [setIsLoadingPdf false; setLoadingMessage ""; setFile None;
              setNumPages (Some 0%nat); setLoadedPages ∅]) w.

(** The callback that [handlePageLoadSuccess] schedules once every page is
    in: the success path of preloading. *)
Definition completePreload (loadTime : Z) (w : World) : World :=
  run_all
    [with_view
       (run_all
          [setIsLoadingPdf false;
           setLoadingMessage
             ("All pages ready! (" +:+
              toFixed1 (div (of_Z loadTime) (of_Z 1000)) +:+ "s total)")]);
     setTimeout ClearLoadingMessage 2500%N] w.

(** The 45 s timeout of a run: without effect once the run's race has
    settled, and otherwise the [catch] of [preloadAllPages]. *)
Definition preloadTimeout (run total currentLoaded : nat) (w : World) : World :=
  if bool_decide (run ∈ settledRuns w) then w
  else
    run_all
      [with_preload (pageLoadPromises w) (pageLoadStartTime w)
         (preloadRun w) ({[run]} ∪ settledRuns w);
       with_view
         (run_all
            [setIsLoadingPdf false;
             setLoadingMessage
               ("Loaded " +:+ pretty currentLoaded +:+ "/" +:+ pretty total
                +:+ " pages. Others will load as needed.")]);
       setTimeout ClearLoadingMessage 4000%N] w.

(** ** Zoom *)

Definition zoomIn (w : World) : World :=
  with_view (fun s => setScale (Zoom.zoomIn (scale s)) s) w.

Definition zoomOut (w : World) : World :=
  with_view (fun s => setScale (Zoom.zoomOut (scale s)) s) w.

(** ** Generating a video and polling for it *)

(** [status.progress || 0]: zero and NaN are falsy. *)
Definition number_or (x : option number) (d : number) : number :=
  match x with
  | Some (S754_finite sg m e) => S754_finite sg m e
  | Some (S754_infinity sg) => S754_infinity sg
  | _ => d
  end.

(** [s === text] for a field that is a string when it is there. *)
Definition is_text (s : option string) (text : string) : bool :=
  match s with
  | Some t => String.eqb t text
  | None => false
  end.

(** [s && s.endsWith(suffix)] *)
Definition ends_in (s : option string) (suffix : string) : bool :=
  truthy s && endsWith (to_text s) suffix.

(** [selectedText.substring(0, 50) + (selectedText.length > 50 ? '...' : '')] *)
Definition video_title (text : string) : string :=
  substring0 50 text +:+ (if (50 <? utf16_length text)%nat then "..." else "").

(** [status.video_url ? status.video_url
     : `/api/videos/${encodeURIComponent(status.video_path.split('/').pop())}`] *)
Definition pathPart (status : StatusResponse.t) : string :=
  if truthy (StatusResponse.video_url status)
  then to_text (StatusResponse.video_url status)
  else "/api/videos/" +:+
       encodeURIComponent
         (split_pop "/" (to_text (StatusResponse.video_path status))).

(** [handleVisualize(options)] up to its [await]: nothing without a
    selection, otherwise the modal opens and [generateVideo] is called. *)
Definition handleVisualize (quality : option string) (w : World) : World :=
  let text := selectedText (view w) in
  if String.eqb (trim text) "" then w
  else
    run_all
      [with_view
         (run_all [setIsGenerating true; setGenerationProgress (of_Z 0);
                   setGenerationMessage "Initializing video generation..."]);
       call (GenerateVideoCall text quality)] w.

(** [pollGenerationStatus(taskId)] up to its [await]: one status check is
    issued. [text] is the [selectedText] of the closure the polling
    started in. *)
Definition pollGenerationStatus (text : string) (taskId : option string)
    (w : World) : World :=
  call (CheckStatusCall taskId) w.

(** [handleVisualize] after [generateVideo] has settled. *)
Definition handleVisualize_settled (text : string)
    (outcome : completion GenerateResponse.t) (w : World) : World :=
  match outcome with
  | Return response =>
      run_all
        [with_view (setCurrentTaskId (GenerateResponse.task_id response));
         pollGenerationStatus text (GenerateResponse.task_id response)] w
  | Throw _ =>
      run_all
        [with_view
           (run_all [setIsGenerating false;
                     setGenerationMessage "Failed to start video generation"]);
         alert "Failed to start video generation. Please make sure the backend is running."]
        w
  end.

(** What [pollGenerationStatus] does with a status of ['completed'] that
    names a file. [fetchJson] is the network answering the request for an
    explanation file. *)
Definition showCompleted (text : string) (status : StatusResponse.t)
    (fetchJson : string -> completion ExplanationData.t) (w : World) : World :=
  let location := "http://localhost:5000" +:+ pathPart status in
  let shown :=
    if ends_in (StatusResponse.video_url status) ".mp4"
       || ends_in (StatusResponse.video_path status) ".mp4"
    then
      with_view
        (run_all [setCurrentVideoUrl location;
                  setCurrentVideoTitle (video_title text);
                  setShowVideoPlayer true]) w
    else if ends_in (StatusResponse.video_path status) ".json" then
      match fetchJson location with
      | Return explanationData =>
          with_view
            (run_all
               [setCurrentExplanation
                  (ExplanationData.explanation explanationData);
                setCurrentExplanationTitle
                  (ExplanationData.topic explanationData);
                setShowExplanationViewer true])
            (call (FetchCall location) w)
      | Throw _ => alert "Error loading explanation" (call (FetchCall location) w)
      end
    else w in
  with_view (setSelectedText "") shown.

(** [pollGenerationStatus(taskId)] after [checkStatus] has settled. *)
Definition pollGenerationStatus_settled (text : string)
    (taskId : option string) (outcome : completion StatusResponse.t)
    (fetchJson : string -> completion ExplanationData.t) (w : World) : World :=
  match outcome with
  | Throw _ =>
      run_all [with_view (setIsGenerating false);
               alert "Error checking generation status"] w
  | Return status =>
      let w1 :=
        with_view
          (run_all
             [setGenerationProgress
                (number_or (StatusResponse.progress status) (of_Z 0));
              setGenerationMessage
                (or_default (StatusResponse.message status) "Processing...")])
          w in
      if is_text (StatusResponse.status status) "completed"
         && (truthy (StatusResponse.video_url status)
             || truthy (StatusResponse.video_path status))
      then showCompleted text status fetchJson
             (with_view (setIsGenerating false) w1)
      else if is_text (StatusResponse.status status) "failed" then
        run_all [with_view (setIsGenerating false);
                 alert ("Generation failed: " +:+
                        to_text (StatusResponse.message status))] w1
      else if is_text (StatusResponse.status status) "generating" then
        setTimeout (PollAgain text taskId) 2000%N w1
      else
        run_all [with_view (setIsGenerating false);
                 alert "Unknown error occurred during generation"] w1
  end.

(** [handleCancelGeneration], the loading modal's [onCancel]. *)
Definition handleCancelGeneration (w : World) : World :=
  with_view
    (run_all [setIsGenerating false; setCurrentTaskId None;
              setGenerationProgress (of_Z 0); setGenerationMessage ""]) w.

(** ** OCR *)

(** [toggleOcrMode]: leaving OCR mode clears the results. *)
Definition toggleOcrMode (w : World) : World :=
  let s := view w in
  with_view
    (run_all
       (setOcrMode (negb (ocrMode s))
        :: (if ocrMode s then [setOcrResults []; setLastSelectionData None]
            else []))) w.

(** What the page supplies while [performOcrExtraction] runs: [Date.now()]
    as read for the formula at each index, the container's
    [getBoundingClientRect()] (left, top) when the ref is set, and
    [new Date().toLocaleTimeString()]. *)
Record OcrEnv : Type := {
  clock : nat -> N;
  containerRect : option (number * number);
  timeString : string
}.

(** [results.formulas && results.formulas.length > 0] *)
Definition hasFormulas (results : OcrResponse.t) : bool :=
  match OcrResponse.formulas results with
  | Some (_ :: _) => true
  | _ => false
  end.

(** [results.latex && results.latex.trim().length > 0] *)
Definition hasLatex (results : OcrResponse.t) : bool :=
  match OcrResponse.latex results with
  | Some l => truthy (Some l) && (0 <? utf16_length (trim l))%nat
  | None => false
  end.

(** [hasFormulas ? results.formulas : (hasLatex ? [results.latex] : [])] *)
Definition formulasArray (results : OcrResponse.t) : list formula :=
  if hasFormulas results then default [] (OcrResponse.formulas results)
  else if hasLatex results
       then [FormulaString (to_text (OcrResponse.latex results))]
       else [].

(** [formulasArray[0]?.substring(0, 100) || '(empty)'], evaluated for the
    success log: [?.] guards a missing entry only, so an entry that is an
    object, which has no [substring], makes the call throw. *)
Definition log_first_formula (first : formula) : completion string :=
  match first with
  | FormulaString l => Return (or_default (Some (substring0 100 l)) "(empty)")
  | FormulaObject _ _ _ =>
      Throw (TypeError "formulasArray[0]?.substring is not a function")
  end.

Definition zero_rect : Rect :=
  {| x := of_Z 0; y := of_Z 0; width := of_Z 0; height := of_Z 0 |}.

(** The result object built for the formula at [index]. *)
Definition ocr_result (selectionData : SelectionData) (env : OcrEnv)
    (index : nat) (f : formula) : OcrResult.t :=
  let containerLeftTop := default (of_Z 0, of_Z 0) (containerRect env) in
  let sel := default zero_rect (selectionRect selectionData) in
  let centerX := add (sub (x sel) (fst containerLeftTop))
                     (div (width sel) (of_Z 2)) in
  let centerY := add (sub (y sel) (snd containerLeftTop))
                     (div (height sel) (of_Z 2)) in
  let offset := mul (of_Z (Z.of_nat index)) (of_Z 20) in
  {| OcrResult.id :=
       "ocr-" +:+ pretty (clock env index) +:+ "-" +:+ pretty index;
     OcrResult.latexContent :=
       match f with
       | FormulaString l => Some l
       | FormulaObject l _ _ => l
       end;
     OcrResult.position := (add centerX offset, add centerY offset);
     OcrResult.viewportPosition :=
       (add (x sel) (div (width sel) (of_Z 2)),
        add (y sel) (div (height sel) (of_Z 2)));
     OcrResult.coordinates := coordinates selectionData;
     OcrResult.selectionRect := selectionRect selectionData;
     OcrResult.confidence :=
       match f with
       | FormulaString _ => None
       | FormulaObject _ c _ => c
       end;
     OcrResult.type :=
       match f with
       | FormulaString _ => None
       | FormulaObject _ _ t => t
       end |}.

(** [formulasArray.map((formula, index) => ({ ... }))] *)
Definition newOcrResults (selectionData : SelectionData) (env : OcrEnv)
    (fs : list formula) : list OcrResult.t :=
  imap (ocr_result selectionData env) fs.

Definition ocr_error (title : string) (hints : list string) : ErrorInfo.t :=
  {| ErrorInfo.message := title; ErrorInfo.suggestions := hints;
     ErrorInfo.timestamp := None; ErrorInfo.context := None |}.

Definition error_message (e : js_error) : string :=
  match e with
  | TypeError m | SyntaxError m | Error m => m
  end.

(** The [try] block of [performOcrExtraction] from the response on: the
    state updates it makes, or the error it throws before making any. *)
Definition ocr_try (selectionData : SelectionData) (env : OcrEnv)
    (results : OcrResponse.t) : completion (ViewerState -> ViewerState) :=
  if negb (OcrResponse.success results) then
    Return
      (run_all
         [setError
            (Some (ocr_error "OCR Extraction Failed"
                     [or_default (OcrResponse.error results)
                                 "Unknown error occurred";
                      "Try selecting a clearer area";
                      "Ensure the image contains mathematical content"]));
          setOcrLoading false])
  else if negb (hasFormulas results) && negb (hasLatex results) then
    Return
      (run_all
         [setError
            (Some (ocr_error "No Mathematical Content Detected"
                     ["The selected area may not contain clear mathematical notation";
                      "Try selecting a different area with equations or formulas";
                      "Ensure the image is not too blurry or small"]));
          setOcrLoading false])
  else
    match formulasArray results with
    | [] => Return id
    | first :: rest =>
        bind (log_first_formula first) (fun _ =>
          Return
            (run_all
               [(fun s =>
                   setOcrResults
                     (ocrResults s ++
                      newOcrResults selectionData env (first :: rest)) s);
                setLatestOcrResult
                  (Some {| LatestOcrResult.latex := first;
                           LatestOcrResult.timestamp := timeString env;
                           LatestOcrResult.confidence :=
                             OcrResponse.confidence results;
                           LatestOcrResult.rawResult :=
                             OcrResponse.raw_result results |});
                setShowOcrPanel true;
                setOcrPanelMinimized false]))
    end.

(** [performOcrExtraction(selectionData, preprocessingLevel)] up to its
    [await]: nothing without image data; otherwise the overlay closes, the
    spinner shows and [extractContent] is called. *)
Definition performOcrExtraction (selectionData : SelectionData)
    (preprocessingLevel : string) (w : World) : World :=
  if negb (truthy (imageData selectionData)) then w
  else
    run_all
      [with_view (run_all [setOcrMode false; setOcrLoading true]);
       call (ExtractContentCall (to_text (imageData selectionData))
               preprocessingLevel)] w.

(** [performOcrExtraction] after [extractContent] has settled: the [try]
    block, its [catch], and the [finally]. *)
Definition performOcrExtraction_settled (selectionData : SelectionData)
    (env : OcrEnv) (outcome : completion OcrResponse.t) (w : World) : World :=
  with_view
    (fun s =>
       setOcrLoading false
         (match bind outcome (ocr_try selectionData env) with
          | Return updates => updates s
          | Throw e =>
              setError
                (Some (ocr_error "OCR Processing Error"
                         [or_default (Some (error_message e))
                                     "Failed to communicate with OCR service";
                          "Check that the backend is running";
                          "Try again with a different selection"])) s
          end)) w.

(** [handleOcrSelection(selectionData)], the overlay's [onSelection], up
    to the [await] inside [performOcrExtraction]. *)
Definition handleOcrSelection (selection : option SelectionData) (w : World)
  : World :=
  match selection with
  | Some selectionData =>
      if truthy (imageData selectionData) then
        performOcrExtraction selectionData "moderate"
          (with_view (setLastSelectionData (Some selectionData)) w)
      else
        alert "Failed to capture selection. Please try selecting a larger area." w
  | None =>
      alert "Failed to capture selection. Please try selecting a larger area." w
  end.

(** [handleRemoveOcrButton(ocrId)] *)
Definition handleRemoveOcrButton (ocrId : string) (w : World) : World :=
  with_view
    (fun s =>
       setOcrResults
         (filter (fun result => OcrResult.id result ≠ ocrId) (ocrResults s)) s)
    w.

(** ** The OCR panel, the gallery and the remaining buttons *)

(** The body of [/generate-from-latex], as the panel reads it. *)
Record LatexResult : Type := {
  latex_success : bool;
  latex_task_id : option string;
  scene_name : option string;
  latex_video_path : string;
  latex_error : option string
}.

(** The panel's "Visualize" button up to its [await]. *)
Definition visualizeLatex (w : World) : World :=
  match latestOcrResult (view w) with
  | Some latest =>
      run_all
        [with_view
           (run_all [setIsGenerating true; setGenerationProgress (of_Z 0);
                     setGenerationMessage
                       "Generating Manim animation from LaTeX..."]);
         call (GenerateFromLatexCall (LatestOcrResult.latex latest))] w
  | None => w
  end.

Definition generation_failed (reason : option string) (w : World) : World :=
  with_view
    (run_all
       [setError
          (Some (ocr_error "Video Generation Failed"
                   [or_default reason "Unknown error";
                    "Check that the backend is running";
                    "Verify the LaTeX syntax is correct"]));
        setIsGenerating false]) w.

(** The "Visualize" button after [generateFromLatex] has settled. *)
Definition visualizeLatex_settled (outcome : completion LatexResult)
    (w : World) : World :=
  match outcome with
  | Return result =>
      if latex_success result then
        run_all
          [with_view
             (run_all
                [setCurrentTaskId
                   (if truthy (latex_task_id result) then latex_task_id result
                    else scene_name result);
                 setGenerationMessage "Video generated successfully!";
                 setGenerationProgress lit_100]);
           setTimeout (ShowLatexVideo (latex_video_path result)) 500%N] w
      else
        generation_failed
          (Some (or_default (latex_error result) "Video generation failed")) w
  | Throw e => generation_failed (Some (error_message e)) w
  end.

(** The text after the last slash or backslash:
    [video_path.split(/[\\/]/).pop()]. *)
Definition file_name (path : string) : string :=
  split_pop "/" (split_pop "\" path).

(** The callback the "Visualize" button schedules. *)
Definition showLatexVideo (video_path : string) (w : World) : World :=
  let videoUrl :=
    if String.prefix "http" video_path then video_path
    else "http://localhost:5000" +:+
         (if String.prefix "/" video_path then video_path
          else "/api/videos/" +:+ encodeURIComponent (file_name video_path)) in
  with_view
    (run_all [setIsGenerating false; setCurrentVideoUrl videoUrl;
              setCurrentVideoTitle "LaTeX Visualization";
              setShowVideoPlayer true]) w.

(** The "Copy" button. *)
Definition copyLatex (w : World) : World :=
  match latestOcrResult (view w) with
  | Some {| LatestOcrResult.latex := FormulaString l |} =>
      clipboard_writeText l w
  | Some {| LatestOcrResult.latex := FormulaObject _ _ _ |} =>
      clipboard_writeText "[object Object]" w
  | None => w
  end.

(** The toolbar's [onShowVideos] up to its [await], and after
    [listVideos] has settled with [success] and [videos]. *)
Definition showVideos (w : World) : World :=
  run_all [with_view (run_all [setLoadingVideos true; setShowVideosGallery true]);
           call ListVideosCall] w.

Definition showVideos_settled (outcome : completion (bool * list json))
    (w : World) : World :=
  with_view
    (fun s =>
       setLoadingVideos false
         (match outcome with
          | Return (true, videos) => setVideosList videos s
          | _ => s
          end)) w.

(** A card of the gallery is clicked, and its "Download" link. *)
Definition openGalleryVideo (path filename : string) (w : World) : World :=
  with_view
    (run_all [setCurrentVideoUrl ("http://localhost:5000" +:+ path);
              setCurrentVideoTitle filename; setShowVideoPlayer true;
              setShowVideosGallery false]) w.

Definition downloadGalleryVideo (path : string) (w : World) : World :=
  window_open ("http://localhost:5000" +:+ path) w.

(** The health checks made when the component mounts; [manim] and [ocr]
    are the flags of a healthy backend that lists its services. *)
Definition checkBackend (manim : option bool) (w : World) : World :=
  with_view
    (setBackendStatus
       (match manim with Some true => "ready" | _ => "error" end)) w.

Definition checkOcrBackend (ocr : option bool) (w : World) : World :=
  with_view
    (setOcrBackendStatus
       (match ocr with Some true => "ready" | _ => "error" end)) w.

(** The buttons that only close or dismiss something. *)
Inductive button : Type :=
| TryAnotherFile | DismissError | DismissWarning | DismissMemoryWarning
| TogglePanelMinimized | ClosePanel | CloseVideoPlayer
| CloseExplanationViewer | CloseGallery.

Definition click (b : button) (w : World) : World :=
  with_view
    (match b with
     | TryAnotherFile =>
         run_all [setError None; setFile None; setNumPages (Some 0%nat)]
     | DismissError => setError None
     | DismissWarning => setWarningMessage ""
     | DismissMemoryWarning => setMemoryWarning false
     | TogglePanelMinimized =>
         fun s => setOcrPanelMinimized (negb (ocrPanelMinimized s)) s
     | ClosePanel => setShowOcrPanel false
     | CloseVideoPlayer => setShowVideoPlayer false
     | CloseExplanationViewer => setShowExplanationViewer false
     | CloseGallery => setShowVideosGallery false
     end) w.

(** ** Events *)

(** A timer fires: its callback runs. *)
Definition fire (a : timer_action) (w : World) : World :=
  match a with
  | CompletePreload loadTime => completePreload loadTime w
  | ClearLoadingMessage => with_view (setLoadingMessage "") w
  | PreloadTimeout run total currentLoaded =>
      preloadTimeout run total currentLoaded w
  | PollAgain text taskId => pollGenerationStatus text taskId w
  | ShowLatexVideo video_path => showLatexVideo video_path w
  end.

Definition timerFired (id : nat) (w : World) : World :=
  match filter (fun t => timer_id t = id) (timers w) with
  | t :: _ =>
      fire (callback t)
        (with_timers (filter (fun t' => timer_id t' ≠ id) (timers w))
           (next_timer w) w)
  | [] => w
  end.

(** What can happen to the mounted component: a callback of a child
    component, a click, a timer, or the settling of an awaited call, which
    carries what its closure holds. *)
Inductive event : Type :=
| FileChosen (selectedFile : option File)
| DocumentLoaded (numPages : nat) (now : Z) (memory : option MemoryInfo)
| PageRendered (pageNum : nat) (now : Z)
| PageFailed (pageNum : nat) (error : js_error) (now : Z)
| SkipClicked
| CancelLoadingClicked
| ZoomInClicked
| ZoomOutClicked
| VisualizeClicked (quality : option string)
| GenerateSettled (text : string) (outcome : completion GenerateResponse.t)
| StatusSettled (text : string) (taskId : option string)
    (outcome : completion StatusResponse.t)
    (fetchJson : string -> completion ExplanationData.t)
| CancelGenerationClicked
| OcrToggled
| OcrSelected (selection : option SelectionData)
| OcrSettled (selectionData : SelectionData) (env : OcrEnv)
    (outcome : completion OcrResponse.t)
| OcrButtonRemoved (ocrId : string)
| PanelVisualizeClicked
| LatexSettled (outcome : completion LatexResult)
| CopyClicked
| ShowVideosClicked
| VideosSettled (outcome : completion (bool * list json))
| GalleryVideoClicked (path filename : string)
| GalleryDownloadClicked (path : string)
| BackendChecked (manim : option bool)
| OcrBackendChecked (ocr : option bool)
| Clicked (b : button)
| TimerFired (id : nat).

Definition step (e : event) (w : World) : World :=
  match e with
  | FileChosen selectedFile => handleFileChange selectedFile w
  | DocumentLoaded n now memory => onDocumentLoadSuccess n now memory w
  | PageRendered pageNum now => Page_onLoadSuccess pageNum now w
  | PageFailed pageNum error now => Page_onLoadError pageNum error now w
  | SkipClicked => skipPreloading w
  | CancelLoadingClicked => cancelLoading w
  | ZoomInClicked => zoomIn w
  | ZoomOutClicked => zoomOut w
  | VisualizeClicked quality => handleVisualize quality w
  | GenerateSettled text outcome => handleVisualize_settled text outcome w
  | StatusSettled text taskId outcome fetchJson =>
      pollGenerationStatus_settled text taskId outcome fetchJson w
  | CancelGenerationClicked => handleCancelGeneration w
  | OcrToggled => toggleOcrMode w
  | OcrSelected selection => handleOcrSelection selection w
  | OcrSettled selectionData env outcome =>
      performOcrExtraction_settled selectionData env outcome w
  | OcrButtonRemoved ocrId => handleRemoveOcrButton ocrId w
  | PanelVisualizeClicked => visualizeLatex w
  | LatexSettled outcome => visualizeLatex_settled outcome w
  | CopyClicked => copyLatex w
  | ShowVideosClicked => showVideos w
  | VideosSettled outcome => showVideos_settled outcome w
  | GalleryVideoClicked path filename => openGalleryVideo path filename w
  | GalleryDownloadClicked path => downloadGalleryVideo path w
  | BackendChecked manim => checkBackend manim w
  | OcrBackendChecked ocr => checkOcrBackend ocr w
  | Clicked b => click b w
  | TimerFired id => timerFired id w
  end.

(** The component after a sequence of events, oldest first. *)
Definition run (events : list event) (w : World) : World :=
  fold_left (fun acc e => step e acc) events w.

End Viewer.

(* ===================================================================== *)
(** * Preloading runs *)
(* ===================================================================== *)

Module Preload.
Import JsNumber Json JsString Viewer.

(** A render notification of a page of an [n]-page document: the [Page]
    component reports success or failure for a page in [1 .. n]. *)
Definition notification_for (n : nat) (e : event) : Prop :=
  match e with
  | PageRendered p _ | PageFailed p _ _ => (1 <= p <= n)%nat
  | _ => False
  end.

Definition is_completion (a : timer_action) : Prop :=
  exists loadTime, a = CompletePreload loadTime.

(** The success path is on its way: a completion callback is pending. *)
Definition completion_pending (w : World) : Prop :=
  exists t, t ∈ timers w /\ is_completion (callback t).

(** Timer ids are handed out in order, each once. *)
Definition timers_wf (w : World) : Prop :=
  NoDup (map timer_id (timers w))
  /\ forall t, t ∈ timers w -> (timer_id t < next_timer w)%nat.

(** The message of the success path. *)
Definition all_pages_ready (loadTime : Z) : string :=
  "All pages ready! (" +:+ toFixed1 (div (of_Z loadTime) (of_Z 1000))
  +:+ "s total)".

(** The message while pages come in. *)
Definition rendering_message (loaded total : nat) : string :=
  "Rendering pages... " +:+ pretty loaded +:+ "/" +:+ pretty total +:+ " ("
  +:+ pretty (progress_percent loaded total) +:+ "%)".

(** What a preloading run of an [n]-page document can reach from [w0]
    when nothing interferes: pages report in, and the callbacks of the
    success path fire. The 45 s timeout, Skip and Cancel are no part of
    it. *)
Inductive preloading (n : nat) (w0 : World) : World -> Prop :=
| preloading_start : preloading n w0 w0
| preloading_notify w e :
    preloading n w0 w -> notification_for n e ->
    preloading n w0 (step e w)
| preloading_timer w t :
    preloading n w0 w -> t ∈ timers w ->
    is_completion (callback t) \/ callback t = ClearLoadingMessage ->
    preloading n w0 (step (TimerFired (timer_id t)) w).

(** What holds all along a preloading run of an [n]-page document: the
    page count is known, every loaded page is one of the document's, the
    overlay stays up and no completion is pending while a page is
    missing, and a completion is pending once none is. *)
Definition preload_inv (n : nat) (w : World) : Prop :=
  numPages (view w) = Some n
  /\ timers_wf w
  /\ loadedPages (view w) ⊆ pages_upto n
  /\ ((size (loadedPages (view w)) < n)%nat ->
      isLoadingPdf (view w) = true /\ ~ completion_pending w)
  /\ (size (loadedPages (view w)) = n -> isLoadingPdf (view w) = true ->
      completion_pending w).

(** The first document of a session: a PDF is chosen in a fresh page. *)
Definition pdf_chosen : World :=
  handleFileChange (Some {| name := "notes.pdf"; type := "application/pdf" |})
    (mount ∅).

(** A document of one page has rendered, so that its completion callback
    is 200 ms away, when a second document is chosen. *)
Definition second_pdf_chosen : World :=
  run [PageRendered 1 1100;
       FileChosen (Some {| name := "more.pdf"; type := "application/pdf" |})]
    (onDocumentLoadSuccess 1 1000 None pdf_chosen).

(** The worlds after each event of a sequence, oldest first. *)
Fixpoint states (events : list event) (w : World) : list World :=
  match events with
  | [] => []
  | e :: rest => step e w :: states rest (step e w)
  end.

(** [Math.round(100 * loaded / total)], as the words of the specification
    have it: the product first, then the quotient. *)
Definition percent_product_first (loaded total : nat) : Z :=
  Math_round (div (mul lit_100 (of_Z (Z.of_nat loaded)))
                  (of_Z (Z.of_nat total))).

(** The first [k] pages report in, in order, one millisecond apart. *)
Definition pages_report (k : nat) : list event :=
  map (fun p => PageRendered p (Z.of_nat p)) (seq 1 k).

(** The gate of [handlePageLoadSuccess] is open for an [n]-page document
    and every page recorded is one of the document's. *)
Definition gate_open (n : nat) (w : World) : Prop :=
  isLoadingPdf (view w) = true
  /\ numPages (view w) = Some n
  /\ loadedPages (view w) ⊆ pages_upto n.

(** The overlay shows what [handlePageLoadSuccess] computes from the set of
    loaded pages: the quotient first, then the product, then the
    rounding. *)
Definition shows_progress (n : nat) (w : World) : Prop :=
  let loaded := size (loadedPages (view w)) in
  loadingProgress (view w) = progress_percent loaded n
  /\ loadingMessage (view w) = rendering_message loaded n
  /\ 0 <= loadingProgress (view w) <= 100.

End Preload.

(* ===================================================================== *)
(** * Polling: the cases of a status response *)
(* ===================================================================== *)

Module Polling.
Import JsNumber Json JsString Viewer.

(** The branch of [pollGenerationStatus] a status response takes. *)
Inductive poll_case : Type := Completed | Failed | Generating | Unknown.

Definition classify (status : StatusResponse.t) : poll_case :=
  if is_text (StatusResponse.status status) "completed"
     && (truthy (StatusResponse.video_url status)
         || truthy (StatusResponse.video_path status))
  then Completed
  else if is_text (StatusResponse.status status) "failed" then Failed
  else if is_text (StatusResponse.status status) "generating" then Generating
  else Unknown.




Definition status_of (state : string) (video_url video_path : option string)
  : StatusResponse.t :=
  {| StatusResponse.status := Some state;
     StatusResponse.progress := None;
     StatusResponse.message := None;
     StatusResponse.video_url := video_url;
     StatusResponse.video_path := video_path |}.

(** A network on which the explanation file cannot be fetched. *)
Definition unreachable (location : string) : completion ExplanationData.t :=
  Throw (TypeError "Failed to fetch").


(** A formula is selected in a fresh page. *)
Definition formula_selected : World :=
  with_view (setSelectedText "x^2 + y^2 = r^2") (mount ∅).



End Polling.

(* ===================================================================== *)
(** * OCR: failed and successful extractions *)
(* ===================================================================== *)

Module Ocr.
Import JsNumber Json JsString Viewer.

(** The extraction failed, in the words of the specification. *)
Definition extraction_failed (outcome : completion OcrResponse.t) : Prop :=
  match outcome with
  | Throw _ => True
  | Return results =>
      OcrResponse.success results = false
      \/ ((OcrResponse.formulas results = None
           \/ OcrResponse.formulas results = Some [])
          /\ (OcrResponse.latex results = None
              \/ OcrResponse.latex results = Some ""))
  end.

Definition has_message_and_suggestions (e : option ErrorInfo.t) : Prop :=
  exists info, e = Some info /\ ErrorInfo.message info <> ""
               /\ ErrorInfo.suggestions info <> [].

Fixpoint has_dash (s : string) : bool :=
  match s with
  | EmptyString => false
  | String c r => Ascii.eqb c "-" || has_dash r
  end.

(** A selection of the overlay, and a page that supplies a running clock. *)
Definition sample_selection : SelectionData :=
  {| imageData := Some "data:image/png;base64,iVBORw0KGgo=";
     coordinates := {| x := of_Z 40; y := of_Z 60;
                       width := of_Z 200; height := of_Z 80 |};
     selectionRect := Some {| x := of_Z 140; y := of_Z 260;
                              width := of_Z 200; height := of_Z 80 |} |}.

Definition sample_env : OcrEnv :=
  {| clock := fun index => (1700000000000 + N.of_nat index)%N;
     containerRect := Some (of_Z 100, of_Z 200);
     timeString := "10:15:00 AM" |}.

(** A successful response whose only formula is an object, the shape that
    [newOcrResults] reads [latex], [confidence] and [type] from. *)
Definition object_formula_response : OcrResponse.t :=
  {| OcrResponse.success := true;
     OcrResponse.error := None;
     OcrResponse.formulas :=
       Some [FormulaObject (Some "x^2") (Some (JNum (of_Z 1)))
                           (Some (JStr "inline"))];
     OcrResponse.latex := None;
     OcrResponse.confidence := None;
     OcrResponse.raw_result := None |}.

(** The page with OCR mode on, before any extraction. *)
Definition ocr_mode_on : World := toggleOcrMode (mount ∅).

End Ocr.

(* ===================================================================== *)
(** * binary64 rounding, in rational numbers *)
(* ===================================================================== *)

Module Binary64.
Import JsNumber.

(** Two to the power [e], [e] of either sign. *)
Definition pow2 (e : Z) : Q := (2 ^ e)%Q.

(** [rho] lies in [[m, m + 1)] at the place [l] says: on [m], below the
    middle, on it, or above it. *)
Definition located (rho : Q) (m : Z) (l : location) : Prop :=
  match l with
  | loc_Exact => (rho == inject_Z m)%Q
  | loc_Inexact Lt => (inject_Z m < rho /\ rho < inject_Z m + (1#2))%Q
  | loc_Inexact Eq => (rho == inject_Z m + (1#2))%Q
  | loc_Inexact Gt => (inject_Z m + (1#2) < rho /\ rho < inject_Z m + 1)%Q
  end.

(** [mrs'] is [mrs] shifted right by [n] bits, [rho] being the number that
    [mrs] locates. *)
Definition shifted (n : Z) (rho : Q) (mrs mrs' : shr_record) : Prop :=
  0 <= shr_m mrs'
  /\ shr_m mrs' = shr_m mrs / 2 ^ n
  /\ located (rho / pow2 n) (shr_m mrs') (loc_of_shr_record mrs').

(** [v] is [r] rounded to nearest, ties to even, at 53 bits. *)
Definition rounds_to (r v : Q) : Prop :=
  exists E m l,
    2 ^ 52 <= m < 2 ^ 53
    /\ located (r / pow2 E) m l
    /\ (v == inject_Z (round_nearest_even m l) * pow2 E)%Q.

(** The number a float stands for (zero for NaN and the infinities). *)
Definition value (x : spec_float) : Q :=
  match x with
  | S754_finite s m e =>
      (inject_Z (if s then Z.neg m else Z.pos m) * pow2 e)%Q
  | _ => 0%Q
  end.

(** A positive float with a full 53-bit mantissa. *)
Definition normal (x : spec_float) (lo hi : Z) : Prop :=
  exists m e, x = S754_finite false m e
              /\ 2 ^ 52 <= Z.pos m < 2 ^ 53 /\ lo <= e <= hi.

End Binary64.

(* ===================================================================== *)
(** * The rest of the API client: src/services/api.js *)
(* ===================================================================== *)

Module ApiRest.
Import JsNumber Json JsString Api Viewer.

(** A JSON value where JavaScript tests it: [null], [false], [0], [NaN]
    and the empty string are falsy. *)
Definition json_truthy (v : json) : bool :=
  match v with
  | JNull => false
  | JBool b => b
  | JNum (S754_zero _) | JNum S754_nan => false
  | JNum _ => true
  | JStr s => truthy (Some s)
  | JArr _ | JObj _ => true
  end.

(** A property that was read: [undefined] is falsy. *)
Definition truthy_field (v : option json) : bool :=
  match v with
  | Some j => json_truthy j
  | None => false
  end.

Section ToString.

(** [Number.prototype.toString], which the functions below only pass
    on. *)
Variable number_text : number -> string.

(** [String(v)] for a JSON value: an array joins its elements with commas,
    [null] among them counting as empty, and an object prints as
    [[object Object]]. *)
Fixpoint to_String (v : json) : string :=
  match v with
  | JNull => "null"
  | JBool true => "true"
  | JBool false => "false"
  | JNum x => number_text x
  | JStr s => s
  | JArr items =>
      (fix join (l : list json) : string :=
         match l with
         | [] => ""
         | e :: rest =>
             (match e with JNull => "" | _ => to_String e end)
             +:+ (match rest with [] => "" | _ => "," +:+ join rest end)
         end) items
  | JObj _ => "[object Object]"
  end.

Definition generateFromLatex_request (latexContent : json) (opts : options)
  : request :=
  {| url := API_BASE_URL +:+ "/generate-from-latex";
     method := "POST";
     content_type := Some "application/json";
     payload := Some (JObj [("latex", latexContent);
                            ("quality",
                             JStr (or_default (quality opts) "medium"))]) |}.

(** [generateFromLatex: async (latexContent, options = {}) => ...]: on a
    response that is not ok the body is read for its [error], an
    unparsable body counting as [{}]; the error thrown carries that
    [error] when it is truthy and the status otherwise. *)
Definition generateFromLatex (fetch : network) (latexContent : json)
    (opts : options) : completion json :=
  bind (fetch (generateFromLatex_request latexContent opts))
    (fun response =>
       if negb (ok response) then
         let errorData :=
           match body response with
           | Return data => data
           | Throw _ => JObj []
           end in
         bind (get errorData "error") (fun e =>
           Throw (Error (if truthy_field e
                         then to_String (default JNull e)
                         else "HTTP error! status: " +:+
                              pretty (status response))))
       else bind (body response) (fun data => Return data)).

End ToString.

Definition health_request : request :=
  {| url := API_BASE_URL +:+ "/health"; method := "GET";
     content_type := None; payload := None |}.

Definition unavailable (text : string) : json :=
  JObj [("status", JStr "error"); ("message", JStr text)].

(** [mathVideoAPI.checkSetup]: the body of [/health], whatever the status
    of the response; the [catch] answers for a request or a body that
    failed. *)
Definition checkSetup (fetch : network) : completion json :=
  match bind (fetch health_request) body with
  | Return data => Return data
  | Throw _ => Return (unavailable "Backend unavailable")
  end.

(** [ocrAPI.checkStatus] *)
Definition ocr_checkStatus (fetch : network) : completion json :=
  match bind (fetch health_request) body with
  | Return data => Return data
  | Throw _ => Return (unavailable "OCR backend unavailable")
  end.

Definition listVideos_request : request :=
  {| url := API_BASE_URL +:+ "/list-videos"; method := "GET";
     content_type := None; payload := None |}.

(** [ocrAPI.listVideos] *)
Definition ocr_listVideos (fetch : network) : completion json :=
  bind (fetch listVideos_request)
    (fun response =>
       if negb (ok response)
       then Throw (Error ("HTTP error! status: " +:+ pretty (status response)))
       else bind (body response) (fun data => Return data)).

(** [mathVideoAPI.listVideos]: no request is made. *)
Definition listVideos (fetch : network) : completion json := Return (JArr []).



End ApiRest.

Module UrlDefs.
Import JsString.
End UrlDefs.

(* ===================================================================== *)
(** * The health checks of the mount effect *)
(* ===================================================================== *)

Module Startup.
Import JsNumber Json JsString Api Viewer ApiRest.

(** [status.status === 'healthy'] *)
Definition is_healthy (v : option json) : bool :=
  match v with
  | Some (JStr s) => String.eqb s "healthy"
  | _ => false
  end.

(** What the two health checks of the mount effect make of the body of
    [/health]: ['ready'] when it is healthy and its [services] list the
    service, ['error'] otherwise; reading a property of [null] throws. *)
Definition backend_state (service : string) (status : json)
  : completion string :=
  bind (get status "status") (fun state =>
    if is_healthy state then
      bind (get status "services") (fun services =>
        if truthy_field services then
          bind (get (default JNull services) service) (fun flag =>
            Return (if truthy_field flag then "ready" else "error"))
        else Return "error")
    else Return "error").

(** The [catch] of a health check *)
Definition state_or_offline (c : completion string) : string :=
  match c with
  | Return state => state
  | Throw _ => "offline"
  end.

(** [checkBackend] of the mount effect, with its call of [checkSetup]. *)
Definition checkBackend (fetch : network) (w : World) : World :=
  with_view
    (setBackendStatus
       (state_or_offline (bind (checkSetup fetch) (backend_state "manim")))) w.

(** [checkOcrBackend] of the mount effect, with its call of
    [ocrAPI.checkStatus]. *)
Definition checkOcrBackend (fetch : network) (w : World) : World :=
  with_view
    (setOcrBackendStatus
       (state_or_offline
          (bind (ocr_checkStatus fetch) (backend_state "ocr")))) w.

(** The body that the health request delivers, whatever the status of the
    response. *)
Definition health_body (fetch : network) (data : json) : Prop :=
  exists response,
    fetch health_request = Return response /\ body response = Return data.

(** The health request fails: it is rejected, or its body does not
    parse. *)
Definition health_failed (fetch : network) : Prop :=
  throws (fetch health_request)
  \/ exists response, fetch health_request = Return response
                      /\ throws (body response).

(** The body reports a healthy backend that offers [service]. *)
Definition offers (service : string) (data : json) : Prop :=
  exists services flag,
    get data "status" = Return (Some (JStr "healthy"))
    /\ get data "services" = Return (Some services)
    /\ get services service = Return (Some flag)
    /\ json_truthy flag = true.

End Startup.

(* ===================================================================== *)
(** * Preloading runs and their timeout *)
(* ===================================================================== *)

Module Runs.
Import JsNumber Json JsString Viewer Preload.

(** The pages that the render notifications of a sequence of events
    report. *)
Fixpoint reported (events : list event) : gset nat :=
  match events with
  | [] => ∅
  | PageRendered p _ :: rest | PageFailed p _ _ :: rest =>
      {[p]} ∪ reported rest
  | _ :: rest => reported rest
  end.

(** A render notification, of whatever page. *)
Definition is_notification (e : event) : Prop :=
  match e with
  | PageRendered _ _ | PageFailed _ _ _ => True
  | _ => False
  end.

(** The timer that [preloadAllPages] arms when it is called in [w] for a
    document of [total] pages. *)
Definition timeout_timer (total : nat) (w : World) : Timer :=
  {| timer_id := next_timer w; delay := 45000%N;
     callback := PreloadTimeout (S (preloadRun w)) total
                   (size (loadedPages (view w))) |}.

(** The message of the timeout. *)
Definition loaded_so_far (currentLoaded total : nat) : string :=
  "Loaded " +:+ pretty currentLoaded +:+ "/" +:+ pretty total +:+
  " pages. Others will load as needed.".

(** No run that has not begun yet has settled. *)
Definition runs_wf (w : World) : Prop :=
  forall r, r ∈ settledRuns w -> (r <= preloadRun w)%nat.

(** The refs of the run [r] of an [n]-page document: every page not yet
    reported has its promise pending, and the run's race has settled
    exactly when none is left. *)
Definition run_refs (n r : nat) (w : World) : Prop :=
  preloadRun w = r
  /\ pageLoadPromises w = pages_upto n ∖ loadedPages (view w)
  /\ (r ∈ settledRuns w <-> pageLoadPromises w = ∅).

(** A timeout of preloading that is still pending although its run is no
    longer the current one, or never settled. *)
Definition pending_timeout (t : Timer) (run total currentLoaded : nat)
    (w : World) : Prop :=
  t ∈ timers w
  /\ callback t = PreloadTimeout run total currentLoaded
  /\ (run <= preloadRun w)%nat
  /\ (run ∉ settledRuns w).

End Runs.

(* ===================================================================== *)
(** * Rounds of polling *)
(* ===================================================================== *)

Module PollingRuns.
Import JsNumber Json JsString Viewer Preload Polling.

(** One round of polling: the pending status check is answered with
    [status], and the timer that the answer schedules, if it schedules
    one, fires. *)
Definition poll_round (text : string) (taskId : option string)
    (fetchJson : string -> completion ExplanationData.t)
    (w : World) (status : StatusResponse.t) : World :=
  step (TimerFired (next_timer w))
    (step (StatusSettled text taskId (Return status) fetchJson) w).

Definition poll_rounds (text : string) (taskId : option string)
    (fetchJson : string -> completion ExplanationData.t)
    (statuses : list StatusResponse.t) (w : World) : World :=
  fold_left (poll_round text taskId fetchJson) statuses w.

End PollingRuns.

Module OcrRuns.
Import JsNumber Json JsString Viewer Ocr.

(** A successful response with two formulas, both strings. *)
Definition string_formulas_response : OcrResponse.t :=
  {| OcrResponse.success := true;
     OcrResponse.error := None;
     OcrResponse.formulas :=
       Some [FormulaString "x^2 + y^2 = r^2"; FormulaString "E = mc^2"];
     OcrResponse.latex := None;
     OcrResponse.confidence := None;
     OcrResponse.raw_result := None |}.

End OcrRuns.

Module PathDefs.
Import JsString.



End PathDefs.

(* ===================================================================== *)
(** * The page indicator: [getCurrentPageNumber] *)
(* ===================================================================== *)

Module PageIndicator.
Import JsNumber Json JsString Viewer.

(** What [getCurrentPageNumber] reads from the scroll container. *)
Record Container : Type := { scrollTop : number; clientHeight : number }.

(** [Math.floor(x)]: a float with a fraction is taken down to the integer
    below it; the integers, the zeros, the infinities and NaN are left as
    they are. *)
Definition Math_floor (x : number) : number :=
  match x with
  | S754_finite s m (Z.neg p) =>
      of_Z ((if s then Z.neg m else Z.pos m) / 2 ^ Z.pos p)
  | _ => x
  end.

(** [getCurrentPageNumber()], with [containerRef.current] when it is
    set. *)
Definition getCurrentPageNumber (container : option Container)
    (s : ViewerState) : number :=
  match container, numPages s with
  | Some c, Some (S n') =>
      let pageHeight := div (clientHeight c) (scale s) in
      let currentPage :=
        add (Math_floor (div (scrollTop c) pageHeight)) (of_Z 1) in
      Math_min (Math_max currentPage (of_Z 1)) (of_Z (Z.of_nat (S n')))
  | _, _ => of_Z 1
  end.

(** The page that the scroll position stands for, before it is clamped. *)
Definition estimated_page (c : Container) (s : ViewerState) : number :=
  add (Math_floor (div (scrollTop c) (div (clientHeight c) (scale s))))
      (of_Z 1).

End PageIndicator.

(* ===================================================================== *)
(** * The explanation viewer: [formatExplanation] *)
(* ===================================================================== *)

Module Explanation.
Import JsString.

(** What [formatExplanation] renders a line as. *)
Inductive block : Type :=
| Heading (text : string)
| SectionTitle (text : string)
| NumberedStep (text : string)
| Equation (text : string)
| Paragraph (text : string).

Definition block_text (b : block) : string :=
  match b with
  | Heading t | SectionTitle t | NumberedStep t | Equation t | Paragraph t => t
  end.

(** [s.startsWith(t)] *)
Definition startsWith (s t : string) : bool := String.prefix t s.

(** [s.includes(t)] *)
Fixpoint includes (s t : string) : bool :=
  String.prefix t s
  || match s with
     | EmptyString => false
     | String _ r => includes r t
     end.

(** [s.replace(/\*\*/g, '')] *)
Fixpoint remove_stars (s : string) : string :=
  match s with
  | String "*" (String "*" r) => remove_stars r
  | String c r => String c (remove_stars r)
  | EmptyString => EmptyString
  end.

Definition is_digit (c : ascii) : bool :=
  let n := nat_of_ascii c in ((48 <=? n) && (n <=? 57))%nat.

Fixpoint skip_digits (s : string) : string :=
  match s with
  | String c r => if is_digit c then skip_digits r else s
  | EmptyString => EmptyString
  end.

(** [s.match(/^\d+\./)] *)
Definition numbered (s : string) : bool :=
  match s with
  | String c r => is_digit c && String.prefix "." (skip_digits r)
  | EmptyString => false
  end.

Definition newline : ascii := ascii_of_nat 10.

(** [text.split('\n')] *)
Fixpoint lines_from (s acc : string) : list string :=
  match s with
  | EmptyString => [String.rev acc]
  | String c r =>
      if Ascii.eqb c newline then String.rev acc :: lines_from r EmptyString
      else lines_from r (String c acc)
  end.

Definition lines (text : string) : list string := lines_from text EmptyString.

(** The almost-equal sign, U+2248: the three bytes [E2 89 88]. *)
Definition almost_equal : string :=
  String (ascii_of_nat 226) (String (ascii_of_nat 137)
    (String (ascii_of_nat 136) EmptyString)).

(** The callback of [text.split('\n').map(...)]: what a line is rendered
    as, [None] for the [null] of a blank line. *)
Definition formatLine (line : string) : option block :=
  let trimmedLine := trim line in
  if startsWith trimmedLine "**" && endsWith trimmedLine "**" then
    Some (Heading (remove_stars trimmedLine))
  else if includes trimmedLine ":" && (utf16_length trimmedLine <? 100)%nat
  then Some (SectionTitle trimmedLine)
  else if numbered trimmedLine then Some (NumberedStep trimmedLine)
  else if includes trimmedLine "=" || includes trimmedLine almost_equal
  then Some (Equation trimmedLine)
  else if truthy (Some trimmedLine) then Some (Paragraph trimmedLine)
  else None.

(** [formatExplanation(text)]: [.filter(Boolean)] drops the blank
    lines. *)
Definition formatExplanation (text : string) : list block :=
  omap formatLine (lines text).

(** A line is blank when nothing is left of it once trimmed. *)
Definition blank (line : string) : bool := negb (truthy (Some (trim line))).

(** What is shown of a line that is not blank: the trimmed line, and
    without its asterisk pairs when they wrap it. *)
Definition shown (line : string) : string :=
  let t := trim line in
  if startsWith t "**" && endsWith t "**" then remove_stars t else t.

End Explanation.

Module Effects.
Import JsNumber Json JsString Viewer.

(** The events whose handlers call [alert]. *)
Definition may_alert (e : event) : Prop :=
  match e with
  | GenerateSettled _ (Throw _) | StatusSettled _ _ _ _ | OcrSelected _ => True
  | _ => False
  end.

End Effects.

(* ===================================================================== *)
(** * Properties *)
(* ===================================================================== *)

Module ZoomFacts.
Import JsNumber Zoom.

Example zoomIn_from_initial :
  zoomIn initial_scale = S754_finite false 5404319552844595 (-52).
Proof. reflexivity. Qed.

Lemma same_value_eq x y : same_value x y = true -> x = y.
Proof.
  destruct x as [s| s| |s m e], y as [t| t| |t n f]; simpl;
    try discriminate; try reflexivity.
  - intros H. apply Bool.eqb_prop in H. congruence.
  - intros H. apply Bool.eqb_prop in H. congruence.
  - intros H.
    apply andb_prop in H as [H He]. apply andb_prop in H as [Hs Hm].
    apply Bool.eqb_prop in Hs. apply Pos.eqb_eq in Hm. apply Z.eqb_eq in He.
    congruence.
Qed.

Lemma mem_In x l : mem x l = true -> In x l.
Proof.
  unfold mem. rewrite existsb_exists.
  intros (y & Hy & Hxy). apply same_value_eq in Hxy. congruence.
Qed.

Example scale_orbit_size : length scale_orbit = 38%nat.
Proof. reflexivity. Qed.

Lemma scale_orbit_closed : closed_under_zoom scale_orbit = true.
Proof. vm_compute. reflexivity. Qed.

Lemma scale_orbit_in_range : forallb in_zoom_range scale_orbit = true.
Proof. vm_compute. reflexivity. Qed.

Lemma initial_in_orbit : In initial_scale scale_orbit.
Proof. apply mem_In. vm_compute. reflexivity. Qed.

Lemma zoom_stays_in_orbit op s :
  In s scale_orbit -> In (zoom op s) scale_orbit.
Proof.
  intros Hs.
  pose proof scale_orbit_closed as Hc.
  unfold closed_under_zoom in Hc.
  rewrite forallb_forall in Hc.
  specialize (Hc s Hs).
  apply andb_prop in Hc as [Hin Hout].
  destruct op; unfold zoom; apply mem_In; assumption.
Qed.

Lemma zoom_all_in_orbit ops : forall s,
  In s scale_orbit -> In (zoom_all ops s) scale_orbit.
Proof.
  induction ops as [|op ops IH]; intros s Hs.
  - exact Hs.
  - change (In (zoom_all ops (zoom op s)) scale_orbit).
    apply IH. apply zoom_stays_in_orbit. exact Hs.
Qed.

(** C10. Whatever sequence of zoomIn and zoomOut clicks is applied to the
    initial scale 1.0, the scale stays within [0.5, 3.0]; zoomIn sends a
    scale s to min(s + 0.2, 3.0) and zoomOut sends it to
    max(s - 0.2, 0.5), the sums being binary64 sums. *)
Theorem zoom_scale_within_bounds (ops : list zoom_op) :
  let s := zoom_all ops initial_scale in
  leb lit_0_5 s = true /\ leb s lit_3_0 = true
  /\ zoomIn s = Math_min (add s lit_0_2) lit_3_0
  /\ zoomOut s = Math_max (sub s lit_0_2) lit_0_5.
Proof.
  intros s.
  assert (Hs : In s scale_orbit)
    by (apply zoom_all_in_orbit, initial_in_orbit).
  pose proof scale_orbit_in_range as Hr.
  rewrite forallb_forall in Hr.
  specialize (Hr s Hs).
  unfold in_zoom_range in Hr.
  apply andb_prop in Hr as [Hlo Hhi].
  repeat split; assumption.
Qed.

End ZoomFacts.

(* ===================================================================== *)
(** * The API client: when a call throws *)
(* ===================================================================== *)

Module ApiFacts.
Import Json Api.

#[local] Arguments pretty : simpl never.
#[local] Arguments String.append : simpl never.

(** Case analysis on how a call, a request and a delivery can end. *)
Ltac settle :=
  repeat match goal with
  | |- _ /\ _ => split
  | |- _ <-> _ => split
  | |- forall _, _ => intro
  | H : throws _ |- _ => destruct H as [? H]; try discriminate H
  | H : delivered _ _ |- _ => destruct H as (? & ? & ? & ?)
  | H : request_failed _ |- _ => cbn in H
  | H : _ \/ _ |- _ => destruct H
  | H : Return _ = Return _ |- _ => injection H as H; subst
  | H : Throw _ = Throw _ |- _ => injection H as H; subst
  | H : False |- _ => destruct H
  | _ => progress cbn in *
  | _ => discriminate
  | _ => congruence
  end.

(** X1. generateVideo throws exactly when its request fails (the fetch is
    rejected, the response is not ok, or the body does not parse), and
    otherwise returns the parsed body as it is. *)
Lemma generateVideo_throws_iff fetch selectedText opts :
  let r := fetch (generateVideo_request selectedText opts) in
  (throws (generateVideo fetch selectedText opts) <-> request_failed r)
  /\ (forall data, delivered r data ->
        generateVideo fetch selectedText opts = Return data).
Proof.
  unfold generateVideo.
  destruct (fetch _) as [[[] code [data|e]]|e]; settle.
  all: try (unfold throws; eauto; fail).
  all: try (left; reflexivity).
  all: try (right; unfold throws; eauto).
  all: try exact I.
Qed.

(** X2. mathVideoAPI.checkStatus throws exactly when its request fails
    (the fetch is rejected, the response is not ok, or the body does not
    parse), and otherwise returns the parsed body as it is. *)
Lemma checkStatus_throws_iff fetch taskId :
  let r := fetch (checkStatus_request taskId) in
  (throws (checkStatus fetch taskId) <-> request_failed r)
  /\ (forall data, delivered r data -> checkStatus fetch taskId = Return data).
Proof.
  unfold checkStatus.
  destruct (fetch _) as [[[] code [data|e]]|e]; settle.
  all: try (unfold throws; eauto; fail).
  all: try (left; reflexivity).
  all: try (right; unfold throws; eauto).
  all: try exact I.
Qed.

Lemma log_parsed_response_cases data :
  (data = JNull /\ exists e, log_parsed_response data = Throw e)
  \/ (data <> JNull /\ log_parsed_response data = Return tt).
Proof.
  destruct data; cbn; [left; eauto|right; split; [discriminate|reflexivity]..].
Qed.

(** X3. extractContent throws exactly when its request fails or the body
    delivered is the JSON value null, on which its log of data.success
    throws; every other body that is delivered is returned as it is. *)
Lemma extractContent_throws_iff fetch imageData preprocessingLevel :
  let r := fetch (extractContent_request imageData preprocessingLevel) in
  (throws (extractContent fetch imageData preprocessingLevel)
   <-> request_failed r \/ delivered r JNull)
  /\ (forall data, delivered r data -> data <> JNull ->
        extractContent fetch imageData preprocessingLevel = Return data).
Proof.
  unfold extractContent.
  destruct (fetch _) as [[[] code [data|e]]|e];
    [destruct (log_parsed_response_cases data) as [[-> [e He]]|[Hnn He]];
     cbn [bind negb ok body]; rewrite He|..]; settle.
  all: try (unfold throws; eauto; fail).
  all: try (left; left; reflexivity).
  all: try (left; right; unfold throws; eauto; fail).
  all: try (left; exact I).
  all: try (right; eexists; repeat split; fail).
Qed.

(** C6. What the code does when the backend answers 200 with the body
    null: the fetch has not failed and the body parses, generateVideo and
    checkStatus return it, and extractContent throws a TypeError from its
    log of data.success. *)
Theorem extractContent_throws_on_null_body :
  let image := Some "data:image/png;base64,iVBORw0KGgo=" in
  ~ request_failed (null_answer (extractContent_request image "moderate"))
  /\ delivered (null_answer (extractContent_request image "moderate")) JNull
  /\ extractContent null_answer image "moderate"
     = Throw (TypeError "Cannot read properties of null (reading 'success')")
  /\ generateVideo null_answer "x^2" {| quality := None |} = Return JNull
  /\ checkStatus null_answer "task-1" = Return JNull.
Proof.
  intros image. split.
  - intros [Hno|[e He]]; discriminate.
  - split; [eexists; repeat split|]. repeat split.
Qed.

End ApiFacts.

(* ===================================================================== *)
(** * binary64: division and multiplication round to nearest *)
(* ===================================================================== *)

Module Binary64Facts.
Import JsNumber Binary64 Viewer.

Lemma pow2_pos e : (0 < pow2 e)%Q.
Proof. apply Qpower_0_lt. reflexivity. Qed.

Lemma pow2_add a b : (pow2 (a + b) == pow2 a * pow2 b)%Q.
Proof. apply Qpower_plus. discriminate. Qed.

Lemma pow2_le a b : a <= b -> (pow2 a <= pow2 b)%Q.
Proof. intros H. apply Qpower_le_compat_l; [exact H|]. discriminate. Qed.

Lemma pow2_lt a b : a < b -> (pow2 a < pow2 b)%Q.
Proof. intros H. apply Qpower_lt_compat_l; [exact H|]. reflexivity. Qed.

Lemma pow2_Z n : 0 <= n -> (pow2 n == inject_Z (2 ^ n))%Q.
Proof. intros H. unfold pow2. rewrite Zpower_Qpower by exact H. reflexivity. Qed.

Lemma pow2_0 : (pow2 0 == 1)%Q.
Proof. reflexivity. Qed.

Lemma pow2_succ a : (pow2 (a + 1) == 2 * pow2 a)%Q.
Proof. rewrite pow2_add. change (pow2 1) with 2%Q. ring. Qed.

(** The number of binary digits. *)
Lemma digits2_pos_bounds p :
  2 ^ (Z.pos (digits2_pos p) - 1) <= Z.pos p < 2 ^ Z.pos (digits2_pos p).
Proof.
  induction p as [p IH|p IH|]; cbn [digits2_pos].
  - rewrite Pos2Z.inj_succ.
    replace (Z.succ (Z.pos (digits2_pos p)) - 1) with (Z.succ (Z.pos (digits2_pos p) - 1)) by lia.
    rewrite !Z.pow_succ_r by lia. lia.
  - rewrite Pos2Z.inj_succ.
    replace (Z.succ (Z.pos (digits2_pos p)) - 1) with (Z.succ (Z.pos (digits2_pos p) - 1)) by lia.
    rewrite !Z.pow_succ_r by lia. lia.
  - cbn. lia.
Qed.

Lemma Zdigits2_bounds m : 0 < m -> 2 ^ (Zdigits2 m - 1) <= m < 2 ^ Zdigits2 m.
Proof. destruct m as [|p|p]; try lia. intros _. apply digits2_pos_bounds. Qed.

Lemma Zdigits2_unique m d : 0 < m -> 2 ^ (d - 1) <= m < 2 ^ d -> Zdigits2 m = d.
Proof.
  intros Hm [Hlo Hhi]. pose proof (Zdigits2_bounds m Hm) as [Hlo' Hhi'].
  assert (Hd : 0 < Zdigits2 m) by (destruct m; cbn; lia).
  assert (0 < d).
  { destruct (Z.lt_ge_cases 0 d) as [|Hneg]; [assumption|].
    assert (2 ^ d <= 1).
    { destruct (Z.eq_dec d 0) as [->|]; [cbn; lia|]. rewrite Z.pow_neg_r by lia. lia. }
    lia. }
  destruct (Z.lt_trichotomy (Zdigits2 m) d) as [Hlt|[Heq|Hgt]]; [|exact Heq|].
  - assert (2 ^ Zdigits2 m <= 2 ^ (d - 1)) by (apply Z.pow_le_mono_r; lia). lia.
  - assert (2 ^ d <= 2 ^ (Zdigits2 m - 1)) by (apply Z.pow_le_mono_r; lia). lia.
Qed.

Lemma located_bounds rho m l :
  located rho m l -> (inject_Z m <= rho /\ rho < inject_Z m + 1)%Q.
Proof. destruct l as [|[]]; unfold located; intros H; lra. Qed.

Lemma shr_1_spec m r s :
  0 <= m ->
  shr_1 {| shr_m := m; shr_r := r; shr_s := s |}
  = {| shr_m := Z.div2 m; shr_r := Z.odd m; shr_s := r || s |}.
Proof. destruct m as [|[p|p|]|]; try lia; reflexivity. Qed.

Lemma inject_Z_div2 m :
  (inject_Z m == 2 * inject_Z (Z.div2 m) + (if Z.odd m then 1 else 0))%Q.
Proof.
  rewrite (Z.div2_odd m) at 1.
  rewrite inject_Z_plus, inject_Z_mult.
  destruct (Z.odd m); cbn [Z.b2z]; reflexivity.
Qed.

Lemma shr_1_located rho m r s :
  0 <= m ->
  located rho m (loc_of_shr_record {| shr_m := m; shr_r := r; shr_s := s |}) ->
  located (rho / 2) (Z.div2 m)
    (loc_of_shr_record {| shr_m := Z.div2 m; shr_r := Z.odd m; shr_s := r || s |}).
Proof.
  intros Hm Hloc. pose proof (inject_Z_div2 m) as Hd.
  assert (Hhalf : (rho / 2 == rho * (1#2))%Q) by (field).
  destruct r, s, (Z.odd m); unfold located, loc_of_shr_record in *; cbn [orb] in *; rewrite ?Hhalf; lra.
Qed.

Lemma located_ext rho rho' m l :
  (rho == rho')%Q -> located rho m l -> located rho' m l.
Proof. intros H. destruct l as [|[]]; unfold located; rewrite H; auto. Qed.

Lemma shifted_1 rho mrs :
  0 <= shr_m mrs -> located rho (shr_m mrs) (loc_of_shr_record mrs) ->
  shifted 1 rho mrs (shr_1 mrs).
Proof.
  destruct mrs as [m r s]. cbn [shr_m]. intros Hm Hloc.
  rewrite shr_1_spec by exact Hm.
  split; [|split]; cbn [shr_m].
  - rewrite Z.div2_div. apply Z.div_pos; lia.
  - rewrite Z.div2_div. reflexivity.
  - apply (located_ext (rho / 2)); [reflexivity|].
    apply shr_1_located; assumption.
Qed.

Lemma shifted_trans n1 n2 rho mrs mrs1 mrs2 :
  0 <= n1 -> 0 <= n2 ->
  shifted n1 rho mrs mrs1 -> shifted n2 (rho / pow2 n1) mrs1 mrs2 ->
  shifted (n1 + n2) rho mrs mrs2.
Proof.
  intros H1 H2 (Hp1 & Hm1 & Hl1) (Hp2 & Hm2 & Hl2).
  split; [exact Hp2|]. split.
  - rewrite Hm2, Hm1, Z.pow_add_r by lia.
    rewrite Z.div_div; try (apply Z.pow_pos_nonneg; lia).
    + reflexivity.
    + pose proof (Z.pow_pos_nonneg 2 n1 ltac:(lia) H1). lia.
  - eapply located_ext; [|exact Hl2].
    rewrite pow2_add. field.
    pose proof (pow2_pos n1). pose proof (pow2_pos n2). split; lra.
Qed.

Lemma iter_shr_1_shifted p : forall rho mrs,
  0 <= shr_m mrs -> located rho (shr_m mrs) (loc_of_shr_record mrs) ->
  shifted (Z.pos p) rho mrs (SpecFloat.iter_pos shr_1 p mrs).
Proof.
  induction p as [p IH|p IH|]; intros rho mrs Hm Hloc; cbn [SpecFloat.iter_pos].
  - pose proof (shifted_1 rho mrs Hm Hloc) as H1.
    destruct H1 as (Hp1 & Hm1 & Hl1).
    pose proof (IH _ _ Hp1 Hl1) as H2. destruct H2 as (Hp2 & Hm2 & Hl2).
    pose proof (IH _ _ Hp2 Hl2) as H3.
    replace (Z.pos p~1) with (1 + (Z.pos p + Z.pos p)) by lia.
    eapply shifted_trans; [lia|lia|split; [exact Hp1|split; [exact Hm1|exact Hl1]]|].
    eapply shifted_trans; [lia|lia|split; [exact Hp2|split; [exact Hm2|exact Hl2]]|exact H3].
  - pose proof (IH _ _ Hm Hloc) as H2. destruct H2 as (Hp2 & Hm2 & Hl2).
    pose proof (IH _ _ Hp2 Hl2) as H3.
    replace (Z.pos p~0) with (Z.pos p + Z.pos p) by lia.
    eapply shifted_trans; [lia|lia|split; [exact Hp2|split; [exact Hm2|exact Hl2]]|exact H3].
  - apply shifted_1; assumption.
Qed.

(** [shr] by a non-negative amount. *)
Lemma shr_shifted rho mrs e n :
  0 <= n -> 0 <= shr_m mrs ->
  located rho (shr_m mrs) (loc_of_shr_record mrs) ->
  shifted n rho mrs (fst (shr mrs e n)) /\ snd (shr mrs e n) = e + n.
Proof.
  intros Hn Hm Hloc. destruct n as [|p|p]; [| |lia]; cbn [shr fst snd].
  - split; [|lia]. split; [exact Hm|]. split.
    + rewrite Z.pow_0_r, Z.div_1_r. reflexivity.
    + eapply located_ext; [|exact Hloc]. rewrite pow2_0. field.
  - split; [|reflexivity]. apply iter_shr_1_shifted; assumption.
Qed.

Lemma loc_of_record_of_loc m l :
  loc_of_shr_record (shr_record_of_loc m l) = l
  /\ shr_m (shr_record_of_loc m l) = m.
Proof. destruct l as [|[]]; split; reflexivity. Qed.


Lemma fexp_normal e : -1074 <= e - 53 -> fexp prec emax e = e - 53.
Proof. unfold fexp, emin, prec, emax. lia. Qed.

Lemma shr_fexp_normal m e l rho :
  0 < m -> 53 <= Zdigits2 m -> -1074 <= Zdigits2 m + e - 53 ->
  located rho m l ->
  shifted (Zdigits2 m - 53) rho (shr_record_of_loc m l)
          (fst (shr_fexp prec emax m e l))
  /\ snd (shr_fexp prec emax m e l) = Zdigits2 m + e - 53.
Proof.
  intros Hm Hd He Hloc. unfold shr_fexp.
  rewrite fexp_normal by lia.
  replace (Zdigits2 m + e - 53 - e) with (Zdigits2 m - 53) by lia.
  destruct (loc_of_record_of_loc m l) as [Hl Hmm].
  destruct (shr_shifted rho (shr_record_of_loc m l) e (Zdigits2 m - 53))
    as [Hs He']; [lia|rewrite Hmm; lia|rewrite Hl, Hmm; exact Hloc|].
  split; [exact Hs|]. rewrite He'. lia.
Qed.

Lemma top_bits m d :
  53 <= d -> 2 ^ (d - 1) <= m < 2 ^ d ->
  2 ^ 52 <= m / 2 ^ (d - 53) < 2 ^ 53.
Proof.
  intros Hd [Hlo Hhi].
  assert (Hs : 0 < 2 ^ (d - 53)) by (apply Z.pow_pos_nonneg; lia).
  assert (H1 : 2 ^ (d - 1) = 2 ^ 52 * 2 ^ (d - 53)).
  { rewrite <- Z.pow_add_r by lia. f_equal. lia. }
  assert (H2 : 2 ^ d = 2 ^ 53 * 2 ^ (d - 53)).
  { rewrite <- Z.pow_add_r by lia. f_equal. lia. }
  split.
  - apply Z.div_le_lower_bound; [exact Hs|]. rewrite Z.mul_comm. lia.
  - apply Z.div_lt_upper_bound; [exact Hs|]. rewrite Z.mul_comm. lia.
Qed.

Lemma round_nearest_even_range m l :
  m <= round_nearest_even m l <= m + 1.
Proof. destruct l as [|[]]; cbn; try destruct (Z.even m); lia. Qed.

Lemma round_aux_normal mx ex lx rho :
  0 < mx -> 53 <= Zdigits2 mx ->
  -1074 <= Zdigits2 mx + ex - 53 -> Zdigits2 mx + ex - 53 < 971 ->
  located rho mx lx ->
  exists m e,
    binary_round_aux prec emax false mx ex lx = S754_finite false m e
    /\ 2 ^ 52 <= Z.pos m < 2 ^ 53
    /\ Zdigits2 mx + ex - 53 <= e <= Zdigits2 mx + ex - 52
    /\ rounds_to (rho * pow2 ex) (inject_Z (Z.pos m) * pow2 e).
Proof.
  intros Hm Hd Hlo Hhi Hloc.
  destruct (shr_fexp_normal mx ex lx rho Hm Hd Hlo Hloc) as [(Hp1 & Hm1 & Hl1) He1].
  pose proof (top_bits mx (Zdigits2 mx) Hd (Zdigits2_bounds mx Hm)) as Htop.
  destruct (loc_of_record_of_loc mx lx) as [_ Hmm]. rewrite Hmm in Hm1.
  unfold binary_round_aux.
  destruct (shr_fexp prec emax mx ex lx) as [mrs1 e1]. cbn [fst snd] in *.
  subst e1. rewrite <- Hm1 in Htop.
  set (m1 := shr_m mrs1) in *. set (l1 := loc_of_shr_record mrs1) in *.
  set (E := Zdigits2 mx + ex - 53) in *.
  pose proof (round_nearest_even_range m1 l1) as Hr.
  set (m2 := round_nearest_even m1 l1) in *.
  assert (Hrounds : rounds_to (rho * pow2 ex) (inject_Z m2 * pow2 E)).
  { exists E, m1, l1. split; [exact Htop|]. split; [|reflexivity].
    eapply located_ext; [|exact Hl1].
    replace E with (ex + (Zdigits2 mx - 53)) by (unfold E; lia).
    rewrite pow2_add. field.
    pose proof (pow2_pos ex). pose proof (pow2_pos (Zdigits2 mx - 53)). split; lra. }
  assert (Hm2 : 0 < m2) by lia.
  destruct (Z.eq_dec m2 (2 ^ 53)) as [Hcarry|Hnocarry].
  - (* the mantissa overflowed to 2^53: one more shift *)
    assert (Hd2 : Zdigits2 m2 = 54) by (rewrite Hcarry; reflexivity).
    destruct (shr_fexp_normal m2 E loc_Exact (inject_Z m2) Hm2) as [(Hp3 & Hm3 & Hl3) He3];
      [rewrite Hd2; lia|rewrite Hd2; lia|reflexivity|].
    destruct (shr_fexp prec emax m2 E loc_Exact) as [mrs3 e3]. cbn [fst snd] in *.
    rewrite Hd2 in *. cbn [shr_record_of_loc shr_m] in Hm3.
    rewrite Hcarry in Hm3. change (2 ^ 53 / 2 ^ (54 - 53)) with (2 ^ 52) in Hm3.
    rewrite Hm3. change (2 ^ 52) with (Z.pos (2 ^ 52)).
    exists (2 ^ 52)%positive, e3.
    assert (He3' : e3 = E + 1) by lia.
    destruct (Z.leb_spec e3 (emax - prec)) as [_|Hbad]; [|unfold emax, prec in Hbad; lia].
    split; [reflexivity|]. split; [lia|]. split; [unfold E in He3'; lia|].
    destruct Hrounds as (E' & m' & l' & Hb & Hloc' & Hv).
    exists E', m', l'. split; [exact Hb|]. split; [exact Hloc'|].
    rewrite <- Hv, He3', pow2_succ, Hcarry.
    change (inject_Z (Z.pos (2 ^ 52))) with (inject_Z (2 ^ 52)).
    change (inject_Z (2 ^ 53)) with (2 * inject_Z (2 ^ 52))%Q. ring.
  - assert (Hd2 : Zdigits2 m2 = 53) by (apply Zdigits2_unique; lia).
    destruct (shr_fexp_normal m2 E loc_Exact (inject_Z m2) Hm2) as [(Hp3 & Hm3 & Hl3) He3];
      [rewrite Hd2; lia|rewrite Hd2; lia|reflexivity|].
    destruct (shr_fexp prec emax m2 E loc_Exact) as [mrs3 e3]. cbn [fst snd] in *.
    rewrite Hd2 in *. cbn [shr_record_of_loc shr_m] in Hm3.
    change (2 ^ (53 - 53)) with 1 in Hm3. rewrite Z.div_1_r in Hm3.
    rewrite Hm3. destruct m2 as [|p2|p2]; try lia.
    exists p2, e3.
    assert (He3' : e3 = E) by lia.
    destruct (Z.leb_spec e3 (emax - prec)) as [_|Hbad]; [|unfold emax, prec in Hbad; lia].
    split; [reflexivity|]. split; [lia|]. split; [unfold E in He3'; lia|].
    rewrite He3'. exact Hrounds.
Qed.

Lemma inject_Z_succ_le a b : a < b -> (inject_Z a + 1 <= inject_Z b)%Q.
Proof.
  intros H. assert (Hle : a + 1 <= b) by lia.
  rewrite Zle_Qle, inject_Z_plus in Hle. exact Hle.
Qed.

Lemma inject_Z_lt_inv a b : (inject_Z a < inject_Z b + 1)%Q -> a <= b.
Proof.
  intros H. destruct (Z.le_gt_cases a b) as [Hle|Hgt]; [exact Hle|].
  apply inject_Z_succ_le in Hgt. lra.
Qed.

(** Rounding to the nearest integer, ties to even, is monotone. *)
Lemma round_nearest_even_mono rho rho' m m' l l' :
  located rho m l -> located rho' m' l' -> (rho <= rho')%Q ->
  round_nearest_even m l <= round_nearest_even m' l'.
Proof.
  intros Hl Hl' Hle.
  pose proof (located_bounds _ _ _ Hl) as [Hlo Hhi].
  pose proof (located_bounds _ _ _ Hl') as [Hlo' Hhi'].
  pose proof (round_nearest_even_range m l) as Hr.
  pose proof (round_nearest_even_range m' l') as Hr'.
  assert (Hmm : m <= m') by (apply inject_Z_lt_inv; lra).
  destruct (Z.eq_dec m m') as [<-|Hne]; [|lia].
  destruct l as [|[]], l' as [|[]]; unfold located in *; cbn [round_nearest_even];
    try destruct (Z.even m); try lia; exfalso; lra.
Qed.

Lemma scaled_le a b E : (a <= b)%Q -> (a * pow2 E <= b * pow2 E)%Q.
Proof. intros H. apply Qmult_le_compat_r; [exact H|]. pose proof (pow2_pos E). lra. Qed.

Lemma scaled_lt a b E : (a < b)%Q -> (a * pow2 E < b * pow2 E)%Q.
Proof. intros H. apply Qmult_lt_compat_r; [apply pow2_pos|exact H]. Qed.

Lemma unscale r E : (r == r / pow2 E * pow2 E)%Q.
Proof. field. pose proof (pow2_pos E). lra. Qed.

Lemma le_unscaled a r E : (a <= r / pow2 E)%Q -> (a * pow2 E <= r)%Q.
Proof. intros H. apply (scaled_le _ _ E) in H. rewrite <- unscale in H. exact H. Qed.

Lemma lt_unscaled b r E : (r / pow2 E < b)%Q -> (r < b * pow2 E)%Q.
Proof. intros H. apply (scaled_lt _ _ E) in H. rewrite <- unscale in H. exact H. Qed.

(** A number located at exponent [E] lies in that binade. *)
Lemma located_binade r E m l :
  2 ^ 52 <= m < 2 ^ 53 -> located (r / pow2 E) m l ->
  (inject_Z (2 ^ 52) * pow2 E <= r /\ r < inject_Z (2 ^ 53) * pow2 E)%Q.
Proof.
  intros [Hlo Hhi] Hl. apply located_bounds in Hl as [Hl1 Hl2].
  rewrite Zle_Qle in Hlo. apply inject_Z_succ_le in Hhi.
  split.
  - apply le_unscaled. lra.
  - apply lt_unscaled. lra.
Qed.

(** The next binade starts where this one ends. *)
Lemma binade_step a b :
  a < b -> (inject_Z (2 ^ 53) * pow2 a <= inject_Z (2 ^ 52) * pow2 b)%Q.
Proof.
  intros Hab. assert (Hle : a + 1 <= b) by lia.
  apply pow2_le in Hle. rewrite pow2_succ in Hle.
  change (inject_Z (2 ^ 53)) with (2 * inject_Z (2 ^ 52))%Q.
  assert (H52 : (0 < inject_Z (2 ^ 52))%Q) by reflexivity.
  setoid_replace (2 * inject_Z (2 ^ 52) * pow2 a)%Q
    with (inject_Z (2 ^ 52) * (2 * pow2 a))%Q using relation Qeq by ring.
  apply Qmult_le_l; assumption.
Qed.

Lemma binade_unique r E E' :
  (inject_Z (2 ^ 52) * pow2 E <= r /\ r < inject_Z (2 ^ 53) * pow2 E)%Q ->
  (inject_Z (2 ^ 52) * pow2 E' <= r /\ r < inject_Z (2 ^ 53) * pow2 E')%Q ->
  E = E'.
Proof.
  intros [Hlo Hhi] [Hlo' Hhi'].
  destruct (Z.lt_trichotomy E E') as [Hlt|[Heq|Hgt]]; [|exact Heq|].
  - pose proof (binade_step E E' Hlt). lra.
  - pose proof (binade_step E' E Hgt). lra.
Qed.

Lemma rounds_to_ext r r' v : (r == r')%Q -> rounds_to r' v -> rounds_to r v.
Proof.
  intros Hr (E & m & l & Hm & Hl & Hv). exists E, m, l.
  split; [exact Hm|]. split; [|exact Hv].
  eapply located_ext; [|exact Hl]. rewrite Hr. reflexivity.
Qed.

(** Rounding to nearest at 53 bits is monotone. *)
Lemma rounds_to_mono r r' v v' :
  (r <= r')%Q -> rounds_to r v -> rounds_to r' v' -> (v <= v')%Q.
Proof.
  intros Hle (E & m & l & Hm & Hl & Hv) (E' & m' & l' & Hm' & Hl' & Hv').
  pose proof (located_binade r E m l Hm Hl) as [Hlo Hhi].
  pose proof (located_binade r' E' m' l' Hm' Hl') as [Hlo' Hhi'].
  pose proof (round_nearest_even_range m l) as Hr.
  pose proof (round_nearest_even_range m' l') as Hr'.
  rewrite Hv, Hv'.
  destruct (Z.lt_trichotomy E E') as [Hlt|[<-|Hgt]].
  - apply Qle_trans with (inject_Z (2 ^ 53) * pow2 E)%Q.
    + apply scaled_le. rewrite <- Zle_Qle. lia.
    + apply Qle_trans with (inject_Z (2 ^ 52) * pow2 E')%Q.
      * apply binade_step. exact Hlt.
      * apply scaled_le. rewrite <- Zle_Qle. lia.
  - apply scaled_le. rewrite <- Zle_Qle.
    eapply round_nearest_even_mono; [exact Hl|exact Hl'|].
    apply Qmult_le_compat_r; [exact Hle|].
    apply Qlt_le_weak, Qinv_lt_0_compat, pow2_pos.
  - exfalso. pose proof (binade_step E' E Hgt). lra.
Qed.

(** A number with a 53-bit mantissa rounds to itself. *)
Lemma rounds_to_exact r v M F :
  2 ^ 52 <= M < 2 ^ 53 -> (r == inject_Z M * pow2 F)%Q ->
  rounds_to r v -> (v == r)%Q.
Proof.
  intros HM Hr (E & m & l & Hm & Hl & Hv).
  pose proof (located_binade r E m l Hm Hl) as Hb.
  assert (Hb' : (inject_Z (2 ^ 52) * pow2 F <= r
                 /\ r < inject_Z (2 ^ 53) * pow2 F)%Q).
  { rewrite Hr. split.
    - apply scaled_le. rewrite <- Zle_Qle. lia.
    - apply scaled_lt. rewrite <- Zlt_Qlt. lia. }
  assert (E = F) by (eapply binade_unique; eassumption). subst F.
  assert (Hrho : (r / pow2 E == inject_Z M)%Q).
  { rewrite Hr. field. pose proof (pow2_pos E). lra. }
  apply (located_ext _ _ _ _ Hrho) in Hl.
  pose proof (located_bounds _ _ _ Hl) as [Hl1 Hl2].
  assert (m = M).
  { apply Z.le_antisymm.
    - rewrite Zle_Qle. exact Hl1.
    - apply inject_Z_lt_inv. exact Hl2. }
  subst m.
  assert (Hrne : round_nearest_even M l = M).
  { destruct l as [|[]]; unfold located in Hl; cbn [round_nearest_even];
      try reflexivity; exfalso; lra. }
  rewrite Hv, Hrne, Hr. reflexivity.
Qed.

(** Two 53-bit mantissas with the same value are the same float. *)
Lemma canonical_unique a e b f :
  2 ^ 52 <= a < 2 ^ 53 -> 2 ^ 52 <= b < 2 ^ 53 ->
  (inject_Z a * pow2 e == inject_Z b * pow2 f)%Q -> a = b /\ e = f.
Proof.
  intros Ha Hb Heq.
  assert (Hba : (inject_Z (2 ^ 52) * pow2 e <= inject_Z a * pow2 e
                 /\ inject_Z a * pow2 e < inject_Z (2 ^ 53) * pow2 e)%Q).
  { split; [apply scaled_le; rewrite <- Zle_Qle|apply scaled_lt; rewrite <- Zlt_Qlt]; lia. }
  assert (Hbb : (inject_Z (2 ^ 52) * pow2 f <= inject_Z a * pow2 e
                 /\ inject_Z a * pow2 e < inject_Z (2 ^ 53) * pow2 f)%Q).
  { rewrite Heq.
    split; [apply scaled_le; rewrite <- Zle_Qle|apply scaled_lt; rewrite <- Zlt_Qlt]; lia. }
  assert (e = f) by (eapply binade_unique; eassumption). subst f.
  split; [|reflexivity].
  apply Qmult_inj_r in Heq; [|pose proof (pow2_pos e); lra].
  apply inject_Z_injective. exact Heq.
Qed.

Lemma normal_value_pos x lo hi : normal x lo hi -> (0 < value x)%Q.
Proof.
  intros (m & e & -> & _ & _). cbn [value].
  apply Qmult_lt_0_compat; [reflexivity|apply pow2_pos].
Qed.

Lemma pos_iter_xO p d : Z.pos (Pos.iter xO p d) = Z.pos p * 2 ^ Z.pos d.
Proof.
  induction d as [|d IH] using Pos.peano_ind.
  - cbn. lia.
  - rewrite Pos.iter_succ, Pos2Z.inj_xO, IH, Pos2Z.inj_succ, Z.pow_succ_r by lia.
    lia.
Qed.


(** An integer below 2^53 is a float. *)
Lemma of_Z_normal k :
  0 < k < 2 ^ 53 ->
  normal (of_Z k) (-52) 0 /\ (value (of_Z k) == inject_Z k)%Q.
Proof.
  intros [Hpos Hlt]. destruct k as [|p|p]; try lia.
  pose proof (Zdigits2_bounds (Z.pos p) Hpos) as Hd.
  cbn [Zdigits2] in Hd. set (d := Z.pos (digits2_pos p)) in *.
  assert (Hd53 : 1 <= d <= 53).
  { split; [unfold d; lia|].
    destruct (Z.le_gt_cases d 53) as [|Hgt]; [assumption|].
    assert (2 ^ 53 <= 2 ^ (d - 1)) by (apply Z.pow_le_mono_r; lia). lia. }
  unfold of_Z, binary_normalize, binary_round.
  rewrite Z.add_0_r, fexp_normal by (fold d; lia). fold d.
  assert (Hal : exists mz ez,
            shl_align p 0 (d - 53) = (mz, ez)
            /\ Z.pos mz = Z.pos p * 2 ^ (53 - d) /\ ez = d - 53).
  { unfold shl_align. rewrite Z.sub_0_r.
    destruct (d - 53) as [|q|q] eqn:Hq; try lia.
    - exists p, 0. split; [reflexivity|]. split; [|reflexivity].
      replace (53 - d) with 0 by lia. lia.
    - eexists _, _. split; [reflexivity|]. rewrite pos_iter_xO.
      split; [|reflexivity]. f_equal. f_equal. lia. }
  destruct Hal as (mz & ez & -> & Hmz & ->).
  assert (Hmzb : 2 ^ 52 <= Z.pos mz < 2 ^ 53).
  { rewrite Hmz.
    assert (Hs : 0 < 2 ^ (53 - d)) by (apply Z.pow_pos_nonneg; lia).
    assert (H1 : 2 ^ 52 = 2 ^ (d - 1) * 2 ^ (53 - d))
      by (rewrite <- Z.pow_add_r by lia; f_equal; lia).
    assert (H2 : 2 ^ 53 = 2 ^ d * 2 ^ (53 - d))
      by (rewrite <- Z.pow_add_r by lia; f_equal; lia).
    rewrite H1, H2. split; [apply Z.mul_le_mono_nonneg_r|apply Z.mul_lt_mono_pos_r]; lia. }
  assert (Hdz : Zdigits2 (Z.pos mz) = 53) by (apply Zdigits2_unique; lia).
  destruct (round_aux_normal (Z.pos mz) (d - 53) loc_Exact (inject_Z (Z.pos mz)))
    as (m & e & Hres & Hmb & Heb & Hrounds);
    [lia|rewrite Hdz; lia|rewrite Hdz; lia|rewrite Hdz; lia|reflexivity|].
  rewrite Hres.
  apply (rounds_to_exact _ _ (Z.pos mz) (d - 53) Hmzb (Qeq_refl _)) in Hrounds.
  destruct (canonical_unique _ _ _ _ Hmb Hmzb Hrounds) as [Hm He].
  split.
  - exists m, e. split; [reflexivity|]. split; [exact Hmb|lia].
  - cbn [value]. rewrite Hrounds, Hmz, inject_Z_mult.
    rewrite <- pow2_Z by lia.
    setoid_replace (inject_Z (Z.pos p) * pow2 (53 - d) * pow2 (d - 53))%Q
      with (inject_Z (Z.pos p) * (pow2 (53 - d) * pow2 (d - 53)))%Q using relation Qeq by ring.
    rewrite <- pow2_add. replace (53 - d + (d - 53)) with 0 by lia.
    rewrite pow2_0. ring.
Qed.

(** The quotient with its remainder, as a located number. *)
Lemma new_location_located nb q k :
  0 < nb -> 0 <= k < nb ->
  located (inject_Z (q * nb + k) / inject_Z nb) q (new_location nb k).
Proof.
  intros Hnb [Hk0 Hk].
  assert (Hnbq : (0 < inject_Z nb)%Q) by (change 0%Q with (inject_Z 0); rewrite <- Zlt_Qlt; lia).
  assert (Hsplit : (inject_Z (q * nb + k) / inject_Z nb
                    == inject_Z q + inject_Z k / inject_Z nb)%Q).
  { rewrite inject_Z_plus, inject_Z_mult. field. lra. }
  assert (Hfrac : forall a b : Z,
            (a * nb < b * k ->
             (inject_Z a < inject_Z b * (inject_Z k / inject_Z nb))%Q)
            /\ (b * k < a * nb ->
                (inject_Z b * (inject_Z k / inject_Z nb) < inject_Z a)%Q)
            /\ (b * k = a * nb ->
                (inject_Z b * (inject_Z k / inject_Z nb) == inject_Z a)%Q)).
  { intros a b.
    assert (Hdiv : (inject_Z b * (inject_Z k / inject_Z nb)
                    == inject_Z (b * k) / inject_Z nb)%Q)
      by (rewrite inject_Z_mult; field; lra).
    rewrite Hdiv. split; [|split]; intros H.
    - apply Qlt_shift_div_l; [exact Hnbq|].
      rewrite <- inject_Z_mult, <- Zlt_Qlt. exact H.
    - apply Qlt_shift_div_r; [exact Hnbq|].
      rewrite <- inject_Z_mult, <- Zlt_Qlt. exact H.
    - rewrite H, inject_Z_mult. field. lra. }
  eapply located_ext; [symmetry; exact Hsplit|].
  set (f := (inject_Z k / inject_Z nb)%Q) in *.
  destruct (Hfrac 0 1) as (Hpos & _ & Hzero).
  destruct (Hfrac 1 1) as (_ & Hone & _).
  destruct (Hfrac 1 2) as (Hgt & Hlt & Heq).
  change (inject_Z 0) with 0%Q in *. change (inject_Z 1) with 1%Q in *.
  change (inject_Z 2) with 2%Q in *.
  unfold new_location, new_location_even, new_location_odd.
  destruct (Z.even nb) eqn:Heven.
  - destruct (Z.eqb_spec k 0) as [->|Hk1].
    + unfold located. specialize (Hzero eq_refl). lra.
    + specialize (Hpos ltac:(lia)). specialize (Hone ltac:(lia)).
      destruct (Z.compare_spec (2 * k) nb) as [Hc|Hc|Hc]; unfold located.
      * specialize (Heq ltac:(lia)). lra.
      * specialize (Hlt ltac:(lia)). lra.
      * specialize (Hgt ltac:(lia)). lra.
  - assert (Hodd : Z.odd nb = true) by (rewrite <- Z.negb_even, Heven; reflexivity).
    apply Z.odd_spec in Hodd as [h Hh].
    destruct (Z.eqb_spec k 0) as [->|Hk1].
    + unfold located. specialize (Hzero eq_refl). lra.
    + specialize (Hpos ltac:(lia)). specialize (Hone ltac:(lia)).
      destruct (Z.compare_spec (2 * k + 1) nb) as [Hc|Hc|Hc]; unfold located.
      * specialize (Hlt ltac:(lia)). lra.
      * specialize (Hlt ltac:(lia)). lra.
      * specialize (Hgt ltac:(lia)). lra.
Qed.

Lemma inject_Z_pos_lt a : 0 < a -> (0 < inject_Z a)%Q.
Proof. intros H. change 0%Q with (inject_Z 0). rewrite <- Zlt_Qlt. exact H. Qed.

(** The quotient of two integers as floats is their quotient, rounded. *)
Lemma div_rounds x y :
  normal x (-52) 0 -> normal y (-52) 0 ->
  normal (SFdiv prec emax x y) (-105) 1
  /\ rounds_to (value x / value y) (value (SFdiv prec emax x y)).
Proof.
  intros (m1 & e1 & -> & Hm1 & He1) (m2 & e2 & -> & Hm2 & He2).
  assert (Hd1 : Zdigits2 (Z.pos m1) = 53) by (apply Zdigits2_unique; lia).
  assert (Hd2 : Zdigits2 (Z.pos m2) = 53) by (apply Zdigits2_unique; lia).
  cbn [SFdiv xorb]. unfold SFdiv_core_binary.
  rewrite Hd1, Hd2.
  replace (53 + e1 - (53 + e2)) with (e1 - e2) by lia.
  rewrite fexp_normal by lia.
  rewrite Z.min_l by lia.
  replace (e1 - e2 - (e1 - e2 - 53)) with 53 by lia.
  rewrite Z.shiftl_mul_pow2 by lia.
  pose proof (Z_div_mod (Z.pos m1 * 2 ^ 53) (Z.pos m2) ltac:(lia)) as Hdm.
  destruct (Z.div_eucl (Z.pos m1 * 2 ^ 53) (Z.pos m2)) as [q r].
  destruct Hdm as [Hdm Hr].
  assert (Hq : 2 ^ 52 <= q < 2 ^ 54).
  { assert (Z.pos m2 * 2 ^ 52 <= Z.pos m1 * 2 ^ 53) by nia.
    assert (Z.pos m1 * 2 ^ 53 < Z.pos m2 * 2 ^ 54) by nia.
    split; nia. }
  assert (Hdq : 53 <= Zdigits2 q <= 54).
  { destruct (Z.lt_ge_cases q (2 ^ 53)).
    - rewrite (Zdigits2_unique q 53); lia.
    - rewrite (Zdigits2_unique q 54); lia. }
  pose proof (new_location_located (Z.pos m2) q r ltac:(lia) Hr) as Hloc.
  destruct (round_aux_normal q (e1 - e2 - 53) (new_location (Z.pos m2) r) _
              ltac:(lia) ltac:(lia) ltac:(lia) ltac:(lia) Hloc)
    as (m & e & Hres & Hmb & Heb & Hrounds).
  rewrite Hres. split.
  - exists m, e. split; [reflexivity|]. split; [exact Hmb|lia].
  - cbn [value]. eapply rounds_to_ext; [|exact Hrounds].
    replace (q * Z.pos m2 + r) with (Z.pos m1 * 2 ^ 53) by lia.
    rewrite inject_Z_mult.
    rewrite <- (pow2_Z 53) by lia.
    assert (Hp : (pow2 e1 == pow2 (e1 - e2 - 53) * pow2 53 * pow2 e2)%Q).
    { rewrite <- pow2_add, <- pow2_add.
      replace (e1 - e2 - 53 + 53 + e2) with e1 by lia. reflexivity. }
    rewrite Hp. field.
    pose proof (pow2_pos e2). pose proof (inject_Z_pos_lt (Z.pos m2) ltac:(lia)).
    split; lra.
Qed.

(** The product of two floats is their product, rounded. *)
Lemma mul_rounds x y :
  normal x (-105) 1 -> normal y (-52) 0 ->
  normal (SFmul prec emax x y) (-105) 55
  /\ rounds_to (value x * value y) (value (SFmul prec emax x y)).
Proof.
  intros (m1 & e1 & -> & Hm1 & He1) (m2 & e2 & -> & Hm2 & He2).
  cbn [SFmul xorb].
  assert (Hp : 2 ^ 104 <= Z.pos (m1 * m2) < 2 ^ 106).
  { rewrite Pos2Z.inj_mul.
    change (2 ^ 104) with (2 ^ 52 * 2 ^ 52). change (2 ^ 106) with (2 ^ 53 * 2 ^ 53).
    split; [apply Z.mul_le_mono_nonneg|apply Z.mul_lt_mono_nonneg]; lia. }
  assert (Hd : 105 <= Zdigits2 (Z.pos (m1 * m2)) <= 106).
  { destruct (Z.lt_ge_cases (Z.pos (m1 * m2)) (2 ^ 105)).
    - rewrite (Zdigits2_unique _ 105); lia.
    - rewrite (Zdigits2_unique _ 106); lia. }
  destruct (round_aux_normal (Z.pos (m1 * m2)) (e1 + e2) loc_Exact
              (inject_Z (Z.pos (m1 * m2)))
              ltac:(lia) ltac:(lia) ltac:(lia) ltac:(lia) ltac:(reflexivity))
    as (m & e & Hres & Hmb & Heb & Hrounds).
  rewrite Hres. split.
  - exists m, e. split; [reflexivity|]. split; [exact Hmb|lia].
  - cbn [value]. eapply rounds_to_ext; [|exact Hrounds].
    rewrite Pos2Z.inj_mul, inject_Z_mult, pow2_add. ring.
Qed.

(** [Math.round] is the floor of the value plus one half. *)
Lemma Math_round_floor s m e :
  Math_round (S754_finite s m e)
  = Qfloor (value (S754_finite s m e) + (1 # 2)).
Proof.
  unfold Math_round, round_half_up_scaled. cbn [value].
  set (v := if s then Z.neg m else Z.pos m). clearbody v.
  destruct e as [|p|p].
  - rewrite pow2_0, Z.pow_0_r.
    replace (1 * v * 1) with v by lia.
    assert (Hv : (inject_Z v * 1 + (1 # 2) == inject_Z (2 * v + 1) / inject_Z 2)%Q).
    { rewrite inject_Z_plus, inject_Z_mult. field. }
    rewrite (Qfloor_comp _ _ Hv), <- Zdiv_Qdiv.
    apply (Z.div_unique _ _ _ 1); lia.
  - assert (Hpos : 0 < 2 ^ Z.pos p) by (apply Z.pow_pos_nonneg; lia).
    assert (Hv : (inject_Z v * pow2 (Z.pos p) + (1 # 2)
                  == inject_Z (2 * (1 * v * 2 ^ Z.pos p) + 1) / inject_Z 2)%Q).
    { rewrite pow2_Z by lia. rewrite inject_Z_plus, !inject_Z_mult. field. }
    rewrite (Qfloor_comp _ _ Hv), <- Zdiv_Qdiv.
    generalize (1 * v * 2 ^ Z.pos p). intros u.
    apply (Z.div_unique _ _ _ 1); lia.
  - assert (Hpos : 0 < 2 ^ Z.pos p) by (apply Z.pow_pos_nonneg; lia).
    assert (Hv : (inject_Z v * pow2 (Z.neg p) + (1 # 2)
                  == inject_Z (2 * 1 * v + 2 ^ Z.pos p)
                     / inject_Z (2 * 2 ^ Z.pos p))%Q).
    { change (Z.neg p) with (- Z.pos p). unfold pow2. rewrite Qpower_opp.
      fold (pow2 (Z.pos p)). rewrite pow2_Z by lia.
      rewrite inject_Z_plus, !inject_Z_mult. field.
      pose proof (inject_Z_pos_lt _ Hpos). lra. }
    rewrite (Qfloor_comp _ _ Hv), <- Zdiv_Qdiv. reflexivity.
Qed.

Lemma Math_round_mono x y lo hi lo' hi' :
  normal x lo hi -> normal y lo' hi' -> (value x <= value y)%Q ->
  Math_round x <= Math_round y.
Proof.
  intros (m & e & -> & _) (m' & e' & -> & _) Hle.
  rewrite !Math_round_floor. apply Qfloor_resp_le. lra.
Qed.

Lemma Math_round_nonneg x lo hi : normal x lo hi -> 0 <= Math_round x.
Proof.
  intros Hx. pose proof (normal_value_pos x lo hi Hx) as Hpos.
  destruct Hx as (m & e & -> & _).
  rewrite Math_round_floor.
  change 0 with (Qfloor 0). apply Qfloor_resp_le. lra.
Qed.


Lemma lit_100_normal : normal lit_100 (-52) 0 /\ (value lit_100 == 100)%Q.
Proof.
  split.
  - eexists _, _. split; [reflexivity|]. split; [split|split]; vm_compute; congruence.
  - vm_compute. reflexivity.
Qed.

Lemma progress_percent_0 n :
  (0 < n)%nat -> Z.of_nat n < 2 ^ 53 -> progress_percent 0 n = 0.
Proof.
  intros Hn Hlt.
  destruct (of_Z_normal (Z.of_nat n) ltac:(lia)) as [(m & e & Hof & _) _].
  unfold progress_percent. rewrite Hof. reflexivity.
Qed.

(** The float the progress is rounded from, for a positive count. *)
Lemma percent_float k n :
  (0 < k)%nat -> (0 < n)%nat -> Z.of_nat k < 2 ^ 53 -> Z.of_nat n < 2 ^ 53 ->
  exists x,
    normal x (-105) 1
    /\ rounds_to (inject_Z (Z.of_nat k) / inject_Z (Z.of_nat n)) (value x)
    /\ normal (mul x lit_100) (-105) 55
    /\ rounds_to (value x * 100) (value (mul x lit_100))
    /\ progress_percent k n = Math_round (mul x lit_100).
Proof.
  intros Hk Hn Hkb Hnb.
  destruct (of_Z_normal (Z.of_nat k) ltac:(lia)) as [Hkn Hkv].
  destruct (of_Z_normal (Z.of_nat n) ltac:(lia)) as [Hnn Hnv].
  destruct (div_rounds _ _ Hkn Hnn) as [Hxn Hxr].
  destruct lit_100_normal as [Hcn Hcv].
  destruct (mul_rounds _ _ Hxn Hcn) as [Hyn Hyr].
  exists (div (of_Z (Z.of_nat k)) (of_Z (Z.of_nat n))).
  split; [exact Hxn|]. split.
  - eapply rounds_to_ext; [|exact Hxr]. rewrite Hkv, Hnv. reflexivity.
  - split; [exact Hyn|]. split; [|reflexivity].
    eapply rounds_to_ext; [|exact Hyr]. rewrite Hcv. reflexivity.
Qed.

Lemma progress_percent_nonneg k n :
  (0 < n)%nat -> Z.of_nat k < 2 ^ 53 -> Z.of_nat n < 2 ^ 53 ->
  0 <= progress_percent k n.
Proof.
  intros Hn Hkb Hnb. destruct k as [|k].
  - rewrite progress_percent_0 by assumption. lia.
  - destruct (percent_float (S k) n) as (x & _ & _ & Hyn & _ & ->); try lia.
    eapply Math_round_nonneg. exact Hyn.
Qed.

(** More pages loaded never lower the percentage. *)
Lemma progress_percent_mono k k' n :
  (k <= k')%nat -> (0 < n)%nat ->
  Z.of_nat k' < 2 ^ 53 -> Z.of_nat n < 2 ^ 53 ->
  progress_percent k n <= progress_percent k' n.
Proof.
  intros Hkk Hn Hkb Hnb. destruct k as [|k].
  - rewrite progress_percent_0 by assumption.
    apply progress_percent_nonneg; assumption.
  - destruct (percent_float (S k) n) as (x & Hxn & Hxr & Hyn & Hyr & ->); try lia.
    destruct (percent_float k' n) as (x' & Hxn' & Hxr' & Hyn' & Hyr' & ->); try lia.
    eapply Math_round_mono; [exact Hyn|exact Hyn'|].
    eapply rounds_to_mono; [|exact Hyr|exact Hyr'].
    apply Qmult_le_compat_r; [|discriminate].
    eapply rounds_to_mono; [|exact Hxr|exact Hxr'].
    apply Qmult_le_compat_r.
    + rewrite <- Zle_Qle. lia.
    + apply Qlt_le_weak, Qinv_lt_0_compat, inject_Z_pos_lt. lia.
Qed.

(** Every page loaded is one hundred percent. *)
Lemma progress_percent_full n :
  (0 < n)%nat -> Z.of_nat n < 2 ^ 53 -> progress_percent n n = 100.
Proof.
  intros Hn Hnb.
  destruct (of_Z_normal (Z.of_nat n) ltac:(lia)) as [Hnn Hnv].
  destruct (div_rounds _ _ Hnn Hnn) as [Hxn Hxr].
  assert (Hone : (value (of_Z (Z.of_nat n)) / value (of_Z (Z.of_nat n))
                  == inject_Z (2 ^ 52) * pow2 (-52))%Q).
  { rewrite Hnv. pose proof (inject_Z_pos_lt (Z.of_nat n) ltac:(lia)).
    change (inject_Z (2 ^ 52) * pow2 (-52))%Q with
      (inject_Z (2 ^ 52) * (1 # 4503599627370496))%Q.
    field_simplify_eq; [reflexivity|lra]. }
  assert (HM : 2 ^ 52 <= 2 ^ 52 < 2 ^ 53) by lia.
  pose proof (rounds_to_exact _ _ (2 ^ 52) (-52) HM Hone Hxr) as Hv.
  rewrite Hone in Hv.
  destruct Hxn as (m & e & Hx & Hm & He).
  unfold progress_percent. fold (of_Z (Z.of_nat n)) in *. 
  unfold div in *. rewrite Hx in *. cbn [value] in Hv.
  destruct (canonical_unique _ _ _ _ Hm HM Hv) as [Hm1 He1].
  injection Hm1 as ->. subst e. reflexivity.
Qed.

Lemma progress_percent_bounds k n :
  (k <= n)%nat -> (0 < n)%nat -> Z.of_nat n < 2 ^ 53 ->
  0 <= progress_percent k n <= 100.
Proof.
  intros Hk Hn Hnb. split.
  - apply progress_percent_nonneg; lia.
  - rewrite <- (progress_percent_full n Hn Hnb).
    apply progress_percent_mono; lia.
Qed.

End Binary64Facts.

(* ===================================================================== *)
(** * Preloading: what a render notification does *)
(* ===================================================================== *)

Module PreloadFacts.
Import JsNumber Json JsString Viewer Preload.

#[local] Arguments progress_percent : simpl never.
#[local] Arguments pretty : simpl never.
#[local] Arguments toFixed1 : simpl never.
#[local] Arguments String.append : simpl never.

(** The state after a notification, field by field. *)
Lemma notified_view p now w :
  let w' := handlePageLoadSuccess p now w in
  loadedPages (view w') = {[p]} ∪ loadedPages (view w)
  /\ isLoadingPdf (view w') = isLoadingPdf (view w)
  /\ numPages (view w') = numPages (view w)
  /\ pageCache (view w') !! p =
       Some {| PageCacheEntry.loaded := true;
               PageCacheEntry.timestamp := now;
               PageCacheEntry.renderTime :=
                 now - start_or (pageLoadStartTime w) now |}.
Proof.
  unfold handlePageLoadSuccess, resolve_page.
  destruct (isLoadingPdf (view w)) eqn:Hl,
           (numPages (view w)) as [[|n']|] eqn:Hn;
    try destruct (Nat.eqb _ _); case_bool_decide; cbn;
    rewrite ?Hl, ?Hn, ?lookup_insert_eq; auto.
Qed.

(** With the gate [isLoadingPdf && numPages] open, the progress and the
    message follow the new set, and the completion callback is scheduled
    when the set has [numPages] elements. *)
Lemma notified_gate_open p now w n :
  isLoadingPdf (view w) = true -> numPages (view w) = Some (S n) ->
  let w' := handlePageLoadSuccess p now w in
  let loaded := size ({[p]} ∪ loadedPages (view w)) in
  loadingProgress (view w') = progress_percent loaded (S n)
  /\ loadingMessage (view w') = rendering_message loaded (S n)
  /\ timers w' =
       (if (loaded =? S n)%nat
        then timers w ++
             [{| timer_id := next_timer w; delay := 200%N;
                 callback :=
                   CompletePreload (now - start_or (pageLoadStartTime w) now) |}]
        else timers w)
  /\ next_timer w' =
       (if (loaded =? S n)%nat then S (next_timer w) else next_timer w).
Proof.
  intros Hl Hn. unfold handlePageLoadSuccess, resolve_page.
  rewrite Hl, Hn.
  destruct (Nat.eqb _ _) eqn:He; case_bool_decide; cbn; rewrite ?He; auto.
Qed.

(** With the gate closed, a notification leaves the progress, the message
    and the timers alone. *)
Lemma notified_gate_closed p now w :
  isLoadingPdf (view w) = false \/ numPages (view w) = None
  \/ numPages (view w) = Some 0%nat ->
  let w' := handlePageLoadSuccess p now w in
  loadingProgress (view w') = loadingProgress (view w)
  /\ loadingMessage (view w') = loadingMessage (view w)
  /\ timers w' = timers w /\ next_timer w' = next_timer w.
Proof.
  intros Hgate. unfold handlePageLoadSuccess, resolve_page.
  destruct (isLoadingPdf (view w)) eqn:Hl,
           (numPages (view w)) as [[|n']|] eqn:Hn;
    try (destruct Hgate as [?|[?|?]]; discriminate);
    case_bool_decide; cbn; auto.
Qed.

Lemma size_pages_upto n : size (pages_upto n) = n.
Proof.
  unfold pages_upto.
  rewrite size_list_to_set by apply NoDup_seq.
  apply length_seq.
Qed.

Lemma elem_of_pages_upto p n : p ∈ pages_upto n <-> (1 <= p <= n)%nat.
Proof.
  unfold pages_upto. rewrite elem_of_list_to_set, elem_of_seq. lia.
Qed.

(** For a document of at most 100 pages every further page raises the
    percentage. *)
Lemma progress_percent_raises_100 :
  forallb
    (fun n =>
       forallb (fun k => progress_percent k n <? progress_percent (S k) n)
         (seq 0 n))
    (seq 0 101) = true.
Proof. vm_compute. reflexivity. Qed.

Lemma progress_percent_raises k n :
  (n <= 100)%nat -> (k < n)%nat ->
  progress_percent k n < progress_percent (S k) n.
Proof.
  intros Hn Hk.
  pose proof (proj1 (forallb_forall _ _) progress_percent_raises_100 n) as H.
  assert (Hin : In n (seq 0 101)) by (apply in_seq; lia).
  specialize (H Hin). cbv beta in H.
  pose proof (proj1 (forallb_forall _ _) H k) as H'.
  assert (Hin' : In k (seq 0 n)) by (apply in_seq; lia).
  specialize (H' Hin'). cbv beta in H'. apply Z.ltb_lt in H'. exact H'.
Qed.

(** C5. A page that failed to render is recorded like one that rendered:
    the Page's onLoadError handler does what handlePageLoadSuccess does, so
    the page joins loadedPages and enters pageCache with loaded: true.
    While the overlay is up the progress and the message move to the
    values of the enlarged set: the percentage is not below that of the
    set before and not above 100, it is strictly above it when the page is
    new and the document has at most 100 pages, and it is 100 when the page
    is the last one missing, in which case the completion of preloading is
    scheduled. *)
Theorem failed_page_recorded_as_loaded (pageNum : nat) (error : js_error)
    (now : Z) (w : World) :
  let w' := Page_onLoadError pageNum error now w in
  w' = Page_onLoadSuccess pageNum now w
  /\ pageNum ∈ loadedPages (view w')
  /\ (exists entry, pageCache (view w') !! pageNum = Some entry
                    /\ PageCacheEntry.loaded entry = true)
  /\ (forall n,
        isLoadingPdf (view w) = true -> numPages (view w) = Some (S n) ->
        let before := size (loadedPages (view w)) in
        let after := size (loadedPages (view w')) in
        loadingProgress (view w') = progress_percent after (S n)
        /\ loadingMessage (view w') = rendering_message after (S n)
        /\ (pageNum ∉ loadedPages (view w) -> after = S before)
        /\ (after = S n -> completion_pending w')
        /\ (Z.of_nat (S n) < 2 ^ 53 -> (after <= S n)%nat ->
            progress_percent before (S n) <= loadingProgress (view w') <= 100
            /\ (after = S n -> loadingProgress (view w') = 100)
            /\ (pageNum ∉ loadedPages (view w) -> (S n <= 100)%nat ->
                progress_percent before (S n) < loadingProgress (view w')))).
Proof.
  unfold Page_onLoadError, Page_onLoadSuccess.
  destruct (notified_view pageNum now w) as (Hset & _ & _ & Hcache).
  split; [reflexivity|].
  split; [rewrite Hset; apply elem_of_union_l, elem_of_singleton; reflexivity|].
  split; [eexists; split; [exact Hcache|reflexivity]|].
  intros n Hl Hn.
  destruct (notified_gate_open pageNum now w n Hl Hn) as (Hp & Hm & Ht & _).
  rewrite Hset.
  set (before := size (loadedPages (view w))).
  set (after := size ({[pageNum]} ∪ loadedPages (view w))) in *.
  assert (Hnew : pageNum ∉ loadedPages (view w) -> after = S before).
  { intros Hnew. subst after before.
    rewrite size_union by (apply disjoint_singleton_l; exact Hnew).
    rewrite size_singleton. reflexivity. }
  assert (Hgrow : (before <= after)%nat).
  { subst after before. apply subseteq_size, union_subseteq_r. }
  split; [exact Hp|]. split; [exact Hm|]. split; [exact Hnew|].
  split.
  - intros Hfull. apply Nat.eqb_eq in Hfull.
    rewrite Hfull in Ht.
    eexists. split.
    + rewrite Ht. apply elem_of_app. right. apply list_elem_of_singleton.
      reflexivity.
    + eexists. reflexivity.
  - intros Hbig Hle. rewrite Hp.
    split; [split|split].
    + apply Binary64Facts.progress_percent_mono; lia.
    + apply Binary64Facts.progress_percent_bounds; lia.
    + intros ->. apply Binary64Facts.progress_percent_full; lia.
    + intros Hnotin Hsmall. rewrite (Hnew Hnotin).
      pose proof (Hnew Hnotin) as Hs.
      apply progress_percent_raises; lia.
Qed.

(** Page 3 of a document of three pages fails after page 2 has rendered:
    the progress goes from 33 to 67. *)
Lemma failed_page_witness :
  let w := step (PageRendered 2 1100)
             (onDocumentLoadSuccess 3 1000 None pdf_chosen) in
  let w' := Page_onLoadError 3 (Error "render") 1150 w in
  loadingProgress (view w) = 33
  /\ loadingProgress (view w') = 67
  /\ loadingMessage (view w') = "Rendering pages... 2/3 (67%)"
  /\ size (loadedPages (view w')) = 2%nat
  /\ 3%nat ∈ loadedPages (view w').
Proof.
  intros w w'. subst w'.
  destruct (failed_page_recorded_as_loaded 3 (Error "render") 1150 w)
    as (_ & Hin & _ & Hgate).
  destruct (Hgate 2%nat eq_refl eq_refl) as (Hp & Hm & _).
  split; [vm_compute; reflexivity|].
  split; [rewrite Hp; vm_compute; reflexivity|].
  split; [rewrite Hm; vm_compute; reflexivity|].
  split; [vm_compute; reflexivity|exact Hin].
Defined.

Lemma document_loaded n now memory w :
  let w' := onDocumentLoadSuccess n now memory w in
  isLoadingPdf (view w') = true
  /\ numPages (view w') = Some n
  /\ loadedPages (view w') = ∅
  /\ loadingProgress (view w') = 0
  /\ timers w' =
       timers w ++ [{| timer_id := next_timer w; delay := 45000%N;
                       callback := PreloadTimeout (S (preloadRun w)) n
                                     (size (loadedPages (view w))) |}]
  /\ next_timer w' = S (next_timer w).
Proof.
  unfold onDocumentLoadSuccess, preloadAllPages, checkMemoryUsage.
  destruct memory as [m|]; repeat (case_match; try reflexivity); cbn; auto 10.
Qed.

Lemma ids_determine_timer (ts : list Timer) t1 t2 :
  NoDup (map timer_id ts) -> t1 ∈ ts -> t2 ∈ ts ->
  timer_id t1 = timer_id t2 -> t1 = t2.
Proof.
  induction ts as [|t ts IH]; intros Hnd H1 H2 Hid.
  - inversion H1.
  - cbn in Hnd. apply NoDup_cons in Hnd as [Hnotin Hnd].
    apply elem_of_cons in H1 as [->|H1]; apply elem_of_cons in H2 as [->|H2].
    + reflexivity.
    + exfalso. apply Hnotin. rewrite Hid. apply list_elem_of_fmap. eauto.
    + exfalso. apply Hnotin. rewrite <- Hid. apply list_elem_of_fmap. eauto.
    + eauto.
Qed.

Lemma fired_timer w t :
  timers_wf w -> t ∈ timers w ->
  timerFired (timer_id t) w =
    fire (callback t)
      (with_timers (filter (fun t' => timer_id t' ≠ timer_id t) (timers w))
                   (next_timer w) w).
Proof.
  intros [Hnd _] Ht. unfold timerFired.
  destruct (filter (fun t0 => timer_id t0 = timer_id t) (timers w)) as [|t1 rest] eqn:Hf.
  - exfalso. assert (Hin : t ∈ filter (fun t0 => timer_id t0 = timer_id t) (timers w))
      by (apply list_elem_of_filter; auto).
    rewrite Hf in Hin. inversion Hin.
  - assert (Hin : t1 ∈ filter (fun t0 => timer_id t0 = timer_id t) (timers w))
      by (rewrite Hf; left).
    apply list_elem_of_filter in Hin as [Hid Hin].
    rewrite (ids_determine_timer _ _ _ Hnd Hin Ht Hid). reflexivity.
Qed.

Lemma size_le_pages (X : gset nat) n : X ⊆ pages_upto n -> (size X <= n)%nat.
Proof.
  intros H. rewrite <- (size_pages_upto n). apply subseteq_size. exact H.
Qed.

Lemma timers_wf_snoc w ts a ms :
  timers_wf w -> ts = timers w ->
  NoDup (map timer_id (ts ++ [{| timer_id := next_timer w; delay := ms; callback := a |}]))
  /\ forall t, t ∈ ts ++ [{| timer_id := next_timer w; delay := ms; callback := a |}] ->
       (timer_id t < S (next_timer w))%nat.
Proof.
  intros [Hnd Hlt] ->. split.
  - rewrite map_app. cbn. apply NoDup_app. split; [exact Hnd|]. split.
    + intros i Hi Hi'. apply list_elem_of_singleton in Hi'. subst i.
      apply list_elem_of_fmap in Hi as (t & Hid & Ht).
      specialize (Hlt t Ht). change (id t) with (timer_id t) in *. lia.
    + apply NoDup_singleton.
  - intros t Ht. apply elem_of_app in Ht as [Ht|Ht].
    + specialize (Hlt t Ht). lia.
    + apply list_elem_of_singleton in Ht. subst t. cbn. lia.
Qed.

Lemma preload_inv_start n now memory w :
  (0 < n)%nat -> timers_wf w -> ~ completion_pending w ->
  preload_inv n (onDocumentLoadSuccess n now memory w).
Proof.
  intros Hn Hwf Hnone.
  destruct (document_loaded n now memory w) as (Hl & Hnp & Hset & _ & Ht & Hnext).
  unfold preload_inv. rewrite Hnp, Hset, Hl, size_empty.
  split; [reflexivity|]. split.
  - unfold timers_wf. rewrite Ht, Hnext. eapply timers_wf_snoc; eauto.
  - split; [apply empty_subseteq|]. split.
    + intros _. split; [reflexivity|].
      intros (t & Hin & Hc). rewrite Ht in Hin.
      apply elem_of_app in Hin as [Hin|Hin].
      * apply Hnone. exists t. auto.
      * apply list_elem_of_singleton in Hin. subst t.
        destruct Hc as [lt Hc]. discriminate.
    + intros H0. lia.
Qed.

Lemma step_notification n e w :
  notification_for n e ->
  exists p now, (1 <= p <= n)%nat /\ step e w = handlePageLoadSuccess p now w.
Proof.
  destruct e; cbn; try tauto; intros Hp; eauto.
Qed.

Lemma preload_inv_notify n p now w :
  (0 < n)%nat -> (1 <= p <= n)%nat ->
  preload_inv n w -> preload_inv n (handlePageLoadSuccess p now w).
Proof.
  intros Hn Hp (Hnp & Hwf & Hsub & Hbefore & Hat).
  destruct (notified_view p now w) as (Hset & Hl & Hnp' & _).
  assert (Hsub' : {[p]} ∪ loadedPages (view w) ⊆ pages_upto n).
  { apply union_least; [|exact Hsub].
    apply singleton_subseteq_l, elem_of_pages_upto. exact Hp. }
  assert (Hgrow : (size (loadedPages (view w))
                   <= size ({[p]} ∪ loadedPages (view w)))%nat)
    by (apply subseteq_size, union_subseteq_r).
  pose proof (size_le_pages _ _ Hsub) as Hle.
  pose proof (size_le_pages _ _ Hsub') as Hle'.
  destruct n as [|n']; [lia|].
  unfold preload_inv. rewrite Hset, Hl, Hnp'.
  destruct (isLoadingPdf (view w)) eqn:Hloading.
  - destruct (notified_gate_open p now w n' Hloading Hnp) as (_ & _ & Ht & Hnext).
    cbv zeta in Ht, Hnext.
    destruct (Nat.eqb_spec (size ({[p]} ∪ loadedPages (view w))) (S n')) as [Hfull|Hnot].
    + split; [exact Hnp|]. split.
      { unfold timers_wf. rewrite Ht, Hnext. eapply timers_wf_snoc; eauto. }
      split; [exact Hsub'|]. split; [lia|].
      intros _ _. eexists. split.
      * rewrite Ht. apply elem_of_app. right. apply list_elem_of_singleton. reflexivity.
      * eexists. reflexivity.
    + split; [exact Hnp|]. split.
      { unfold timers_wf. rewrite Ht, Hnext. exact Hwf. }
      split; [exact Hsub'|]. split.
      * intros Hlt. split; [reflexivity|].
        unfold completion_pending. rewrite Ht.
        apply Hbefore. lia.
      * intros Hfull. contradiction.
  - assert (Hfull : size (loadedPages (view w)) = S n').
    { destruct (Nat.lt_ge_cases (size (loadedPages (view w))) (S n')) as [Hlt|Hge];
        [|lia]. destruct (Hbefore Hlt) as [Hcontra _]. discriminate. }
    destruct (notified_gate_closed p now w (or_introl Hloading)) as (_ & _ & Ht & Hnext).
    cbv zeta in Ht, Hnext.
    split; [exact Hnp|]. split.
    { unfold timers_wf. rewrite Ht, Hnext. exact Hwf. }
    split; [exact Hsub'|]. split; [lia|].
    intros _ Hcontra. discriminate.
Qed.

Lemma completed loadTime w :
  let w' := completePreload loadTime w in
  isLoadingPdf (view w') = false
  /\ loadingMessage (view w') = all_pages_ready loadTime
  /\ loadedPages (view w') = loadedPages (view w)
  /\ numPages (view w') = numPages (view w)
  /\ timers w' = timers w ++ [{| timer_id := next_timer w; delay := 2500%N;
                                 callback := ClearLoadingMessage |}]
  /\ next_timer w' = S (next_timer w).
Proof. cbn. auto 10. Qed.

Lemma timers_wf_without id w :
  timers_wf w ->
  timers_wf (with_timers (filter (fun t' => timer_id t' ≠ id) (timers w))
                         (next_timer w) w).
Proof.
  intros [Hnd Hlt]. split; cbn.
  - eapply sublist_NoDup; [exact Hnd|].
    apply fmap_sublist, sublist_filter.
  - intros t Ht. apply list_elem_of_filter in Ht as [_ Ht]. auto.
Qed.

Lemma preload_inv_timer n w t :
  (0 < n)%nat -> preload_inv n w -> t ∈ timers w ->
  is_completion (callback t) \/ callback t = ClearLoadingMessage ->
  preload_inv n (timerFired (timer_id t) w).
Proof.
  intros Hn (Hnp & Hwf & Hsub & Hbefore & Hat) Ht Hkind.
  rewrite (fired_timer w t Hwf Ht).
  pose proof (timers_wf_without (timer_id t) w Hwf) as Hwf'.
  set (w1 := with_timers _ _ w) in *.
  pose proof (size_le_pages _ _ Hsub) as Hle.
  destruct Hkind as [[loadTime Hc]|Hc]; rewrite Hc; cbn [fire].
  - destruct (completed loadTime w1) as (Hl & _ & Hset & Hnp' & Hts & Hnext).
    assert (Hfull : size (loadedPages (view w)) = n).
    { destruct (Nat.lt_ge_cases (size (loadedPages (view w))) n) as [Hlt|Hge];
        [|lia]. destruct (Hbefore Hlt) as [_ Hnone]. exfalso. apply Hnone.
      exists t. split; [exact Ht|]. exists loadTime. exact Hc. }
    unfold preload_inv. rewrite Hl, Hset, Hnp'.
    split; [exact Hnp|]. split.
    { unfold timers_wf. rewrite Hts, Hnext. eapply timers_wf_snoc; eauto. }
    split; [exact Hsub|]. split.
    + intros Hlt. change (loadedPages (view w1)) with (loadedPages (view w)) in Hlt. lia.
    + intros _ Hcontra. discriminate.
  - unfold preload_inv. cbn.
    split; [exact Hnp|]. split; [exact Hwf'|]. split; [exact Hsub|]. split.
    + intros Hlt. destruct (Hbefore Hlt) as [Hl Hnone]. split; [exact Hl|].
      intros (t' & Hin & Hc'). apply Hnone. exists t'. split; [|exact Hc'].
      cbn in Hin. apply list_elem_of_filter in Hin as [_ Hin]. exact Hin.
    + intros Hfull Hl. destruct (Hat Hfull Hl) as (t' & Hin & Hc').
      exists t'. split; [|exact Hc'].
      cbn. apply list_elem_of_filter. split; [|exact Hin].
      intros Hid. destruct Hwf as [Hnd _].
      rewrite (ids_determine_timer _ _ _ Hnd Hin Ht Hid) in Hc'.
      rewrite Hc in Hc'. destruct Hc' as [lt Hc']. discriminate.
Qed.

Lemma preloading_inv n w0 w :
  (0 < n)%nat -> preload_inv n w0 -> preloading n w0 w -> preload_inv n w.
Proof.
  intros Hn H0 Hreach. induction Hreach as [|w e _ IH He|w t _ IH Ht Hkind].
  - exact H0.
  - destruct (step_notification n e w He) as (p & now & Hp & ->).
    apply preload_inv_notify; assumption.
  - cbn [step]. apply preload_inv_timer; assumption.
Qed.

(** C4. Preloading ends through its success path exactly when every page
    has reported: in a run for a document of at least one page that
    begins while no completion callback of an earlier run is pending, and
    that the timeout, Skip and Cancel leave alone, the overlay stays up
    and no completion is scheduled while the set of reported pages has
    fewer than numPages elements; once it has numPages elements a
    completion callback is pending; and that callback, when it fires,
    takes the overlay down and shows the all-pages-ready message. *)
Theorem preload_completes_when_all_pages_rendered
    (n : nat) (now : Z) (memory : option MemoryInfo) (w_prev w : World) :
  (0 < n)%nat -> timers_wf w_prev -> ~ completion_pending w_prev ->
  preloading n (onDocumentLoadSuccess n now memory w_prev) w ->
  let loaded := size (loadedPages (view w)) in
  (loaded <= n)%nat
  /\ ((loaded < n)%nat ->
      isLoadingPdf (view w) = true /\ ~ completion_pending w)
  /\ (isLoadingPdf (view w) = false -> loaded = n)
  /\ (loaded = n -> isLoadingPdf (view w) = true -> completion_pending w)
  /\ (forall t, t ∈ timers w -> is_completion (callback t) ->
      let w' := step (TimerFired (timer_id t)) w in
      isLoadingPdf (view w') = false
      /\ exists loadTime, loadingMessage (view w') = all_pages_ready loadTime).
Proof.
  intros Hn Hwf Hnone Hreach loaded.
  assert (Hinv : preload_inv n w).
  { eapply preloading_inv; [exact Hn| |exact Hreach].
    apply preload_inv_start; assumption. }
  destruct Hinv as (Hnp & Hwf' & Hsub & Hbefore & Hat).
  pose proof (size_le_pages _ _ Hsub) as Hle.
  split; [exact Hle|]. split; [exact Hbefore|]. split.
  - intros Hdone.
    destruct (Nat.lt_ge_cases loaded n) as [Hlt|Hge]; [|subst loaded; lia].
    destruct (Hbefore Hlt) as [Hl _]. congruence.
  - split; [exact Hat|].
    intros t Ht [loadTime Hc] w'. subst w'. cbn [step].
    rewrite (fired_timer w t Hwf' Ht), Hc. cbn [fire].
    destruct (completed loadTime
                (with_timers (filter (fun t' => timer_id t' ≠ timer_id t) (timers w))
                             (next_timer w) w)) as (Hl & Hm & _).
    split; [exact Hl|]. exists loadTime. exact Hm.
Qed.

Lemma preload_completes_witness :
  let w0 := onDocumentLoadSuccess 2 1000 None pdf_chosen in
  let w := step (PageFailed 1 (Error "render") 1200)
             (step (PageRendered 2 1100) w0) in
  size (loadedPages (view w)) = 2%nat
  /\ isLoadingPdf (view w) = true
  /\ completion_pending w.
Proof.
  intros w0 w.
  assert (Hreach : preloading 2 w0 w).
  { apply preloading_notify; [apply preloading_notify|].
    - apply preloading_start.
    - cbn. lia.
    - cbn. lia. }
  assert (Hwf : timers_wf pdf_chosen).
  { split; [apply NoDup_nil_2|]. intros t Ht. inversion Ht. }
  assert (Hnone : ~ completion_pending pdf_chosen).
  { intros (t & Ht & _). inversion Ht. }
  destruct (preload_completes_when_all_pages_rendered
              2 1000 None pdf_chosen w ltac:(lia) Hwf Hnone Hreach)
    as (_ & _ & _ & Hat & _).
  assert (Hsize : size (loadedPages (view w)) = 2%nat) by (vm_compute; reflexivity).
  assert (Hl : isLoadingPdf (view w) = true) by reflexivity.
  split; [exact Hsize|]. split; [exact Hl|]. exact (Hat Hsize Hl).
Defined.

(** Without that condition the claim fails. The completion callback of a
    document of one page is still pending when a document of two pages is
    loaded 50 ms later; it fires in the new run and takes the overlay down
    with none of the two pages loaded. *)
Lemma earlier_completion_ends_next_run :
  let w0 := onDocumentLoadSuccess 2 1150 None second_pdf_chosen in
  let w := step (TimerFired 1) w0 in
  completion_pending second_pdf_chosen
  /\ preloading 2 w0 w
  /\ isLoadingPdf (view w0) = true
  /\ numPages (view w) = Some 2%nat
  /\ size (loadedPages (view w)) = 0%nat
  /\ isLoadingPdf (view w) = false
  /\ loadingMessage (view w) = "All pages ready! (0.1s total)"
  /\ ~ (isLoadingPdf (view w) = false -> size (loadedPages (view w)) = 2%nat).
Proof.
  intros w0 w.
  set (t := {| timer_id := 1%nat; delay := 200%N;
               callback := CompletePreload 100 |}).
  assert (Hprev : t ∈ timers second_pdf_chosen).
  { vm_compute. apply list_elem_of_In. right. left. reflexivity. }
  assert (Hin : t ∈ timers w0).
  { vm_compute. apply list_elem_of_In. right. left. reflexivity. }
  split; [exists t; split; [exact Hprev|exists 100; reflexivity]|].
  split.
  { change w with (step (TimerFired (timer_id t)) w0).
    apply preloading_timer; [apply preloading_start|exact Hin|].
    left. exists 100. reflexivity. }
  split; [reflexivity|]. split; [reflexivity|].
  assert (Hsize : size (loadedPages (view w)) = 0%nat) by (vm_compute; reflexivity).
  assert (Hdown : isLoadingPdf (view w) = false) by reflexivity.
  split; [exact Hsize|]. split; [exact Hdown|].
  split; [vm_compute; reflexivity|].
  intros H. specialize (H Hdown). rewrite Hsize in H. discriminate H.
Qed.

(** A notification keeps the gate open and can only enlarge the set. *)
Lemma gate_open_notify n p now w :
  (1 <= p <= n)%nat -> gate_open n w ->
  let w' := handlePageLoadSuccess p now w in
  gate_open n w'
  /\ (size (loadedPages (view w)) <= size (loadedPages (view w')))%nat.
Proof.
  intros Hp (Hl & Hn & Hsub) w'.
  destruct (notified_view p now w) as (Hset & Hl' & Hn' & _).
  fold w' in Hset, Hl', Hn'. split.
  - split; [congruence|]. split; [congruence|].
    rewrite Hset. apply union_subseteq. split; [|exact Hsub].
    apply singleton_subseteq_l, elem_of_pages_upto, Hp.
  - apply subseteq_size. rewrite Hset. apply union_subseteq_r.
Qed.

(** With the gate open, the state after a notification shows the progress
    of its own set. *)
Lemma shows_progress_notify n p now w :
  (0 < n)%nat -> Z.of_nat n < 2 ^ 53 -> (1 <= p <= n)%nat -> gate_open n w ->
  shows_progress n (handlePageLoadSuccess p now w).
Proof.
  intros Hn Hbig Hp Hgate.
  destruct (gate_open_notify n p now w Hp Hgate) as ((_ & _ & Hsub') & _).
  destruct Hgate as (Hl & Hnp & _).
  destruct (notified_view p now w) as (Hset & _).
  destruct n as [|n']; [lia|].
  destruct (notified_gate_open p now w n' Hl Hnp) as (Hprog & Hmsg & _).
  unfold shows_progress. rewrite Hset. cbv zeta.
  split; [exact Hprog|]. split; [exact Hmsg|].
  rewrite Hprog. apply Binary64Facts.progress_percent_bounds; [|lia|exact Hbig].
  rewrite <- Hset. apply size_le_pages, Hsub'.
Qed.

(** Along a sequence of notifications every state shows the progress of its
    set, no set is smaller than the one the sequence started from, and the
    progress values are sorted. *)
Lemma notifications_progress n events :
  (0 < n)%nat -> Z.of_nat n < 2 ^ 53 ->
  Forall (notification_for n) events ->
  forall w, gate_open n w ->
  Forall (fun w' => shows_progress n w' /\ gate_open n w'
                    /\ (size (loadedPages (view w))
                        <= size (loadedPages (view w')))%nat)
         (states events w)
  /\ StronglySorted Z.le
       (map (fun w' => loadingProgress (view w')) (states events w)).
Proof.
  intros Hn Hbig Hev. induction Hev as [|e events He _ IH]; intros w Hgate.
  - split; constructor.
  - cbn [states map].
    destruct (step_notification n e w He) as (p & now & Hp & Hstep).
    rewrite Hstep.
    destruct (gate_open_notify n p now w Hp Hgate) as (Hgate' & Hle).
    pose proof (shows_progress_notify n p now w Hn Hbig Hp Hgate) as Hshow.
    destruct (IH _ Hgate') as (Hall & Hsorted).
    split.
    + constructor; [auto|].
      eapply Forall_impl; [exact Hall|].
      cbv beta. intros w' (Hshow' & Hgate'' & Hle').
      split; [exact Hshow'|]. split; [exact Hgate''|]. lia.
    + constructor; [exact Hsorted|].
      apply Forall_map.
      eapply Forall_impl; [exact Hall|].
      cbv beta. intros w' ((Hprog' & _) & (_ & _ & Hsub') & Hle').
      destruct Hshow as (Hprog & _).
      rewrite Hprog, Hprog'.
      pose proof (size_le_pages _ _ Hsub') as Hbound.
      apply Binary64Facts.progress_percent_mono; try assumption; lia.
Qed.

(** C3. During a preloading run of a document of numPages pages, after
    every render notification the loading progress is
    Math.round((|loadedPages| / numPages) * 100) as handlePageLoadSuccess
    computes it in double precision, the quotient first; the loading message
    reports that count of loaded pages out of numPages with that
    percentage; every progress value lies in [0, 100]; and the values are
    non-decreasing over the sequence of notifications. *)
Theorem preload_progress_follows_loaded_pages
    (n : nat) (now : Z) (memory : option MemoryInfo) (w_prev : World)
    (events : list event) :
  (0 < n)%nat -> Z.of_nat n < 2 ^ 53 ->
  Forall (notification_for n) events ->
  let trace := states events (onDocumentLoadSuccess n now memory w_prev) in
  Forall (shows_progress n) trace
  /\ StronglySorted Z.le (map (fun w => loadingProgress (view w)) trace).
Proof.
  intros Hn Hbig Hev trace.
  assert (Hgate : gate_open n (onDocumentLoadSuccess n now memory w_prev)).
  { destruct (document_loaded n now memory w_prev) as (Hl & Hnp & Hset & _).
    split; [exact Hl|]. split; [exact Hnp|].
    rewrite Hset. apply empty_subseteq. }
  destruct (notifications_progress n events Hn Hbig Hev _ Hgate)
    as (Hall & Hsorted).
  split; [|exact Hsorted].
  eapply Forall_impl; [exact Hall|]. cbv beta. tauto.
Qed.

Lemma preload_progress_witness :
  let events := [PageRendered 2 1100; PageFailed 3 (Error "render") 1150;
                 PageRendered 2 1200; PageRendered 1 1300] in
  let trace := states events (onDocumentLoadSuccess 3 1000 None pdf_chosen) in
  Forall (shows_progress 3) trace
  /\ StronglySorted Z.le (map (fun w => loadingProgress (view w)) trace)
  /\ map (fun w => loadingProgress (view w)) trace = [33; 67; 67; 100].
Proof.
  intros events trace.
  assert (Hn : (0 < 3)%nat) by lia.
  assert (Hbig : Z.of_nat 3 < 2 ^ 53) by (vm_compute; reflexivity).
  assert (Hev : Forall (notification_for 3) events).
  { repeat constructor; cbn; lia. }
  destruct (preload_progress_follows_loaded_pages
              3 1000 None pdf_chosen events Hn Hbig Hev) as (Hall & Hsorted).
  split; [exact Hall|]. split; [exact Hsorted|].
  vm_compute. reflexivity.
Defined.

(** At 23 pages of 40 the overlay shows 57 per cent: the quotient 23 / 40
    rounds to a double just below 0.575, its product with 100 to one just
    below 57.5, and Math.round takes that down. The product first,
    100 * 23 / 40, is 57.5 exactly, and Math.round takes it up to 58. *)
Lemma progress_is_not_product_first :
  let w := run (pages_report 23) (onDocumentLoadSuccess 40 0 None pdf_chosen) in
  isLoadingPdf (view w) = true
  /\ numPages (view w) = Some 40%nat
  /\ size (loadedPages (view w)) = 23%nat
  /\ loadingProgress (view w) = 57
  /\ percent_product_first 23 40 = 58
  /\ loadingProgress (view w) <> percent_product_first 23 40.
Proof.
  vm_compute. repeat split; try reflexivity. discriminate.
Qed.

End PreloadFacts.

(* ===================================================================== *)
(** * Polling: what a status response does, and what Cancel does not *)
(* ===================================================================== *)

Module PollingFacts.
Import JsNumber Json JsString Viewer Polling.

#[local] Arguments pretty : simpl never.
#[local] Arguments String.append : simpl never.



(** Cancelling leaves the pending timers where they are. *)
Lemma cancel_keeps_timers w :
  timers (handleCancelGeneration w) = timers w.
Proof. reflexivity. Qed.

(** X15. Whatever poll is pending when generation is cancelled still
    fires: handleCancelGeneration leaves its timer in place, and the timer
    issues one more status check, for the task it was scheduled for. *)
Lemma pending_poll_survives_cancel w t text taskId :
  Preload.timers_wf w -> t ∈ timers w -> callback t = PollAgain text taskId ->
  let cancelled := handleCancelGeneration w in
  t ∈ timers cancelled
  /\ calls (step (TimerFired (timer_id t)) cancelled)
     = calls w ++ [CheckStatusCall taskId].
Proof.
  intros Hwf Ht Hc cancelled. split; [exact Ht|].
  cbn [step]. rewrite (PreloadFacts.fired_timer cancelled t Hwf Ht), Hc.
  reflexivity.
Qed.




End PollingFacts.

(* ===================================================================== *)
(** * OCR: what an extraction leaves behind *)
(* ===================================================================== *)

Module OcrFacts.
Import JsNumber Json JsString Viewer Ocr.

#[local] Arguments pretty : simpl never.
#[local] Arguments String.append : simpl never.

Lemma failed_response_rejected results :
  extraction_failed (Return results) ->
  OcrResponse.success results = false
  \/ (hasFormulas results = false /\ hasLatex results = false).
Proof.
  intros [Hs|[Hf Hl]]; [left; exact Hs|right].
  unfold hasFormulas, hasLatex.
  destruct Hf as [-> | ->], Hl as [-> | ->]; split; reflexivity.
Qed.

(** C7. When the extraction fails (the response has success false, or it
    lists no formulas and no non-empty latex, or the request throws),
    performOcrExtraction leaves ocrResults as they were and sets an error
    with a message and suggestions; and however the extraction ends,
    ocrLoading is false afterwards. The spinner is on while the request
    is out; without image data no request is made and nothing changes. *)
Theorem ocr_failure_leaves_results (selectionData : SelectionData)
    (preprocessingLevel : string) (env : OcrEnv)
    (outcome : completion OcrResponse.t) (w : World) :
  let started := performOcrExtraction selectionData preprocessingLevel w in
  let w' := performOcrExtraction_settled selectionData env outcome started in
  ocrLoading (view w') = false
  /\ (extraction_failed outcome ->
      ocrResults (view w') = ocrResults (view w)
      /\ has_message_and_suggestions (error (view w')))
  /\ (if truthy (imageData selectionData)
      then ocrLoading (view started) = true
           /\ ocrResults (view started) = ocrResults (view w)
      else started = w).
Proof.
  intros started w'. subst started w'.
  unfold performOcrExtraction_settled, performOcrExtraction. split; [|split].
  - destruct (truthy (imageData selectionData)); reflexivity.
  - intros Hfail.
    destruct outcome as [results|e].
    + apply failed_response_rejected in Hfail.
      cbn [bind]. unfold ocr_try.
      destruct Hfail as [Hs|[Hf Hl]].
      * rewrite Hs.
        destruct (truthy (imageData selectionData)); cbn;
          (split; [reflexivity|]);
          eexists; (split; [reflexivity|]); split; discriminate.
      * rewrite Hf, Hl.
        destruct (OcrResponse.success results),
                 (truthy (imageData selectionData)); cbn;
          (split; [reflexivity|]);
          eexists; (split; [reflexivity|]); split; discriminate.
    + destruct (truthy (imageData selectionData)); cbn;
        (split; [reflexivity|]);
        eexists; (split; [reflexivity|]); split; discriminate.
  - destruct (truthy (imageData selectionData)); cbn; auto.
Qed.

Lemma digit_is_no_dash x : Ascii.eqb (pretty_N_char x) "-" = false.
Proof. unfold pretty_N_char. repeat case_match; reflexivity. Qed.

Lemma pretty_N_go_no_dash x : forall s,
  has_dash s = false -> has_dash (pretty_N_go x s) = false.
Proof.
  induction (N.lt_wf_0 x) as [x _ IH]. intros s Hs.
  destruct (N.eq_dec x 0%N) as [->|Hpos].
  - rewrite pretty_N_go_0. exact Hs.
  - rewrite pretty_N_go_step by lia.
    apply IH.
    + apply N.div_lt; lia.
    + cbn. rewrite digit_is_no_dash. exact Hs.
Qed.

Lemma pretty_N_no_dash (x : N) : has_dash (pretty x) = false.
Proof.
  unfold pretty, pretty_N. case_decide; [reflexivity|].
  apply pretty_N_go_no_dash. reflexivity.
Qed.

Lemma pretty_nat_no_dash (n : nat) : has_dash (pretty n) = false.
Proof. apply pretty_N_no_dash. Qed.

Lemma split_at_dash a : forall a' b b',
  has_dash a = false -> has_dash a' = false ->
  a +:+ "-" +:+ b = a' +:+ "-" +:+ b' -> a = a' /\ b = b'.
Proof.
  induction a as [|c a IH]; intros [|c' a'] b b' Ha Ha' Heq; cbn in *.
  - injection Heq as Hb. auto.
  - injection Heq as Hc _. subst c'. cbn in Ha'. discriminate.
  - injection Heq as Hc _. subst c. cbn in Ha. discriminate.
  - injection Heq as Hc Heq. subst c'.
    apply orb_false_elim in Ha as [_ Ha]. apply orb_false_elim in Ha' as [_ Ha'].
    destruct (IH a' b b' Ha Ha' Heq) as [Haa Hbb]. subst. auto.
Qed.

Lemma ocr_ids_distinct selectionData env fs :
  NoDup (map OcrResult.id (newOcrResults selectionData env fs)).
Proof.
  apply NoDup_alt. intros i j ident Hi Hj.
  unfold newOcrResults in *.
  change (map OcrResult.id ?l) with (OcrResult.id <$> l) in *.
  rewrite list_lookup_fmap, list_lookup_imap in Hi, Hj.
  destruct (fs !! i) as [fi|]; [|discriminate].
  destruct (fs !! j) as [fj|]; [|discriminate].
  cbn in Hi, Hj. injection Hi as Hi. injection Hj as Hj.
  rewrite <- Hj in Hi. clear Hj.
  cbn in Hi. injection Hi as Hi.
  apply split_at_dash in Hi as [_ Hi]; try apply pretty_N_no_dash.
  apply (inj pretty) in Hi. exact Hi.
Qed.


Lemma nonempty_formulas_accepted results f fs :
  formulasArray results = f :: fs ->
  negb (hasFormulas results) && negb (hasLatex results) = false.
Proof.
  unfold formulasArray.
  destruct (hasFormulas results); [reflexivity|].
  destruct (hasLatex results); [reflexivity|discriminate].
Qed.

(** X17. A successful extraction whose first formula is a string appends
    one result per formula, each with an id of its own, keeps the earlier
    results, and opens the panel, not minimized, on the first formula. *)
Lemma ocr_string_formulas_appended selectionData env results first rest w :
  OcrResponse.success results = true ->
  formulasArray results = FormulaString first :: rest ->
  let w' := performOcrExtraction_settled selectionData env (Return results) w in
  let added := newOcrResults selectionData env (formulasArray results) in
  ocrResults (view w') = ocrResults (view w) ++ added
  /\ length added = length (formulasArray results)
  /\ NoDup (map OcrResult.id added)
  /\ showOcrPanel (view w') = true
  /\ ocrPanelMinimized (view w') = false
  /\ LatestOcrResult.latex <$> latestOcrResult (view w')
     = Some (FormulaString first).
Proof.
  intros Hs Hfs w' added. subst w' added.
  unfold performOcrExtraction_settled. cbn [bind]. unfold ocr_try.
  rewrite Hs, (nonempty_formulas_accepted _ _ _ Hfs), Hfs. cbn [negb].
  split; [reflexivity|]. split.
  - unfold newOcrResults. apply length_imap.
  - split; [apply ocr_ids_distinct|]. repeat split.
Qed.

(** C8. What the code does with a successful extraction whose formula is
    an object: the success log calls substring on it, the TypeError lands
    in the catch block, no result is appended, the panel stays closed and
    an OCR Processing Error is shown. *)
Theorem ocr_object_formula_adds_nothing :
  let w' := performOcrExtraction_settled sample_selection sample_env
              (Return object_formula_response)
              (performOcrExtraction sample_selection "moderate" ocr_mode_on) in
  OcrResponse.success object_formula_response = true
  /\ length (formulasArray object_formula_response) = 1%nat
  /\ ocrResults (view w') = []
  /\ showOcrPanel (view w') = false
  /\ latestOcrResult (view w') = None
  /\ ocrLoading (view w') = false
  /\ (ErrorInfo.message <$> error (view w')) = Some "OCR Processing Error".
Proof.
  intros w'. repeat split.
Qed.

End OcrFacts.

(* ===================================================================== *)
(** * Nothing outlives the page *)
(* ===================================================================== *)

Module FrameFacts.
Import JsNumber Json JsString Viewer.

#[local] Arguments pretty : simpl never.
#[local] Arguments String.append : simpl never.
#[local] Arguments progress_percent : simpl never.
#[local] Arguments toFixed1 : simpl never.
#[local] Arguments Math_round : simpl never.
#[local] Arguments encodeURIComponent : simpl never.
#[local] Arguments trim : simpl never.
#[local] Arguments JsNumber.mul : simpl never.
#[local] Arguments JsNumber.div : simpl never.
#[local] Arguments JsNumber.of_Z : simpl never.
#[local] Arguments JsNumber.ltb : simpl never.

(** Unfold a handler down to the primitives that build its world. *)
Ltac unfold_handlers :=
  unfold handleFileChange, onDocumentLoadSuccess, preloadAllPages,
    checkMemoryUsage, Page_onLoadSuccess, Page_onLoadError,
    handlePageLoadSuccess, resolve_page, skipPreloading, cancelLoading,
    completePreload, preloadTimeout, showLatexVideo,
    zoomIn, zoomOut, handleVisualize, handleVisualize_settled,
    pollGenerationStatus_settled, showCompleted, pollGenerationStatus,
    handleCancelGeneration, toggleOcrMode, handleOcrSelection,
    performOcrExtraction, performOcrExtraction_settled,
    handleRemoveOcrButton, visualizeLatex, visualizeLatex_settled,
    generation_failed, copyLatex, showVideos, showVideos_settled,
    openGalleryVideo, downloadGalleryVideo, checkBackend, checkOcrBackend,
    click, timerFired.

Lemma fire_keeps_storage a w : storage (fire a w) = storage w.
Proof.
  destruct a; cbn [fire]; unfold_handlers; repeat case_match; reflexivity.
Qed.

Lemma step_keeps_storage e w : storage (step e w) = storage w.
Proof.
  destruct e; cbn [step]; unfold_handlers; repeat case_match;
    rewrite ?fire_keeps_storage; reflexivity.
Qed.

Lemma run_snoc events e w : run (events ++ [e]) w = step e (run events w).
Proof. unfold run. rewrite fold_left_app. reflexivity. Qed.

(** The handlers leave the store of the model alone: after any sequence
    of events the stored data is what it was, and a page opened afterwards
    starts from the initial state with nothing pending. The embedding has
    this by construction, no handler of the source naming a store. *)
Theorem viewer_state_is_ephemeral (events : list event) (w : World) :
  storage (run events w) = storage w
  /\ view (mount (storage (run events w))) = initialState
  /\ mount (storage (run events w)) = mount (storage w).
Proof.
  assert (Hkept : storage (run events w) = storage w).
  { induction events as [|e events IH] using rev_ind.
    - reflexivity.
    - rewrite run_snoc, step_keeps_storage. exact IH. }
  split; [exact Hkept|]. split; [reflexivity|].
  rewrite Hkept. reflexivity.
Qed.

End FrameFacts.

(* ===================================================================== *)
(** * Strings *)
(* ===================================================================== *)

Module StringFacts.
Import JsString.

Lemma code_units_byte n :
  (n < 256)%nat ->
  code_units (ascii_of_nat n)
  = if (n <? 128)%nat then 1%nat
    else if (n <? 192)%nat then 0%nat
    else if (n <? 240)%nat then 1%nat else 2%nat.
Proof.
  intros Hn. unfold code_units. rewrite nat_ascii_embedding by exact Hn.
  reflexivity.
Qed.

(** A high surrogate is one code unit. *)
Lemma utf16_length_high_surrogate s : utf16_length (high_surrogate s) = 1%nat.
Proof.
  unfold high_surrogate.
  set (w := (byte_at 0 s mod 8 * 256 + byte_at 1 s mod 64 * 4
             + byte_at 2 s mod 64 / 16 - 64)%nat).
  assert (Hw : (w < 2048)%nat).
  { pose proof (Nat.mod_upper_bound (byte_at 0 s) 8 ltac:(lia)).
    pose proof (Nat.mod_upper_bound (byte_at 1 s) 64 ltac:(lia)).
    pose proof (Nat.mod_upper_bound (byte_at 2 s) 64 ltac:(lia)).
    assert ((byte_at 2 s mod 64 / 16 <= 3)%nat).
    { apply Nat.lt_succ_r, Nat.Div0.div_lt_upper_bound. lia. }
    subst w. lia. }
  assert (Hq : (w / 64 < 32)%nat) by (apply Nat.Div0.div_lt_upper_bound; lia).
  pose proof (Nat.mod_upper_bound w 64 ltac:(lia)) as Hr.
  cbn [utf16_length].
  rewrite !code_units_byte by lia.
  destruct (160 + w / 64 <? 128)%nat eqn:H1; [apply Nat.ltb_lt in H1; lia|].
  destruct (160 + w / 64 <? 192)%nat eqn:H2; [|apply Nat.ltb_ge in H2; lia].
  destruct (128 + w mod 64 <? 128)%nat eqn:H3; [apply Nat.ltb_lt in H3; lia|].
  destruct (128 + w mod 64 <? 192)%nat eqn:H4; [|apply Nat.ltb_ge in H4; lia].
  reflexivity.
Qed.

Lemma code_units_le c : (code_units c <= 2)%nat.
Proof.
  unfold code_units.
  repeat match goal with |- context [if ?b then _ else _] => destruct b end; lia.
Qed.

(** [s.substring(0, n).length] is [Math.min(n, s.length)]. *)
Lemma substring0_length s : forall n,
  utf16_length (substring0 n s) = Nat.min n (utf16_length s).
Proof.
  induction s as [|c r IH]; intros n; [cbn; lia|].
  cbn [substring0 utf16_length]. cbv zeta.
  pose proof (code_units_le c) as Hk.
  destruct (code_units c =? 0)%nat eqn:H0.
  - apply Nat.eqb_eq in H0. cbn [utf16_length]. rewrite IH, H0. reflexivity.
  - apply Nat.eqb_neq in H0.
    destruct (code_units c <=? n)%nat eqn:H1.
    + apply Nat.leb_le in H1. cbn [utf16_length]. rewrite IH. lia.
    + apply Nat.leb_gt in H1.
      destruct (n =? 0)%nat eqn:H2.
      * apply Nat.eqb_eq in H2. subst n. reflexivity.
      * apply Nat.eqb_neq in H2. rewrite utf16_length_high_surrogate. lia.
Qed.

(** A string of at most [n] code units is its own [substring(0, n)]. *)
Lemma substring0_all s : forall n,
  (utf16_length s <= n)%nat -> substring0 n s = s.
Proof.
  induction s as [|c r IH]; intros n Hle; [reflexivity|].
  cbn [substring0 utf16_length] in *. cbv zeta.
  destruct (code_units c =? 0)%nat eqn:H0.
  - apply Nat.eqb_eq in H0. rewrite IH by lia. reflexivity.
  - destruct (code_units c <=? n)%nat eqn:H1.
    + apply Nat.leb_le in H1. rewrite IH by lia. reflexivity.
    + apply Nat.leb_gt in H1. lia.
Qed.

(** [s.substring(0, n)] is a part of [s] that [s] begins with, followed,
    where the cut splits a character, by the first code unit of that
    character. *)
Lemma substring0_prefix s : forall n,
  exists kept rest,
    s = kept +:+ rest
    /\ (substring0 n s = kept
        \/ substring0 n s = kept +:+ high_surrogate rest).
Proof.
  induction s as [|c r IH]; intros n.
  - exists "", "". split; [reflexivity|left; reflexivity].
  - cbn [substring0]. cbv zeta.
    destruct (code_units c =? 0)%nat.
    + destruct (IH n) as (kept & rest & Hs & Hcut).
      exists (String c kept), rest.
      change (String c kept +:+ rest) with (String c (kept +:+ rest)).
      rewrite <- Hs.
      split; [reflexivity|].
      destruct Hcut as [->| ->]; [left|right]; reflexivity.
    + destruct (code_units c <=? n)%nat.
      * destruct (IH (n - code_units c)%nat) as (kept & rest & Hs & Hcut).
        exists (String c kept), rest.
      change (String c kept +:+ rest) with (String c (kept +:+ rest)).
      rewrite <- Hs.
        split; [reflexivity|].
        destruct Hcut as [->| ->]; [left|right]; reflexivity.
      * exists "", (String c r). split; [reflexivity|].
        destruct (n =? 0)%nat; [left|right]; reflexivity.
Qed.

Lemma length_append s : forall t,
  utf16_length (s +:+ t) = (utf16_length s + utf16_length t)%nat.
Proof.
  induction s as [|c s IH]; intros t; [reflexivity|].
  change (String c s +:+ t) with (String c (s +:+ t)).
  cbn [utf16_length]. rewrite IH. lia.
Qed.

Lemma append_empty s : s +:+ "" = s.
Proof.
  induction s as [|c s IH]; [reflexivity|].
  change (String c s +:+ "") with (String c (s +:+ "")). rewrite IH. reflexivity.
Qed.

End StringFacts.

(* ===================================================================== *)
(** * The rest of the API client *)
(* ===================================================================== *)

Module ApiRestFacts.
Import JsNumber Json JsString Api Viewer ApiRest.

#[local] Arguments pretty : simpl never.
#[local] Arguments String.append : simpl never.

(** What the two health checks return. *)
Lemma health_checks (fetch : network) :
  (forall response data,
     fetch health_request = Return response ->
     body response = Return data ->
     checkSetup fetch = Return data /\ ocr_checkStatus fetch = Return data)
  /\ ((throws (fetch health_request)
       \/ exists response, fetch health_request = Return response
                           /\ throws (body response)) ->
      checkSetup fetch = Return (unavailable "Backend unavailable")
      /\ ocr_checkStatus fetch = Return (unavailable "OCR backend unavailable")).
Proof.
  unfold checkSetup, ocr_checkStatus.
  destruct (fetch health_request) as [response|e] eqn:Hf; cbn [bind].
  - destruct (body response) as [data|e] eqn:Hb.
    + split.
      * intros r d Hr Hd. injection Hr as <-. rewrite Hb in Hd.
        injection Hd as <-. auto.
      * intros [[e He]|(r & Hr & e & He)]; [discriminate|].
        injection Hr as <-. rewrite Hb in He. discriminate.
    + split.
      * intros r d Hr Hd. injection Hr as <-. rewrite Hb in Hd. discriminate.
      * auto.
  - split.
    + intros r d Hr. discriminate.
    + auto.
Qed.

(** X4. The two health checks of the API client never throw. Whatever
    the HTTP status of the answer to /health, a body that parses is
    returned as it is, response.ok not being looked at; a rejected request
    or a body that does not parse is answered with the stand-in object
    { status: 'error', message: '... unavailable' }. *)
Theorem health_checks_never_throw (fetch : network) :
  (exists data, checkSetup fetch = Return data)
  /\ (exists data, ocr_checkStatus fetch = Return data)
  /\ (forall response data,
        fetch health_request = Return response ->
        body response = Return data ->
        checkSetup fetch = Return data /\ ocr_checkStatus fetch = Return data)
  /\ ((throws (fetch health_request)
       \/ exists response, fetch health_request = Return response
                           /\ throws (body response)) ->
      checkSetup fetch = Return (unavailable "Backend unavailable")
      /\ ocr_checkStatus fetch = Return (unavailable "OCR backend unavailable")).
Proof.
  destruct (health_checks fetch) as (Hbody & Hfail).
  split; [|split; [|split; [exact Hbody|exact Hfail]]].
  - unfold checkSetup. destruct (bind _ _); eauto.
  - unfold ocr_checkStatus. destruct (bind _ _); eauto.
Qed.

(** X5. generateFromLatex throws exactly when its request fails and
    otherwise returns the parsed body as it is. On a response that is not
    ok it always throws: with the error string of the body when the body
    has a non-empty one, and with 'HTTP error! status: N' when the body
    does not parse or has no error field. *)
Theorem generateFromLatex_outcomes (number_text : number -> string)
    (fetch : network) (latexContent : json) (opts : options) :
  let r := fetch (generateFromLatex_request latexContent opts) in
  let result := generateFromLatex number_text fetch latexContent opts in
  (throws result <-> request_failed r)
  /\ (forall data, delivered r data -> result = Return data)
  /\ (forall response,
        r = Return response -> ok response = false ->
        (forall data text,
           body response = Return data ->
           get data "error" = Return (Some (JStr text)) -> text <> "" ->
           result = Throw (Error text))
        /\ (throws (body response)
            \/ (exists data, body response = Return data
                             /\ get data "error" = Return None) ->
            result = Throw (Error ("HTTP error! status: " +:+
                                   pretty (status response))))).
Proof.
  intros r result. subst r result. unfold generateFromLatex.
  destruct (fetch _) as [response|e] eqn:Hf; cbn [bind].
  - destruct (ok response) eqn:Hok; cbn [negb].
    + destruct (body response) as [data|e] eqn:Hb; cbn [bind].
      * split.
        { split; [intros [e He]; discriminate|].
          cbn. rewrite Hok, Hb. intros [?|[e He]]; discriminate. }
        split.
        { intros d (r & Hr & _ & Hd). injection Hr as <-.
          rewrite Hb in Hd. injection Hd as <-. reflexivity. }
        intros r Hr Hnok. injection Hr as <-. congruence.
      * split.
        { split; [|unfold throws; eauto].
          intros _. cbn. right. rewrite Hb. unfold throws. eauto. }
        split.
        { intros d (r & Hr & _ & Hd). injection Hr as <-.
          rewrite Hb in Hd. discriminate. }
        intros r Hr Hnok. injection Hr as <-. congruence.
    + split.
      { split; [intros _; cbn; left; exact Hok|].
        intros _. destruct (get _ "error") as [v|e]; cbn [bind];
          unfold throws; eauto. }
      split.
      { intros d (r & Hr & Hrok & _). injection Hr as <-. congruence. }
      intros r Hr _. injection Hr as <-. split.
      * intros data text Hb Hget Htext. rewrite Hb, Hget. cbn [bind].
        destruct text; [congruence|]. reflexivity.
      * intros [[e He]|(data & Hb & Hget)].
        -- rewrite He. reflexivity.
        -- rewrite Hb, Hget. reflexivity.
  - split.
    { split; [intros _; exact I|unfold throws; eauto]. }
    split.
    { intros d (r & Hr & _). discriminate. }
    intros r Hr. discriminate.
Qed.

(** X6. ocrAPI.listVideos throws exactly when its request fails (the
    fetch is rejected, the response is not ok, or the body does not parse)
    and otherwise returns the parsed body as it is; on a response that is
    not ok the error reads 'HTTP error! status: N'. *)
Theorem ocr_listVideos_throws_iff (fetch : network) :
  let r := fetch listVideos_request in
  (throws (ocr_listVideos fetch) <-> request_failed r)
  /\ (forall data, delivered r data -> ocr_listVideos fetch = Return data)
  /\ (forall response, r = Return response -> ok response = false ->
        ocr_listVideos fetch
        = Throw (Error ("HTTP error! status: " +:+ pretty (status response)))).
Proof.
  intros r. subst r. unfold ocr_listVideos.
  destruct (fetch _) as [response|e] eqn:Hf; cbn [bind].
  - destruct (ok response) eqn:Hok; cbn [negb].
    + destruct (body response) as [data|e] eqn:Hb; cbn [bind].
      * split.
        { split; [intros [e He]; discriminate|].
          cbn. rewrite Hok, Hb. intros [?|[e He]]; discriminate. }
        split.
        { intros d (r & Hr & _ & Hd). injection Hr as <-.
          rewrite Hb in Hd. injection Hd as <-. reflexivity. }
        intros r Hr Hnok. injection Hr as <-. congruence.
      * split.
        { split; [|unfold throws; eauto].
          intros _. cbn. right. rewrite Hb. unfold throws. eauto. }
        split.
        { intros d (r & Hr & _ & Hd). injection Hr as <-.
          rewrite Hb in Hd. discriminate. }
        intros r Hr Hnok. injection Hr as <-. congruence.
    + split.
      { split; [intros _; cbn; left; exact Hok|unfold throws; eauto]. }
      split.
      { intros d (r & Hr & Hrok & _). injection Hr as <-. congruence. }
      intros r Hr _. injection Hr as <-. reflexivity.
  - split.
    { split; [intros _; exact I|unfold throws; eauto]. }
    split.
    { intros d (r & Hr & _). discriminate. }
    intros r Hr. discriminate.
Qed.

End ApiRestFacts.

(* ===================================================================== *)
(** * Download links *)
(* ===================================================================== *)

Module UrlFacts.
Import JsNumber Json JsString Api Viewer ApiRest UrlDefs.

#[local] Arguments Nat.div : simpl never.
#[local] Arguments Nat.modulo : simpl never.







End UrlFacts.

(* ===================================================================== *)
(** * The health checks *)
(* ===================================================================== *)

Module StartupFacts.
Import JsNumber Json JsString Api Viewer ApiRest Startup.

#[local] Arguments pretty : simpl never.

Lemma backend_state_cases service data :
  (data = JNull /\ throws (backend_state service data))
  \/ (data <> JNull
      /\ ((offers service data /\ backend_state service data = Return "ready")
          \/ (~ offers service data
              /\ backend_state service data = Return "error"))).
Proof.
  destruct data as [| b | x | s | items | fields];
    try (right; split; [discriminate|]; right; split;
         [intros (sv & fl & H & _); discriminate H|reflexivity]).
  - left. split; [reflexivity|]. unfold throws. cbn. eauto.
  - right. split; [discriminate|].
    unfold backend_state, offers. cbn [get bind].
    destruct (assoc "status" fields) as [state|] eqn:Hst; cbn [is_healthy].
    2:{ right. split; [|reflexivity]. intros (sv & fl & H & _). discriminate H. }
    destruct state as [| b | x | s | items | fs];
      try (right; split; [intros (sv & fl & H & _); discriminate H|reflexivity]).
    destruct (String.eqb s "healthy") eqn:Hs.
    2:{ right. split; [|reflexivity]. intros (sv & fl & H & _).
        injection H as H. subst s. discriminate Hs. }
    apply String.eqb_eq in Hs. subst s.
    destruct (assoc "services" fields) as [services|] eqn:Hsv; cbn [truthy_field].
    2:{ right. split; [|reflexivity]. intros (sv & fl & _ & H & _). discriminate H. }
    destruct (json_truthy services) eqn:Htr.
    2:{ right. split; [|reflexivity]. intros (sv & fl & _ & H & Hfl & _).
        injection H as <-. destruct services; cbn in Htr, Hfl; try discriminate. }
    change (default JNull (Some services)) with services.
    destruct (get services service) as [flag|e] eqn:Hfl; cbn [bind].
    2:{ destruct services; cbn in Htr, Hfl; discriminate. }
    destruct flag as [flag|]; cbn [truthy_field].
    2:{ right. split; [|reflexivity]. intros (sv & fl & _ & H & Hfl' & _).
        injection H as <-. rewrite Hfl in Hfl'. discriminate. }
    destruct (json_truthy flag) eqn:Hfltr.
    + left. split; [|reflexivity]. exists services, flag. auto.
    + right. split; [|reflexivity]. intros (sv & fl & _ & H & Hfl' & Htr').
      injection H as <-. rewrite Hfl in Hfl'. injection Hfl' as <-. congruence.
Qed.

Lemma health_cases fetch :
  (health_failed fetch /\ forall data, ~ health_body fetch data)
  \/ (exists data, health_body fetch data /\ ~ health_failed fetch
                   /\ forall data', health_body fetch data' -> data' = data).
Proof.
  unfold health_failed, health_body.
  destruct (fetch health_request) as [response|e] eqn:Hf.
  - destruct (body response) as [data|e] eqn:Hb.
    + right. exists data. split; [eauto|]. split.
      * intros [[e He]|(r & Hr & e & He)]; [discriminate|].
        injection Hr as <-. congruence.
      * intros d (r & Hr & Hd). injection Hr as <-. congruence.
    + left. split.
      * right. exists response. split; [reflexivity|]. unfold throws. eauto.
      * intros d (r & Hr & Hd). injection Hr as <-. congruence.
  - left. split; [left; unfold throws; eauto|].
    intros d (r & Hr & _). discriminate.
Qed.

Lemma status_of_health service fallback fetch check :
  (forall data, health_body fetch data -> check = Return data) ->
  (health_failed fetch -> check = Return (unavailable fallback)) ->
  let s := state_or_offline (bind check (backend_state service)) in
  (s = "offline" <-> health_body fetch JNull)
  /\ (s = "ready" <-> exists data, health_body fetch data /\ offers service data)
  /\ (health_failed fetch -> s = "error")
  /\ (s = "ready" \/ s = "error" \/ s = "offline").
Proof.
  intros Hbody Hfail s. subst s.
  destruct (health_cases fetch) as [[Hf Hno]|(data & Hd & Hnf & Huniq)].
  - rewrite (Hfail Hf). cbn.
    split; [split; [discriminate|intros H; destruct (Hno _ H)]|].
    split; [split; [discriminate|intros (d & H & _); destruct (Hno _ H)]|].
    auto.
  - rewrite (Hbody _ Hd). cbn [bind].
    destruct (backend_state_cases service data)
      as [[-> [e He]]|[Hnn [[Hoff ->]|[Hnoff ->]]]]; cbn [state_or_offline].
    + rewrite He. cbn.
      split; [split; auto|]. split.
      * split; [discriminate|]. intros (d & H & (sv & fl & Hst & _)).
        apply Huniq in H. subst d. discriminate Hst.
      * split; [intros H; destruct (Hnf H)|auto].
    + split.
      * split; [discriminate|]. intros H. apply Huniq in H. congruence.
      * split; [split; eauto|]. split; [intros H; destruct (Hnf H)|auto].
    + split.
      * split; [discriminate|]. intros H. apply Huniq in H. congruence.
      * split.
        -- split; [discriminate|]. intros (d & H & Hoff).
           apply Huniq in H. subst d. contradiction.
        -- split; [auto|auto].
Qed.

(** X8. What the two health checks of the mount effect leave in
    backendStatus and ocrBackendStatus. The status is 'ready' exactly when
    the body of /health has status 'healthy' and a truthy services.manim
    (services.ocr for the OCR check); it is 'offline' exactly when the body
    is the JSON value null; and a backend that cannot be reached, or that
    answers with a body that does not parse, gives 'error', not
    'offline'. *)
Theorem backend_status_after_checks (fetch : network) (w : World) :
  let manim := backendStatus (view (Startup.checkBackend fetch w)) in
  let ocr := ocrBackendStatus (view (Startup.checkOcrBackend fetch w)) in
  ((manim = "offline" <-> health_body fetch JNull)
   /\ (manim = "ready" <->
       exists data, health_body fetch data /\ offers "manim" data)
   /\ (health_failed fetch -> manim = "error")
   /\ (manim = "ready" \/ manim = "error" \/ manim = "offline"))
  /\ ((ocr = "offline" <-> health_body fetch JNull)
      /\ (ocr = "ready" <->
          exists data, health_body fetch data /\ offers "ocr" data)
      /\ (health_failed fetch -> ocr = "error")
      /\ (ocr = "ready" \/ ocr = "error" \/ ocr = "offline")).
Proof.
  intros manim ocr. subst manim ocr.
  destruct (ApiRestFacts.health_checks fetch) as (Hbody & Hfail).
  split.
  - apply (status_of_health "manim" "Backend unavailable").
    + intros data (r & Hr & Hb). apply (Hbody r data Hr Hb).
    + intros Hf. apply Hfail, Hf.
  - apply (status_of_health "ocr" "OCR backend unavailable").
    + intros data (r & Hr & Hb). apply (Hbody r data Hr Hb).
    + intros Hf. apply Hfail, Hf.
Qed.

End StartupFacts.

(* ===================================================================== *)
(** * Preloading: the timeout, Skip and Cancel *)
(* ===================================================================== *)

Module RunFacts.
Import JsNumber Json JsString Viewer Preload Runs.
Import PreloadFacts.

#[local] Set Warnings "-clear-no-such-hyp".
#[local] Arguments progress_percent : simpl never.
#[local] Arguments pretty : simpl never.
#[local] Arguments toFixed1 : simpl never.
#[local] Arguments String.append : simpl never.

(** What a notification does to the refs. *)
Lemma notified_refs p now w :
  let w' := handlePageLoadSuccess p now w in
  preloadRun w' = preloadRun w
  /\ pageLoadPromises w' = pageLoadPromises w ∖ {[p]}
  /\ settledRuns w' =
       (if bool_decide (p ∈ pageLoadPromises w)
        then if bool_decide (pageLoadPromises w ∖ {[p]} = ∅)
             then {[preloadRun w]} ∪ settledRuns w else settledRuns w
        else settledRuns w).
Proof.
  unfold handlePageLoadSuccess, resolve_page.
  destruct (isLoadingPdf (view w)), (numPages (view w)) as [[|n']|];
    try destruct (Nat.eqb _ _); cbn;
    repeat case_bool_decide; cbn; repeat split; try reflexivity;
    try (symmetry; apply difference_disjoint_L, disjoint_singleton_r;
         assumption); try contradiction.
Qed.

(** A notification keeps the pending timers and hands out ids in order. *)
Lemma notified_timers p now w :
  timers_wf w ->
  let w' := handlePageLoadSuccess p now w in
  timers_wf w' /\ (forall t, t ∈ timers w -> t ∈ timers w').
Proof.
  intros Hwf w'. subst w'.
  unfold handlePageLoadSuccess, resolve_page.
  destruct (isLoadingPdf (view w)), (numPages (view w)) as [[|n']|];
    try destruct (Nat.eqb _ _); cbn;
    repeat case_bool_decide; cbn;
    (split; [|intros t Ht; try apply elem_of_app; auto]);
    try exact Hwf;
    (unfold timers_wf; cbn; eapply timers_wf_snoc; eauto).
Qed.

(** The callbacks of the success path leave the refs and the set of loaded
    pages alone, and every other timer pending. *)
Lemma quiet_timer w t :
  timers_wf w -> t ∈ timers w ->
  is_completion (callback t) \/ callback t = ClearLoadingMessage ->
  let w' := timerFired (timer_id t) w in
  preloadRun w' = preloadRun w
  /\ pageLoadPromises w' = pageLoadPromises w
  /\ settledRuns w' = settledRuns w
  /\ loadedPages (view w') = loadedPages (view w)
  /\ loadingProgress (view w') = loadingProgress (view w)
  /\ timers_wf w'
  /\ (forall t', t' ∈ timers w -> timer_id t' ≠ timer_id t -> t' ∈ timers w').
Proof.
  intros Hwf Ht Hkind w'. subst w'.
  rewrite (fired_timer w t Hwf Ht).
  pose proof (timers_wf_without (timer_id t) w Hwf) as Hwf'.
  set (w1 := with_timers _ _ w) in *.
  destruct Hkind as [[loadTime Hc]|Hc]; rewrite Hc; cbn [fire].
  - destruct (completed loadTime w1) as (_ & _ & _ & _ & Hts & Hnext).
    do 5 (split; [reflexivity|]). split.
    + unfold timers_wf. rewrite Hts, Hnext. eapply timers_wf_snoc; eauto.
    + intros t' Hin Hid. rewrite Hts. apply elem_of_app. left.
      apply list_elem_of_filter. auto.
  - do 5 (split; [reflexivity|]). split; [exact Hwf'|].
    intros t' Hin Hid. cbn. apply list_elem_of_filter. auto.
Qed.

Lemma run_cons e events w : run (e :: events) w = run events (step e w).
Proof. reflexivity. Qed.

Lemma run_refs_start n now memory w :
  (0 < n)%nat -> runs_wf w ->
  run_refs n (S (preloadRun w)) (onDocumentLoadSuccess n now memory w).
Proof.
  intros Hn Hfresh.
  destruct (document_loaded n now memory w) as (_ & _ & Hset & _).
  assert (Hrefs : preloadRun (onDocumentLoadSuccess n now memory w) = S (preloadRun w)
          /\ pageLoadPromises (onDocumentLoadSuccess n now memory w) = pages_upto n
          /\ settledRuns (onDocumentLoadSuccess n now memory w) = settledRuns w).
  { unfold onDocumentLoadSuccess, preloadAllPages.
    destruct n as [|n']; [lia|]. cbn. auto. }
  destruct Hrefs as (Hr & Hp & Hs).
  split; [exact Hr|]. split.
  - rewrite Hp, Hset. symmetry. apply difference_empty_L.
  - rewrite Hs, Hp. split.
    + intros Hin. apply Hfresh in Hin. lia.
    + intros Hempty. exfalso.
      assert (H1 : 1%nat ∈ pages_upto n) by (apply elem_of_pages_upto; lia).
      rewrite Hempty in H1. set_solver.
Qed.

Lemma run_refs_notify n r p now w :
  run_refs n r w -> run_refs n r (handlePageLoadSuccess p now w).
Proof.
  intros (Hr & Hp & Hs).
  destruct (notified_refs p now w) as (Hr' & Hp' & Hs').
  destruct (notified_view p now w) as (Hset & _).
  split; [congruence|]. split.
  - rewrite Hp', Hset, Hp. set_solver.
  - rewrite Hs', Hp'. rewrite Hr.
    repeat case_bool_decide.
    + split; [auto|]. intros _. set_solver.
    + split; [|contradiction]. intros Hin. apply Hs in Hin. set_solver.
    + rewrite Hs.
      assert (pageLoadPromises w ∖ {[p]} = pageLoadPromises w) as ->
        by (apply difference_disjoint_L, disjoint_singleton_r; assumption).
      reflexivity.
Qed.

Lemma timers_wf_document n now memory w :
  timers_wf w ->
  timers_wf (onDocumentLoadSuccess n now memory w)
  /\ timers (onDocumentLoadSuccess n now memory w)
     = timers w ++ [timeout_timer n w].
Proof.
  intros Hwf.
  destruct (document_loaded n now memory w) as (_ & _ & _ & _ & Ht & Hnext).
  split; [|exact Ht].
  unfold timers_wf. rewrite Ht, Hnext. eapply timers_wf_snoc; eauto.
Qed.

(** Through a preloading run the refs stay those of the run, the timers
    stay in order, and a timeout that was pending stays pending. *)
Lemma preloading_refs n r w0 w t :
  preloading n w0 w ->
  run_refs n r w0 -> timers_wf w0 -> t ∈ timers w0 ->
  (exists run total k, callback t = PreloadTimeout run total k) ->
  run_refs n r w /\ timers_wf w /\ t ∈ timers w.
Proof.
  intros Hreach Hrefs0 Hwf0 Ht0 (run & total & k & Hc).
  induction Hreach as [|w e _ IH He|w t' _ IH Ht' Hkind].
  - auto.
  - destruct IH as (Hrefs & Hwf & Ht).
    destruct (step_notification n e w He) as (p & now & _ & ->).
    destruct (notified_timers p now w Hwf) as (Hwf' & Hkeep).
    split; [apply run_refs_notify, Hrefs|]. split; [exact Hwf'|auto].
  - destruct IH as ((Hr & Hp & Hs) & Hwf & Ht). cbn [step].
    destruct (quiet_timer w t' Hwf Ht' Hkind)
      as (Hr' & Hp' & Hs' & Hset & _ & Hwf' & Hkeep).
    split; [|split; [exact Hwf'|]].
    + split; [congruence|]. split; [rewrite Hp', Hset; exact Hp|].
      rewrite Hs', Hp'. exact Hs.
    + apply Hkeep; [exact Ht|]. intros Hid.
      destruct Hwf as [Hnd _].
      rewrite (ids_determine_timer _ _ _ Hnd Ht Ht' Hid) in Hc.
      destruct Hkind as [[lt Hk]|Hk]; congruence.
Qed.

(** A run that has not settled is not settled by the events of a later
    run. *)
Lemma preloading_unsettled n r w0 w t :
  preloading n w0 w ->
  preloadRun w0 ≠ r -> r ∉ settledRuns w0 -> timers_wf w0 -> t ∈ timers w0 ->
  (exists run total k, callback t = PreloadTimeout run total k) ->
  preloadRun w = preloadRun w0 /\ (r ∉ settledRuns w)
  /\ timers_wf w /\ t ∈ timers w.
Proof.
  intros Hreach Hne Hun0 Hwf0 Ht0 (run & total & k & Hc).
  induction Hreach as [|w e _ IH He|w t' _ IH Ht' Hkind].
  - auto.
  - destruct IH as (Hrun & Hun & Hwf & Ht).
    destruct (step_notification n e w He) as (p & now & _ & ->).
    destruct (notified_timers p now w Hwf) as (Hwf' & Hkeep).
    destruct (notified_refs p now w) as (Hr' & _ & Hs').
    split; [congruence|]. split; [|split; [exact Hwf'|auto]].
    rewrite Hs'. repeat case_bool_decide; set_solver.
  - destruct IH as (Hrun & Hun & Hwf & Ht). cbn [step].
    destruct (quiet_timer w t' Hwf Ht' Hkind)
      as (Hr' & _ & Hs' & _ & _ & Hwf' & Hkeep).
    split; [congruence|]. split; [rewrite Hs'; exact Hun|].
    split; [exact Hwf'|].
    apply Hkeep; [exact Ht|]. intros Hid.
    destruct Hwf as [Hnd _].
    rewrite (ids_determine_timer _ _ _ Hnd Ht Ht' Hid) in Hc.
    destruct Hkind as [[lt Hk]|Hk]; congruence.
Qed.

(** The timeout of a run fires in a world where the run has not settled. *)
Lemma timeout_fires w t run total currentLoaded :
  timers_wf w -> t ∈ timers w ->
  callback t = PreloadTimeout run total currentLoaded ->
  run ∉ settledRuns w ->
  let w' := step (TimerFired (timer_id t)) w in
  isLoadingPdf (view w') = false
  /\ loadingMessage (view w') = loaded_so_far currentLoaded total
  /\ loadedPages (view w') = loadedPages (view w)
  /\ loadingProgress (view w') = loadingProgress (view w).
Proof.
  intros Hwf Ht Hc Hun w'. subst w'. cbn [step].
  rewrite (fired_timer w t Hwf Ht), Hc. cbn [fire].
  unfold preloadTimeout. cbn [settledRuns with_timers].
  case_bool_decide; [contradiction|].
  cbn. repeat split.
Qed.

(** The timeout of a run whose race has settled is without effect. *)
Lemma timeout_ignored w t run total currentLoaded :
  timers_wf w -> t ∈ timers w ->
  callback t = PreloadTimeout run total currentLoaded ->
  run ∈ settledRuns w ->
  let w' := step (TimerFired (timer_id t)) w in
  view w' = view w /\ alerts w' = alerts w
  /\ timers w' = filter (fun t' => timer_id t' ≠ timer_id t) (timers w).
Proof.
  intros Hwf Ht Hc Hin w'. subst w'. cbn [step].
  rewrite (fired_timer w t Hwf Ht), Hc. cbn [fire].
  unfold preloadTimeout. cbn [settledRuns with_timers].
  case_bool_decide; [|contradiction].
  cbn. repeat split.
Qed.

(** X10. The 45 s timeout of preloading takes effect exactly when a page
    is still missing. In a run that Skip and Cancel leave alone, if fewer
    than numPages pages have reported when the timeout fires, the overlay
    is taken down and the message reads 'Loaded k/numPages pages. Others
    will load as needed.', k being the number of pages that were loaded
    when the document load began and not the number loaded by now; if all
    pages have reported, the timeout changes nothing of what the viewer
    shows. *)
Theorem timeout_acts_on_unfinished_run
    (n : nat) (now : Z) (memory : option MemoryInfo) (w_prev w : World) :
  (0 < n)%nat -> timers_wf w_prev -> runs_wf w_prev ->
  ~ completion_pending w_prev ->
  preloading n (onDocumentLoadSuccess n now memory w_prev) w ->
  let loaded := size (loadedPages (view w)) in
  let w' := step (TimerFired (next_timer w_prev)) w in
  ((loaded < n)%nat ->
   isLoadingPdf (view w) = true
   /\ isLoadingPdf (view w') = false
   /\ loadingMessage (view w')
      = loaded_so_far (size (loadedPages (view w_prev))) n
   /\ loadedPages (view w') = loadedPages (view w))
  /\ (loaded = n -> view w' = view w /\ alerts w' = alerts w).
Proof.
  intros Hn Hwf Hfresh Hnone Hreach loaded w'.
  pose proof (run_refs_start n now memory w_prev Hn Hfresh) as Hrefs0.
  destruct (timers_wf_document n now memory w_prev Hwf) as (Hwf0 & Ht0).
  assert (Hin0 : timeout_timer n w_prev
                 ∈ timers (onDocumentLoadSuccess n now memory w_prev)).
  { rewrite Ht0. apply elem_of_app. right.
    apply list_elem_of_singleton. reflexivity. }
  destruct (preloading_refs n _ _ w (timeout_timer n w_prev)
              Hreach Hrefs0 Hwf0 Hin0)
    as ((Hr & Hp & Hs) & Hwfw & Hin); [cbn; eauto|].
  assert (Hinv : preload_inv n w).
  { eapply preloading_inv; [exact Hn| |exact Hreach].
    apply preload_inv_start; assumption. }
  destruct Hinv as (_ & _ & Hsub & Hbefore & _).
  split.
  - intros Hlt.
    assert (Hun : S (preloadRun w_prev) ∉ settledRuns w).
    { intros Hset. apply Hs in Hset.
      assert (Hall : pages_upto n ⊆ loadedPages (view w)).
      { intros p Hpin. destruct (decide (p ∈ loadedPages (view w))) as [|Hno];
          [assumption|].
        assert (Hpp : p ∈ pageLoadPromises w)
          by (rewrite Hp; apply elem_of_difference; auto).
        rewrite Hset in Hpp. set_solver. }
      apply subseteq_size in Hall. rewrite size_pages_upto in Hall.
      subst loaded. lia. }
    destruct (timeout_fires w (timeout_timer n w_prev) _ _ _
                Hwfw Hin eq_refl Hun) as (Hl & Hm & Hlp & _).
    destruct (Hbefore Hlt) as [Hup _].
    split; [exact Hup|]. split; [exact Hl|]. split; [exact Hm|exact Hlp].
  - intros Hfull.
    assert (Hset : S (preloadRun w_prev) ∈ settledRuns w).
    { apply Hs. rewrite Hp.
      assert (Heq : loadedPages (view w) = pages_upto n).
      { apply set_subseteq_size_eq; [exact Hsub|].
        rewrite size_pages_upto. subst loaded. lia. }
      rewrite Heq. apply difference_diag_L. }
    destruct (timeout_ignored w (timeout_timer n w_prev) _ _ _
                Hwfw Hin eq_refl Hset) as (Hv & Ha & _).
    split; [exact Hv|exact Ha].
Qed.

(** X11. A timeout left over from an earlier document is not disarmed by
    loading another one: when it fires during the preloading run of the
    next document, it takes that run's overlay down, although pages are
    still missing, and shows the earlier document's 'Loaded k/total
    pages' message. *)
Theorem leftover_timeout_closes_next_overlay
    (t : Timer) (run total currentLoaded : nat)
    (n : nat) (now : Z) (memory : option MemoryInfo) (w_prev w : World) :
  (0 < n)%nat -> timers_wf w_prev -> runs_wf w_prev ->
  ~ completion_pending w_prev ->
  pending_timeout t run total currentLoaded w_prev ->
  preloading n (onDocumentLoadSuccess n now memory w_prev) w ->
  let w' := step (TimerFired (timer_id t)) w in
  isLoadingPdf (view w') = false
  /\ loadingMessage (view w') = loaded_so_far currentLoaded total
  /\ ((size (loadedPages (view w)) < n)%nat -> isLoadingPdf (view w) = true).
Proof.
  intros Hn Hwf Hfresh Hnone (Ht & Hc & Hle & Hun) Hreach w'.
  destruct (timers_wf_document n now memory w_prev Hwf) as (Hwf0 & Ht0).
  assert (Hrefs : preloadRun (onDocumentLoadSuccess n now memory w_prev)
                  = S (preloadRun w_prev)
          /\ settledRuns (onDocumentLoadSuccess n now memory w_prev)
             = settledRuns w_prev).
  { unfold onDocumentLoadSuccess, preloadAllPages.
    destruct n as [|n']; [lia|]. cbn. auto. }
  destruct Hrefs as (Hr0 & Hs0).
  assert (Hin0 : t ∈ timers (onDocumentLoadSuccess n now memory w_prev)).
  { rewrite Ht0. apply elem_of_app. left. exact Ht. }
  destruct (preloading_unsettled n run _ w t Hreach) as (_ & Hunw & Hwfw & Hinw).
  - rewrite Hr0. lia.
  - rewrite Hs0. exact Hun.
  - exact Hwf0.
  - exact Hin0.
  - eauto.
  - destruct (timeout_fires w t _ _ _ Hwfw Hinw Hc Hunw) as (Hl & Hm & _).
    split; [exact Hl|]. split; [exact Hm|].
    intros Hlt.
    assert (Hinv : preload_inv n w).
    { eapply preloading_inv; [exact Hn| |exact Hreach].
      apply preload_inv_start; assumption. }
    destruct Hinv as (_ & _ & _ & Hbefore & _).
    apply Hbefore, Hlt.
Qed.

(** Through a preloading run the progress shown is that of the set of
    loaded pages. *)
Lemma preloading_progress n w0 w :
  (0 < n)%nat -> Z.of_nat n < 2 ^ 53 ->
  preload_inv n w0 ->
  loadingProgress (view w0) = progress_percent (size (loadedPages (view w0))) n ->
  preloading n w0 w ->
  preload_inv n w
  /\ loadingProgress (view w) = progress_percent (size (loadedPages (view w))) n.
Proof.
  intros Hn Hbig Hinv0 Hprog0 Hreach.
  induction Hreach as [|w e Hreach IH He|w t Hreach IH Ht Hkind].
  - auto.
  - destruct IH as (Hinv & Hprog).
    assert (Hinv' : preload_inv n (step e w)).
    { eapply preloading_inv; [exact Hn|exact Hinv0|].
      apply preloading_notify; assumption. }
    split; [exact Hinv'|].
    destruct (step_notification n e w He) as (p & now & Hp & ->).
    destruct Hinv as (Hnp & _ & Hsub & Hbefore & _).
    destruct (notified_view p now w) as (Hset & _).
    destruct (isLoadingPdf (view w)) eqn:Hl.
    + destruct n as [|n']; [lia|].
      destruct (notified_gate_open p now w n' Hl Hnp) as (-> & _).
      rewrite Hset. reflexivity.
    + destruct (notified_gate_closed p now w (or_introl Hl)) as (-> & _).
      assert (Hfull : size (loadedPages (view w)) = n).
      { pose proof (size_le_pages _ _ Hsub).
        destruct (Nat.lt_ge_cases (size (loadedPages (view w))) n) as [Hlt|];
          [|lia].
        destruct (Hbefore Hlt) as [Hup _]. congruence. }
      assert (Heq : loadedPages (view w) = pages_upto n).
      { apply set_subseteq_size_eq; [exact Hsub|].
        rewrite size_pages_upto. lia. }
      rewrite Hset, Hprog, Heq.
      assert ({[p]} ∪ pages_upto n = pages_upto n) as ->; [|reflexivity].
      apply subseteq_union_1_L, singleton_subseteq_l, elem_of_pages_upto, Hp.
  - destruct IH as (Hinv & Hprog).
    assert (Hinv' : preload_inv n (step (TimerFired (timer_id t)) w)).
    { eapply preloading_inv; [exact Hn|exact Hinv0|].
      apply preloading_timer; assumption. }
    split; [exact Hinv'|].
    destruct Hinv as (_ & Hwf & _).
    cbn [step].
    destruct (quiet_timer w t Hwf Ht Hkind) as (_ & _ & _ & -> & -> & _).
    exact Hprog.
Qed.

(** X9. Through a preloading run that begins while no completion
    callback of an earlier run is pending and that the timeout, Skip and
    Cancel leave alone, the run's own completion callbacks included, the
    progress shown is
    Math.round((|loadedPages| / numPages) * 100) of the pages loaded so
    far: it lies in [0, 100], it is 0 while no page has reported and it is
    exactly 100 once all numPages pages have. *)
Theorem progress_is_100_when_all_loaded
    (n : nat) (now : Z) (memory : option MemoryInfo) (w_prev w : World) :
  (0 < n)%nat -> Z.of_nat n < 2 ^ 53 ->
  timers_wf w_prev -> ~ completion_pending w_prev ->
  preloading n (onDocumentLoadSuccess n now memory w_prev) w ->
  let loaded := size (loadedPages (view w)) in
  loadingProgress (view w) = progress_percent loaded n
  /\ 0 <= loadingProgress (view w) <= 100
  /\ (loaded = 0%nat -> loadingProgress (view w) = 0)
  /\ (loaded = n -> loadingProgress (view w) = 100).
Proof.
  intros Hn Hbig Hwf Hnone Hreach loaded.
  destruct (document_loaded n now memory w_prev) as (_ & _ & Hset & Hp0 & _).
  destruct (preloading_progress n _ w Hn Hbig
              (preload_inv_start n now memory w_prev Hn Hwf Hnone))
    as ((_ & _ & Hsub & _) & Hprog); [|exact Hreach|].
  { rewrite Hp0, Hset, size_empty.
    symmetry. apply Binary64Facts.progress_percent_0; assumption. }
  fold loaded in Hprog.
  pose proof (size_le_pages _ _ Hsub) as Hle. fold loaded in Hle.
  split; [exact Hprog|]. rewrite Hprog. split; [|split].
  - apply Binary64Facts.progress_percent_bounds; assumption.
  - intros ->. apply Binary64Facts.progress_percent_0; assumption.
  - intros ->. apply Binary64Facts.progress_percent_full; assumption.
Qed.

(** With the overlay down a notification records its page and nothing
    else. *)
Lemma overlay_down_notifications events : forall w,
  isLoadingPdf (view w) = false -> Forall is_notification events ->
  let w' := run events w in
  isLoadingPdf (view w') = false
  /\ loadingProgress (view w') = loadingProgress (view w)
  /\ loadingMessage (view w') = loadingMessage (view w)
  /\ numPages (view w') = numPages (view w)
  /\ timers w' = timers w
  /\ loadedPages (view w') = reported events ∪ loadedPages (view w).
Proof.
  induction events as [|e events IH]; intros w Hl Hev w'; subst w'.
  - cbn. split; [exact Hl|]. do 4 (split; [reflexivity|]).
    symmetry. apply (left_id_L ∅ (∪)).
  - inversion Hev as [|? ? He Hrest]; subst. rewrite run_cons.
    assert (Hstep : exists p now, step e w = handlePageLoadSuccess p now w
                                  /\ reported (e :: events) = {[p]} ∪ reported events).
    { destruct e; cbn in He; try contradiction; eexists _, _; split; reflexivity. }
    destruct Hstep as (p & now & -> & ->).
    destruct (notified_view p now w) as (Hset & Hl' & Hnp & _).
    destruct (notified_gate_closed p now w (or_introl Hl)) as (Hpr & Hm & Ht & _).
    destruct (IH (handlePageLoadSuccess p now w)) as (H1 & H2 & H3 & H4 & H5 & H6);
      [congruence|exact Hrest|].
    split; [exact H1|]. split; [congruence|]. split; [congruence|].
    split; [congruence|]. split; [congruence|].
    rewrite H6, Hset. set_solver.
Qed.

(** X12. After Skip or Cancel, render notifications still record their
    pages in loadedPages, but they no longer move the progress, change the
    message or schedule anything: the message stays the one of Skip (empty
    after Cancel), and no completion of preloading is ever scheduled. *)
Theorem skip_and_cancel_freeze_progress (events : list event) (w : World) :
  Forall is_notification events ->
  let skipped := run events (skipPreloading w) in
  let cancelled := run events (cancelLoading w) in
  (isLoadingPdf (view skipped) = false
   /\ loadingProgress (view skipped) = loadingProgress (view w)
   /\ loadingMessage (view skipped)
      = "Preloading skipped. Pages will load as needed."
   /\ timers skipped = timers (skipPreloading w)
   /\ loadedPages (view skipped) = reported events ∪ loadedPages (view w))
  /\ (isLoadingPdf (view cancelled) = false
      /\ loadingProgress (view cancelled) = loadingProgress (view w)
      /\ loadingMessage (view cancelled) = ""
      /\ numPages (view cancelled) = Some 0%nat
      /\ timers cancelled = timers w
      /\ loadedPages (view cancelled) = reported events).
Proof.
  intros Hev skipped cancelled. subst skipped cancelled. split.
  - destruct (overlay_down_notifications events (skipPreloading w) eq_refl Hev)
      as (H1 & H2 & H3 & _ & H5 & H6).
    auto.
  - destruct (overlay_down_notifications events (cancelLoading w) eq_refl Hev)
      as (H1 & H2 & H3 & H4 & H5 & H6).
    do 5 (split; [assumption|]).
    rewrite H6. apply (right_id_L ∅ (∪)).
Qed.

Lemma pdf_chosen_wf :
  timers_wf pdf_chosen /\ runs_wf pdf_chosen /\ ~ completion_pending pdf_chosen.
Proof.
  split; [|split].
  - split; [apply NoDup_nil_2|]. intros t Ht. inversion Ht.
  - intros r Hr. cbn in Hr. apply elem_of_empty in Hr. destruct Hr.
  - intros (t & Ht & _). inversion Ht.
Qed.

Lemma progress_is_100_witness :
  let w := run [PageRendered 2 1100; PageFailed 1 (Error "render") 1200]
             (onDocumentLoadSuccess 2 1000 None pdf_chosen) in
  loadingProgress (view w) = progress_percent (size (loadedPages (view w))) 2
  /\ 0 <= loadingProgress (view w) <= 100
  /\ (size (loadedPages (view w)) = 0%nat -> loadingProgress (view w) = 0)
  /\ (size (loadedPages (view w)) = 2%nat -> loadingProgress (view w) = 100).
Proof.
  intros w.
  assert (Hreach : preloading 2 (onDocumentLoadSuccess 2 1000 None pdf_chosen) w).
  { apply preloading_notify; [apply preloading_notify|].
    - apply preloading_start.
    - cbn. lia.
    - cbn. lia. }
  destruct pdf_chosen_wf as (Hwf & _ & Hnone).
  assert (Hn : (0 < 2)%nat) by lia.
  assert (Hbig : Z.of_nat 2 < 2 ^ 53) by (vm_compute; reflexivity).
  exact (progress_is_100_when_all_loaded 2 1000 None pdf_chosen w
           Hn Hbig Hwf Hnone Hreach).
Defined.

Lemma timeout_witness :
  let w := run [PageRendered 2 1100]
             (onDocumentLoadSuccess 3 1000 None pdf_chosen) in
  let w' := step (TimerFired 0) w in
  isLoadingPdf (view w) = true
  /\ isLoadingPdf (view w') = false
  /\ loadingMessage (view w') = loaded_so_far 0 3
  /\ size (loadedPages (view w')) = 1%nat.
Proof.
  intros w w'.
  assert (Hreach : preloading 3 (onDocumentLoadSuccess 3 1000 None pdf_chosen) w).
  { apply preloading_notify; [apply preloading_start|]. cbn. lia. }
  destruct pdf_chosen_wf as (Hwf & Hruns & Hnone).
  assert (Hn : (0 < 3)%nat) by lia.
  destruct (timeout_acts_on_unfinished_run 3 1000 None pdf_chosen w
              Hn Hwf Hruns Hnone Hreach) as (Hact & _).
  assert (Hsize : size (loadedPages (view w)) = 1%nat) by (vm_compute; reflexivity).
  assert (Hlt : (size (loadedPages (view w)) < 3)%nat) by (rewrite Hsize; lia).
  destruct (Hact Hlt) as (H1 & H2 & H3 & H4).
  split; [exact H1|]. split; [exact H2|]. split; [exact H3|].
  change (loadedPages (view w') = loadedPages (view w)) in H4.
  rewrite H4. exact Hsize.
Defined.

(** A first document of three pages, of which one has reported when a
    second document is chosen. *)
Lemma second_document_wf :
  let w_prev := run [PageRendered 1 1100;
                     FileChosen (Some {| name := "more.pdf";
                                         type := "application/pdf" |})]
                  (onDocumentLoadSuccess 3 1000 None pdf_chosen) in
  timers_wf w_prev /\ runs_wf w_prev /\ ~ completion_pending w_prev
  /\ pending_timeout (timeout_timer 3 pdf_chosen) 1 3 0 w_prev.
Proof.
  intros w_prev.
  assert (Hts : timers w_prev = [timeout_timer 3 pdf_chosen]) by reflexivity.
  assert (Hnext : next_timer w_prev = 1%nat) by reflexivity.
  assert (Hset : settledRuns w_prev = ∅) by reflexivity.
  assert (Hrun : preloadRun w_prev = 1%nat) by reflexivity.
  split; [|split; [|split]].
  - split.
    + rewrite Hts. cbn. apply NoDup_singleton.
    + intros t Ht. rewrite Hts in Ht. apply list_elem_of_singleton in Ht.
      subst t. rewrite Hnext. cbn. lia.
  - intros r Hr. rewrite Hset in Hr. apply elem_of_empty in Hr. destruct Hr.
  - intros (t & Ht & lt & Hc). rewrite Hts in Ht.
    apply list_elem_of_singleton in Ht. subst t. discriminate Hc.
  - split; [rewrite Hts; apply list_elem_of_singleton; reflexivity|].
    split; [reflexivity|]. split; [rewrite Hrun; lia|].
    rewrite Hset. apply not_elem_of_empty.
Qed.

Lemma leftover_timeout_witness :
  let w_prev := run [PageRendered 1 1100;
                     FileChosen (Some {| name := "more.pdf";
                                         type := "application/pdf" |})]
                  (onDocumentLoadSuccess 3 1000 None pdf_chosen) in
  let w := run [PageRendered 1 5100]
             (onDocumentLoadSuccess 2 5000 None w_prev) in
  let w' := step (TimerFired 0) w in
  isLoadingPdf (view w) = true
  /\ size (loadedPages (view w)) = 1%nat
  /\ isLoadingPdf (view w') = false
  /\ loadingMessage (view w') = loaded_so_far 0 3.
Proof.
  intros w_prev w w'.
  destruct second_document_wf as (Hwf & Hruns & Hnone & Hpending).
  fold w_prev in Hwf, Hruns, Hnone, Hpending.
  assert (Hreach : preloading 2 (onDocumentLoadSuccess 2 5000 None w_prev) w).
  { apply preloading_notify; [apply preloading_start|]. cbn. lia. }
  assert (Hn : (0 < 2)%nat) by lia.
  destruct (leftover_timeout_closes_next_overlay
              (timeout_timer 3 pdf_chosen) 1 3 0 2 5000 None w_prev w
              Hn Hwf Hruns Hnone Hpending Hreach) as (H1 & H2 & H3).
  assert (Hsize : size (loadedPages (view w)) = 1%nat) by (vm_compute; reflexivity).
  split; [apply H3; rewrite Hsize; lia|]. split; [exact Hsize|].
  split; [exact H1|exact H2].
Defined.

Lemma skip_and_cancel_witness :
  let w := run [PageRendered 1 1100]
             (onDocumentLoadSuccess 3 1000 None pdf_chosen) in
  let events := [PageRendered 2 1300; PageFailed 3 (Error "render") 1400] in
  loadingProgress (view (run events (skipPreloading w))) = 33
  /\ size (loadedPages (view (run events (skipPreloading w)))) = 3%nat
  /\ timers (run events (skipPreloading w)) = timers (skipPreloading w)
  /\ loadedPages (view (run events (cancelLoading w))) = reported events.
Proof.
  intros w events.
  assert (Hev : Forall is_notification events) by (repeat constructor).
  destruct (skip_and_cancel_freeze_progress events w Hev)
    as ((_ & H2 & _ & H4 & H5) & (_ & _ & _ & _ & _ & H6)).
  split; [rewrite H2; vm_compute; reflexivity|].
  split; [rewrite H5; vm_compute; reflexivity|].
  split; [exact H4|exact H6].
Defined.

End RunFacts.

(* ===================================================================== *)
(** * Polling while the backend is generating *)
(* ===================================================================== *)

Module PollingRunFacts.
Import JsNumber Json JsString Viewer Preload Polling PollingRuns.
Import PreloadFacts StringFacts.

#[local] Arguments pretty : simpl never.
#[local] Arguments String.append : simpl never.

Lemma filter_other_ids (ts : list Timer) (bound : nat) :
  (forall t, t ∈ ts -> (timer_id t < bound)%nat) ->
  filter (fun t' => timer_id t' ≠ bound) ts = ts.
Proof.
  induction ts as [|t ts IH]; intros Hlt; [reflexivity|].
  rewrite filter_cons_True.
  - f_equal. apply IH. intros t' Ht'. apply Hlt. right. exact Ht'.
  - specialize (Hlt t ltac:(left)). lia.
Qed.

(** A round that is answered with 'generating' issues one status check
    and leaves the timers as they were. *)
Lemma generating_round text taskId fetchJson w status :
  timers_wf w -> classify status = Generating ->
  let w' := poll_round text taskId fetchJson w status in
  calls w' = calls w ++ [CheckStatusCall taskId]
  /\ timers w' = timers w
  /\ timers_wf w'
  /\ alerts w' = alerts w
  /\ isGenerating (view w') = isGenerating (view w)
  /\ showVideoPlayer (view w') = showVideoPlayer (view w)
  /\ showExplanationViewer (view w') = showExplanationViewer (view w)
  /\ selectedText (view w') = selectedText (view w)
  /\ generationMessage (view w')
     = or_default (StatusResponse.message status) "Processing...".
Proof.
  intros Hwf Hcase w'. subst w'. unfold poll_round. cbn [step].
  unfold classify in Hcase. unfold pollGenerationStatus_settled.
  destruct (is_text (StatusResponse.status status) "completed"
            && (truthy (StatusResponse.video_url status)
                || truthy (StatusResponse.video_path status)));
    [discriminate|].
  destruct (is_text (StatusResponse.status status) "failed"); [discriminate|].
  destruct (is_text (StatusResponse.status status) "generating");
    [|discriminate].
  set (w1 := with_view _ w).
  set (t := {| timer_id := next_timer w; delay := 2000%N;
               callback := PollAgain text taskId |}).
  assert (Hwf2 : timers_wf (setTimeout (PollAgain text taskId) 2000%N w1)).
  { unfold timers_wf. cbn. eapply timers_wf_snoc; eauto. }
  assert (Hin : t ∈ timers (setTimeout (PollAgain text taskId) 2000%N w1)).
  { cbn. apply elem_of_app. right. apply list_elem_of_singleton. reflexivity. }
  pose proof (fired_timer _ t Hwf2 Hin) as Hfire.
  change (timer_id t) with (next_timer w) in Hfire.
  rewrite Hfire. cbn [callback t fire pollGenerationStatus].
  assert (Hts : filter (fun t' => timer_id t' ≠ next_timer w) (timers w ++ [t])
                = timers w).
  { rewrite filter_app, filter_other_ids by apply Hwf.
    rewrite filter_cons_False, filter_nil by (cbn; intros H; apply H; reflexivity).
    apply app_nil_r. }
  unfold t in Hts. unfold timers_wf. cbn. rewrite Hts.
  split; [reflexivity|]. split; [reflexivity|]. split.
  - destruct Hwf as [Hnd Hlt]. split; [exact Hnd|].
    intros t' Ht'. specialize (Hlt t' Ht'). lia.
  - repeat split.
Qed.

(** X14. Polling does not fork and does not stop while the backend
    reports 'generating': each such answer schedules one poll, whose timer
    issues one status check for the same task, so that after k answers k
    further checks have been issued, no timer is left over, nothing has
    been alerted or shown, and isGenerating is as it was. *)
Theorem polling_never_forks (text : string) (taskId : option string)
    (fetchJson : string -> completion ExplanationData.t)
    (statuses : list StatusResponse.t) (w : World) :
  timers_wf w ->
  Forall (fun status => classify status = Generating) statuses ->
  let w' := poll_rounds text taskId fetchJson statuses w in
  calls w' = calls w ++ repeat (CheckStatusCall taskId) (length statuses)
  /\ timers w' = timers w
  /\ alerts w' = alerts w
  /\ isGenerating (view w') = isGenerating (view w)
  /\ showVideoPlayer (view w') = showVideoPlayer (view w)
  /\ showExplanationViewer (view w') = showExplanationViewer (view w)
  /\ selectedText (view w') = selectedText (view w).
Proof.
  intros Hwf Hall. revert w Hwf.
  induction Hall as [|status statuses Hcase _ IH]; intros w Hwf w'; subst w'.
  - cbn. rewrite app_nil_r. repeat split.
  - change (poll_rounds text taskId fetchJson (status :: statuses) w)
      with (poll_rounds text taskId fetchJson statuses
              (poll_round text taskId fetchJson w status)).
    destruct (generating_round text taskId fetchJson w status Hwf Hcase)
      as (Hc & Ht & Hwf' & Ha & Hg & Hv & He & Hs & _).
    destruct (IH _ Hwf') as (Hc' & Ht' & Ha' & Hg' & Hv' & He' & Hs').
    rewrite Hc', Hc, Ht', Ht, Ha', Ha, Hg', Hg, Hv', Hv, He', He, Hs', Hs.
    cbn [length repeat]. rewrite <- app_assoc. repeat split.
Qed.

Lemma polling_witness :
  let w := run [VisualizeClicked None;
                GenerateSettled "x^2 + y^2 = r^2"
                  (Return {| GenerateResponse.task_id := Some "task-1" |})]
             formula_selected in
  let statuses := [status_of "generating" None None;
                   status_of "generating" None None;
                   status_of "generating" None None] in
  let w' := poll_rounds "x^2 + y^2 = r^2" (Some "task-1") unreachable statuses w in
  calls w' = [GenerateVideoCall "x^2 + y^2 = r^2" None;
              CheckStatusCall (Some "task-1"); CheckStatusCall (Some "task-1");
              CheckStatusCall (Some "task-1"); CheckStatusCall (Some "task-1")]
  /\ timers w' = []
  /\ isGenerating (view w') = true.
Proof.
  intros w statuses w'.
  assert (Hwf : timers_wf w).
  { split; [apply NoDup_nil_2|]. intros t Ht. inversion Ht. }
  assert (Hall : Forall (fun status => classify status = Generating) statuses)
    by (repeat constructor).
  destruct (polling_never_forks "x^2 + y^2 = r^2" (Some "task-1") unreachable
              statuses w Hwf Hall) as (Hc & Ht & _ & Hg & _).
  split; [exact Hc|]. split; [exact Ht|exact Hg].
Defined.

(** X16. The title of the video player is the selected text itself when
    that has at most 50 UTF-16 code units, and otherwise its first 50 code
    units followed by '...', so that it never has more than 53. What is
    kept of the text is a part that the text begins with, followed, where
    the cut splits a character of two code units, by the first of the
    two. *)
Theorem video_title_bounds (text : string) :
  (utf16_length (video_title text) <= 53)%nat
  /\ ((utf16_length text <= 50)%nat -> video_title text = text)
  /\ ((50 < utf16_length text)%nat ->
      video_title text = substring0 50 text +:+ "..."
      /\ utf16_length (video_title text) = 53%nat)
  /\ (exists kept rest,
        text = kept +:+ rest
        /\ (substring0 50 text = kept
            \/ substring0 50 text = kept +:+ high_surrogate rest)).
Proof.
  unfold video_title.
  destruct (50 <? utf16_length text)%nat eqn:Hlong.
  - apply Nat.ltb_lt in Hlong.
    assert (Hlen : utf16_length (substring0 50 text +:+ "...") = 53%nat).
    { rewrite length_append, substring0_length.
      change (utf16_length "...") with 3%nat. lia. }
    split; [lia|]. split; [lia|]. split; [auto|apply substring0_prefix].
  - apply Nat.ltb_ge in Hlong.
    rewrite substring0_all by exact Hlong.
    rewrite append_empty. split; [lia|]. split; [reflexivity|].
    split; [lia|].
    exists text, "". rewrite append_empty. auto.
Qed.

End PollingRunFacts.

(* ===================================================================== *)
(** * OCR results and their buttons *)
(* ===================================================================== *)

Module OcrRunFacts.
Import JsNumber Json JsString Viewer Preload Polling Ocr OcrRuns.
Import PreloadFacts OcrFacts.

#[local] Arguments pretty : simpl never.

(** X18. toggleOcrMode flips ocrMode; switching the mode on leaves the
    OCR results and the last selection alone, switching it off clears
    both, so that toggling twice restores the mode and always ends with
    no OCR results. *)
Theorem ocr_toggle_clears_on_exit (w : World) :
  let once := toggleOcrMode w in
  let twice := toggleOcrMode once in
  ocrMode (view once) = negb (ocrMode (view w))
  /\ (ocrMode (view w) = false ->
      ocrResults (view once) = ocrResults (view w)
      /\ lastSelectionData (view once) = lastSelectionData (view w))
  /\ (ocrMode (view w) = true ->
      ocrResults (view once) = [] /\ lastSelectionData (view once) = None)
  /\ ocrMode (view twice) = ocrMode (view w)
  /\ ocrResults (view twice) = []
  /\ lastSelectionData (view twice) = None.
Proof.
  unfold toggleOcrMode.
  destruct (ocrMode (view w)) eqn:Hm; cbn; rewrite ?Hm; cbn; rewrite ?Hm;
    repeat split; try reflexivity; try discriminate; auto.
Qed.

Lemma filter_all {A : Type} (P : A -> Prop) `{forall x, Decision (P x)}
    (l : list A) :
  Forall P l -> filter P l = l.
Proof.
  induction 1 as [|x l Hx _ IH]; [reflexivity|].
  rewrite filter_cons_True by exact Hx. f_equal. exact IH.
Qed.

Lemma setOcrResults_same s : setOcrResults (ocrResults s) s = s.
Proof. destruct s. reflexivity. Qed.

(** X19. handleRemoveOcrButton removes exactly the results with the
    given id: the others stay, in their order; removing again, or removing
    an id that no result has, changes nothing; and the OCR panel is left
    as it is. *)
Theorem remove_button_removes_its_results (ocrId : string) (w : World) :
  let w' := handleRemoveOcrButton ocrId w in
  (forall r, r ∈ ocrResults (view w')
             <-> r ∈ ocrResults (view w) /\ OcrResult.id r ≠ ocrId)
  /\ sublist (ocrResults (view w')) (ocrResults (view w))
  /\ handleRemoveOcrButton ocrId w' = w'
  /\ (ocrId ∉ map OcrResult.id (ocrResults (view w)) -> view w' = view w)
  /\ latestOcrResult (view w') = latestOcrResult (view w)
  /\ showOcrPanel (view w') = showOcrPanel (view w).
Proof.
  intros w'. subst w'. unfold handleRemoveOcrButton.
  split; [|split; [|split; [|split]]].
  - intros r. cbn. rewrite list_elem_of_filter. tauto.
  - cbn. apply sublist_filter.
  - unfold with_view. cbn. f_equal.
    destruct (view w). unfold setOcrResults. cbn. f_equal.
    apply list_filter_filter_l. auto.
  - intros Hno. cbn.
    rewrite filter_all; [apply setOcrResults_same|].
    apply Forall_forall. intros r Hr Hid. apply Hno.
    rewrite <- Hid. apply list_elem_of_fmap. eauto.
  - cbn. auto.
Qed.

(** X20. The id 'ocr-<Date.now()>-<index>' of an OCR result names its
    clock reading and its index: two results have the same id exactly when
    they were built at the same millisecond for the same index. *)
Theorem ocr_id_names_clock_and_index
    (selectionData selectionData' : SelectionData) (env env' : OcrEnv)
    (index index' : nat) (f f' : formula) :
  OcrResult.id (ocr_result selectionData env index f)
  = OcrResult.id (ocr_result selectionData' env' index' f')
  <-> clock env index = clock env' index' /\ index = index'.
Proof.
  cbn. split.
  - intros Hid.
    change ("ocr-" +:+ ?a) with (String "o" (String "c" (String "r" (String "-" a)))) in Hid.
    injection Hid as Hid.
    apply split_at_dash in Hid as [Hc Hi]; try apply pretty_N_no_dash.
    apply (inj pretty) in Hc. apply (inj pretty) in Hi. auto.
  - intros [-> ->]. reflexivity.
Qed.

Lemma string_formulas_witness :
  let w := performOcrExtraction sample_selection "moderate" ocr_mode_on in
  let w' := performOcrExtraction_settled sample_selection sample_env
              (Return string_formulas_response) w in
  length (ocrResults (view w')) = 2%nat
  /\ NoDup (map OcrResult.id (ocrResults (view w')))
  /\ showOcrPanel (view w') = true
  /\ ocrPanelMinimized (view w') = false
  /\ LatestOcrResult.latex <$> latestOcrResult (view w')
     = Some (FormulaString "x^2 + y^2 = r^2").
Proof.
  intros w w'.
  destruct (ocr_string_formulas_appended sample_selection sample_env
              string_formulas_response "x^2 + y^2 = r^2"
              [FormulaString "E = mc^2"] w eq_refl eq_refl)
    as (Happ & Hlen & Hnd & Hshow & Hmin & Hlatex).
  fold w' in Happ, Hshow, Hmin, Hlatex.
  split; [rewrite Happ; reflexivity|].
  split; [rewrite Happ; exact Hnd|].
  split; [exact Hshow|]. split; [exact Hmin|exact Hlatex].
Defined.

End OcrRunFacts.

(* ===================================================================== *)
(** * File names of paths *)
(* ===================================================================== *)

Module PathFacts.
Import JsNumber Json JsString Viewer PathDefs StringFacts.









End PathFacts.

(* ===================================================================== *)
(** * The OCR panel's video *)
(* ===================================================================== *)

Module PanelFacts.
Import JsNumber Json JsString Viewer Preload Polling PathDefs PathFacts.

#[local] Arguments pretty : simpl never.


(** Generation has reported 'generating' once, and the next status check
    is two seconds away. *)
Lemma cancel_witness :
  let w := run [VisualizeClicked None;
                GenerateSettled "x^2 + y^2 = r^2"
                  (Return {| GenerateResponse.task_id := Some "task-1" |});
                StatusSettled "x^2 + y^2 = r^2" (Some "task-1")
                  (Return (status_of "generating" None None)) unreachable]
             formula_selected in
  let cancelled := handleCancelGeneration w in
  isGenerating (view cancelled) = false
  /\ calls (step (TimerFired 0) cancelled)
     = calls w ++ [CheckStatusCall (Some "task-1")].
Proof.
  intros w cancelled.
  set (t := {| timer_id := 0%nat; delay := 2000%N;
               callback := PollAgain "x^2 + y^2 = r^2" (Some "task-1") |}).
  assert (Hts : timers w = [t]) by reflexivity.
  assert (Hwf : timers_wf w).
  { split.
    - rewrite Hts. cbn. apply NoDup_singleton.
    - intros t' Ht'. rewrite Hts in Ht'. apply list_elem_of_singleton in Ht'.
      subst t'. cbn. lia. }
  assert (Hin : t ∈ timers w)
    by (rewrite Hts; apply list_elem_of_singleton; reflexivity).
  destruct (PollingFacts.pending_poll_survives_cancel w t
              "x^2 + y^2 = r^2" (Some "task-1") Hwf Hin eq_refl) as (_ & Hcalls).
  split; [reflexivity|exact Hcalls].
Defined.

End PanelFacts.

(* ===================================================================== *)
(** * Zoom: the bounds are reached *)
(* ===================================================================== *)

Module ZoomRunFacts.
Import JsNumber Zoom ZoomFacts.

Lemma orbit_zoomIn_13 :
  forallb (fun s => same_value (zoom_all (repeat ZoomIn 13) s) lit_3_0)
    scale_orbit = true.
Proof. vm_compute. reflexivity. Qed.

Lemma orbit_zoomOut_13 :
  forallb (fun s => same_value (zoom_all (repeat ZoomOut 13) s) lit_0_5)
    scale_orbit = true.
Proof. vm_compute. reflexivity. Qed.

Lemma orbit_zoomIn_up :
  forallb (fun s => leb s (zoomIn s)) scale_orbit = true.
Proof. vm_compute. reflexivity. Qed.

Lemma orbit_zoomOut_down :
  forallb (fun s => leb (zoomOut s) s) scale_orbit = true.
Proof. vm_compute. reflexivity. Qed.

Lemma zoomIn_at_max : zoomIn lit_3_0 = lit_3_0.
Proof. vm_compute. reflexivity. Qed.

Lemma zoomOut_at_min : zoomOut lit_0_5 = lit_0_5.
Proof. vm_compute. reflexivity. Qed.

(** X13. From every scale that zoomIn and zoomOut can reach from 1.0,
    thirteen clicks on zoomIn arrive at exactly 3.0 and thirteen clicks on
    zoomOut at exactly 0.5, where further clicks change nothing; and no
    click on zoomIn lowers the scale, none on zoomOut raises it. *)
Theorem zoom_reaches_its_bounds (ops : list zoom_op) :
  let s := zoom_all ops initial_scale in
  zoom_all (repeat ZoomIn 13) s = lit_3_0
  /\ zoom_all (repeat ZoomOut 13) s = lit_0_5
  /\ zoomIn lit_3_0 = lit_3_0
  /\ zoomOut lit_0_5 = lit_0_5
  /\ leb s (zoomIn s) = true
  /\ leb (zoomOut s) s = true.
Proof.
  intros s.
  assert (Hs : In s scale_orbit)
    by (apply zoom_all_in_orbit, initial_in_orbit).
  clearbody s.
  split.
  { apply same_value_eq.
    exact (proj1 (forallb_forall _ _) orbit_zoomIn_13 s Hs). }
  split.
  { apply same_value_eq.
    exact (proj1 (forallb_forall _ _) orbit_zoomOut_13 s Hs). }
  split; [exact zoomIn_at_max|]. split; [exact zoomOut_at_min|].
  split.
  - exact (proj1 (forallb_forall _ _) orbit_zoomIn_up s Hs).
  - exact (proj1 (forallb_forall _ _) orbit_zoomOut_down s Hs).
Qed.

End ZoomRunFacts.

(* ===================================================================== *)
(** * The page indicator *)
(* ===================================================================== *)

Module PageIndicatorFacts.
Import JsNumber Json JsString Viewer PageIndicator Binary64 Binary64Facts.

Lemma SFcompare_antisym x y :
  SFcompare y x = option_map CompOpp (SFcompare x y).
Proof.
  destruct x as [s| s| |s m e], y as [t| t| |t n f]; cbn;
    try reflexivity; try (destruct s; reflexivity);
    try (destruct t; reflexivity);
    try (destruct s, t; reflexivity).
  destruct s, t; try reflexivity; f_equal;
    rewrite (Z.compare_antisym e f); destruct (e ?= f); cbn; try reflexivity;
    change (Pos.compare_cont Eq ?a ?b) with (Pos.compare a b);
    rewrite (Pos.compare_antisym m n); destruct (m ?= n)%positive; reflexivity.
Qed.

Lemma SFcompare_none x y :
  SFcompare x y = None <-> x = S754_nan \/ y = S754_nan.
Proof.
  destruct x as [s| s| |s m e], y as [t| t| |t n f]; cbn;
    split; intros H; try discriminate; auto;
    destruct H as [H|H]; discriminate.
Qed.

Lemma leb_one_normal N lo hi :
  normal N lo hi -> (-52 <= lo) -> leb (of_Z 1) N = true /\ leb N N = true.
Proof.
  intros (m & e & -> & [Hm _] & [He _]) Hlo.
  change (of_Z 1) with (S754_finite false 4503599627370496 (-52)).
  unfold leb, SFleb. cbn [SFcompare]. split.
  - destruct (Z.compare_spec (-52) e) as [<-|Hlt|Hgt]; try reflexivity; try lia.
    change (Pos.compare_cont Eq ?a ?b) with (Pos.compare a b).
    change (2 ^ 52) with (Z.pos 4503599627370496) in Hm.
    destruct (4503599627370496 ?= m)%positive eqn:Hcmp; try reflexivity.
    destruct (Hm Hcmp).
  - rewrite Z.compare_refl.
    change (Pos.compare_cont Eq ?a ?b) with (Pos.compare a b).
    rewrite Pos.compare_refl. reflexivity.
Qed.

(** [Math.min(Math.max(c, 1), N)] for a count [N] of at least one page. *)
Lemma clamp_cases c N :
  leb (of_Z 1) N = true -> leb N N = true ->
  let r := Math_min (Math_max c (of_Z 1)) N in
  (r = S754_nan <-> c = S754_nan)
  /\ (c <> S754_nan -> leb (of_Z 1) r = true /\ leb r N = true).
Proof.
  intros Hone Hrefl r. subst r.
  assert (HN : N <> S754_nan).
  { intros ->. discriminate Hrefl. }
  destruct (SFcompare c (of_Z 1)) as [cmp|] eqn:Hc.
  2:{ apply SFcompare_none in Hc as [->|Hc]; [|discriminate Hc].
      split; [split; reflexivity|]. intros H. contradiction. }
  assert (Hcn : c <> S754_nan).
  { intros ->. discriminate Hc. }
  assert (Ha : exists a, Math_max c (of_Z 1) = a /\ a <> S754_nan
                         /\ leb (of_Z 1) a = true).
  { unfold Math_max. rewrite Hc.
    pose proof (SFcompare_antisym c (of_Z 1)) as Hanti. rewrite Hc in Hanti.
    destruct cmp; cbn [option_map CompOpp] in Hanti.
    - destruct (is_neg_zero c) eqn:Hz.
      + destruct c as [[]| | |]; discriminate.
      + exists c. split; [reflexivity|]. split; [exact Hcn|].
        unfold leb, SFleb. rewrite Hanti. reflexivity.
    - exists (of_Z 1). split; [reflexivity|]. split; [discriminate|reflexivity].
    - exists c. split; [reflexivity|]. split; [exact Hcn|].
      unfold leb, SFleb. rewrite Hanti. reflexivity. }
  destruct Ha as (a & -> & Han & Hale).
  unfold Math_min.
  destruct (SFcompare a N) as [cmp'|] eqn:Hcmp.
  2:{ apply SFcompare_none in Hcmp as [?|?]; contradiction. }
  destruct cmp'.
  - destruct (is_neg_zero N) eqn:Hz.
    + split; [split; intros; contradiction|]. intros _. auto.
    + split; [split; intros; contradiction|]. intros _.
      split; [exact Hale|]. unfold leb, SFleb. rewrite Hcmp. reflexivity.
  - split; [split; intros; contradiction|]. intros _.
    split; [exact Hale|]. unfold leb, SFleb. rewrite Hcmp. reflexivity.
  - split; [split; intros; contradiction|]. intros _. auto.
Qed.

(** X22. The page number that getCurrentPageNumber hands to the toolbar
    is 1 when the container is not mounted; otherwise it is NaN exactly
    when the page estimated from the scroll position,
    Math.floor(scrollTop / (clientHeight / scale)) + 1, is NaN (as for a
    container of height 0 that is not scrolled), and in every other case
    it lies between 1 and numPages. *)
Theorem page_number_in_range_or_nan
    (container : option Container) (s : ViewerState) (n : nat) :
  numPages s = Some n -> (0 < n)%nat -> Z.of_nat n < 2 ^ 53 ->
  let page := getCurrentPageNumber container s in
  match container with
  | None => page = of_Z 1
  | Some c =>
      (page = S754_nan <-> estimated_page c s = S754_nan)
      /\ (estimated_page c s <> S754_nan ->
          leb (of_Z 1) page = true
          /\ leb page (of_Z (Z.of_nat n)) = true)
  end.
Proof.
  intros Hnp Hn Hbig page. subst page. unfold getCurrentPageNumber.
  rewrite Hnp. destruct container as [c|]; [|reflexivity].
  destruct n as [|n']; [lia|].
  destruct (of_Z_normal (Z.of_nat (S n')) ltac:(lia)) as [Hnorm _].
  destruct (leb_one_normal _ _ _ Hnorm ltac:(lia)) as [Hone Hrefl].
  apply (clamp_cases _ _ Hone Hrefl).
Qed.

Lemma page_number_witness :
  let s := setNumPages (Some 12%nat) initialState in
  let top := {| scrollTop := of_Z 2500; clientHeight := of_Z 800 |} in
  let flat := {| scrollTop := of_Z 0; clientHeight := of_Z 0 |} in
  getCurrentPageNumber (Some top) s = of_Z 4
  /\ getCurrentPageNumber (Some flat) s = S754_nan
  /\ getCurrentPageNumber None s = of_Z 1.
Proof.
  intros s top flat.
  assert (Hnp : numPages s = Some 12%nat) by reflexivity.
  assert (Hn : (0 < 12)%nat) by lia.
  assert (Hbig : Z.of_nat 12 < 2 ^ 53) by (vm_compute; reflexivity).
  pose proof (page_number_in_range_or_nan (Some top) s 12 Hnp Hn Hbig) as Htop.
  pose proof (page_number_in_range_or_nan (Some flat) s 12 Hnp Hn Hbig) as Hflat.
  pose proof (page_number_in_range_or_nan None s 12 Hnp Hn Hbig) as Hnone.
  cbv zeta in Htop, Hflat, Hnone.
  split; [vm_compute; reflexivity|].
  split; [apply Hflat; vm_compute; reflexivity|exact Hnone].
Defined.

End PageIndicatorFacts.

(* ===================================================================== *)
(** * The explanation viewer *)
(* ===================================================================== *)

Module ExplanationFacts.
Import JsString Explanation.

Lemma formatLine_blank line :
  blank line = true -> formatLine line = None.
Proof.
  unfold blank, formatLine. destruct (trim line) as [|c r]; [|discriminate].
  reflexivity.
Qed.

Lemma formatLine_shown line :
  blank line = false ->
  exists b, formatLine line = Some b /\ block_text b = shown line.
Proof.
  unfold blank, formatLine, shown.
  destruct (trim line) as [|c r] eqn:Ht; [discriminate|]. intros _.
  destruct (startsWith _ _ && endsWith _ _); [eauto|].
  destruct (includes _ ":" && _); [eauto|].
  destruct (numbered _); [eauto|].
  destruct (includes _ "=" || _); [eauto|].
  cbn [truthy]. eauto.
Qed.

(** X23. formatExplanation loses no line and adds none: the blocks it
    renders are, in order, the lines of the text that are not blank, each
    without the white space around it that String.prototype.trim removes
    (the Unicode spaces included), and without its asterisk pairs when it
    is wrapped in them. *)
Theorem formatExplanation_keeps_every_line (text : string) :
  map block_text (formatExplanation text)
  = map shown (filter (fun line => blank line = false) (lines text)).
Proof.
  unfold formatExplanation.
  induction (lines text) as [|line rest IH]; [reflexivity|].
  cbn [omap list_omap]. destruct (blank line) eqn:Hb.
  - rewrite (formatLine_blank line Hb).
    rewrite filter_cons_False by (rewrite Hb; discriminate). exact IH.
  - destruct (formatLine_shown line Hb) as (b & -> & Htext).
    rewrite filter_cons_True by exact Hb.
    cbn [map]. rewrite Htext. f_equal. exact IH.
Qed.

(** The prefix test for a single character. *)
Lemma prefix_char c d r :
  String.prefix (String c "") (String d r) = Ascii.eqb c d.
Proof.
  change (String.prefix (String c "") (String d r))
    with (if ascii_dec c d then String.prefix "" r else false).
  destruct (ascii_dec c d) as [->|Hne].
  - rewrite Ascii.eqb_refl. destruct r; reflexivity.
  - symmetry. apply Ascii.eqb_neq. exact Hne.
Qed.

Lemma remove_stars_other c r :
  Ascii.eqb c "*" = false ->
  remove_stars (String c r) = String c (remove_stars r).
Proof.
  intros Hc. cbn. destruct c as [[] [] [] [] [] [] [] []]; try reflexivity.
  discriminate Hc.
Qed.

Lemma remove_stars_single r :
  String.prefix "*" r = false ->
  remove_stars (String "*" r) = String "*" (remove_stars r).
Proof.
  destruct r as [|d r']; [reflexivity|].
  rewrite prefix_char. intros Hd. cbn.
  destruct d as [[] [] [] [] [] [] [] []]; try reflexivity. discriminate Hd.
Qed.

(** Induction along the cases of [remove_stars]. *)
Lemma remove_stars_ind (P : string -> Prop) :
  P "" ->
  (forall r, P r -> P (String "*" (String "*" r))) ->
  (forall c r, remove_stars (String c r) = String c (remove_stars r) ->
               (Ascii.eqb c "*" = false \/ String.prefix "*" r = false) ->
               P r -> P (String c r)) ->
  forall s, P s.
Proof.
  intros Hnil Hpair Hcons s.
  assert (H : forall n s, (String.length s <= n)%nat -> P s).
  { clear s. induction n as [|n IH]; intros [|c r] Hlen; cbn in Hlen;
      try exact Hnil; try lia.
    destruct (Ascii.eqb c "*") eqn:Hc.
    - apply Ascii.eqb_eq in Hc. subst c.
      destruct (String.prefix "*" r) eqn:Hr.
      + destruct r as [|d r']; [discriminate Hr|].
        rewrite prefix_char in Hr. apply Ascii.eqb_eq in Hr. subst d.
        apply Hpair, IH. cbn in Hlen. lia.
      + apply Hcons; [apply remove_stars_single, Hr|auto|apply IH; lia].
    - apply Hcons; [apply remove_stars_other, Hc|auto|apply IH; lia]. }
  apply (H (String.length s)). lia.
Qed.

Lemma prefix_star_remove_stars s :
  String.prefix "*" s = false -> String.prefix "*" (remove_stars s) = false.
Proof.
  destruct s as [|c r]; [reflexivity|].
  rewrite prefix_char. intros Hc.
  rewrite remove_stars_other by (rewrite Ascii.eqb_sym; exact Hc).
  rewrite prefix_char. exact Hc.
Qed.

Lemma remove_stars_no_pair s : includes (remove_stars s) "**" = false.
Proof.
  induction s as [|r IH|c r Hrs Hkind IH] using remove_stars_ind.
  - reflexivity.
  - exact IH.
  - rewrite Hrs. cbn [includes]. rewrite IH, orb_false_r.
    change (String.prefix "**" (String c (remove_stars r)))
      with (if ascii_dec "*" c then String.prefix "*" (remove_stars r)
            else false).
    destruct (ascii_dec "*" c) as [<-|]; [|reflexivity].
    destruct Hkind as [Hc|Hr]; [discriminate Hc|].
    apply prefix_star_remove_stars, Hr.
Qed.

(** X24. The order of the tests of formatExplanation decides what a line
    is rendered as: a heading has no '**' left in it; a section title has
    a colon and fewer than 100 UTF-16 code units; and a numbered step, an
    equation or a paragraph is rendered as such only if it has no colon or
    has at least 100 code units, so a short numbered step with a colon is
    shown as a section title. Only a blank line is rendered as nothing. *)
Theorem formatLine_precedence (line : string) :
  match formatLine line with
  | Some (Heading text) => includes text "**" = false
  | Some (SectionTitle text) =>
      includes text ":" = true /\ (utf16_length text < 100)%nat
  | Some (NumberedStep text) =>
      numbered text = true
      /\ (includes text ":" = false \/ (100 <= utf16_length text)%nat)
  | Some (Equation text) =>
      numbered text = false
      /\ (includes text ":" = false \/ (100 <= utf16_length text)%nat)
  | Some (Paragraph text) =>
      text <> "" /\ numbered text = false /\ includes text "=" = false
      /\ (includes text ":" = false \/ (100 <= utf16_length text)%nat)
  | None => blank line = true
  end.
Proof.
  unfold formatLine, blank.
  destruct (startsWith _ _ && endsWith _ _); [apply remove_stars_no_pair|].
  destruct (includes (trim line) ":") eqn:Hcolon; cbn [andb].
  - destruct (utf16_length (trim line) <? 100)%nat eqn:Hlen.
    + apply Nat.ltb_lt in Hlen. auto.
    + apply Nat.ltb_ge in Hlen.
      destruct (numbered _) eqn:Hnum; [auto|].
      destruct (includes _ "=") eqn:Heq; cbn [orb]; [auto|].
      destruct (includes _ almost_equal); [auto|].
      destruct (trim line); cbn [truthy negb]; [reflexivity|].
      split; [discriminate|auto].
  - destruct (numbered _) eqn:Hnum; [auto|].
    destruct (includes _ "=") eqn:Heq; cbn [orb]; [auto|].
    destruct (includes _ almost_equal); [auto|].
    destruct (trim line); cbn [truthy negb]; [reflexivity|].
    split; [discriminate|auto].
Qed.

End ExplanationFacts.

(* ===================================================================== *)
(** * Alerts, windows and the clipboard *)
(* ===================================================================== *)

Module EffectFacts.
Import JsNumber Json JsString Viewer Effects FrameFacts.

#[local] Arguments pretty : simpl never.
#[local] Arguments String.append : simpl never.
#[local] Arguments progress_percent : simpl never.
#[local] Arguments toFixed1 : simpl never.
#[local] Arguments Math_round : simpl never.
#[local] Arguments encodeURIComponent : simpl never.
#[local] Arguments trim : simpl never.
#[local] Arguments JsNumber.mul : simpl never.
#[local] Arguments JsNumber.div : simpl never.
#[local] Arguments JsNumber.of_Z : simpl never.
#[local] Arguments JsNumber.ltb : simpl never.

Lemma fire_effects a w :
  opened (fire a w) = opened w /\ clipboard (fire a w) = clipboard w
  /\ alerts (fire a w) = alerts w.
Proof.
  destruct a; cbn [fire]; unfold_handlers; repeat case_match; auto.
Qed.

(** X25. The handlers of the viewer have one source each for what they do
    outside React state: a window is opened only by the gallery's Download
    link, on the backend's origin followed by the video's path; the
    clipboard is written only by the panel's Copy button; and an alert is
    raised only when the start of a generation fails, when a status check
    settles, or for an OCR selection. *)
Theorem side_effects_have_one_source (e : event) (w : World) :
  (opened (step e w) = opened w
   \/ exists path, e = GalleryDownloadClicked path
                   /\ opened (step e w)
                      = opened w ++ ["http://localhost:5000" +:+ path])
  /\ (clipboard (step e w) = clipboard w \/ e = CopyClicked)
  /\ (alerts (step e w) = alerts w \/ may_alert e).
Proof.
  destruct e; cbn [step may_alert]; unfold_handlers; repeat case_match;
    rewrite ?(proj1 (fire_effects _ _)),
            ?(proj1 (proj2 (fire_effects _ _))),
            ?(proj2 (proj2 (fire_effects _ _)));
    cbn; eauto 6.
  split; [right; exists path; auto|auto].
Qed.

End EffectFacts.
